(** * Luminara: submission pipeline, identifiers, rate limiting, sessions

    A shallow embedding of the TypeScript sources of the Luminara app:

    - [utils/uuid.ts]                    (module [Uuid])
    - [lib/security.ts], checkRateLimit  (module [RateLimit])
    - the submit-problem edge function   (module [Handler])
    - [hooks/useProblemSubmission.ts]    (modules [Polling] and [Submit])
    - the secure-session hook            (modules [Session] and [SessionStart])
    - [lib/security.ts], permissions and sessions (module [Security])

    JavaScript strings are sequences of UTF-16 code units; they are modelled
    as [list Z], one number per code unit.  32-bit integers are modelled as
    [Z] with the wrap-around written out. *)

From Stdlib Require Import ZArith Lia.
From stdpp Require Import gmap list strings.

Open Scope Z_scope.

(** ** JavaScript strings and numbers *)

Abbreviation jsstring := (list Z).

(** A source literal, as the list of its code units. *)
Definition js (s : string) : jsstring :=
  (fun a => Z.of_N (Ascii.N_of_ascii a)) <$> String.list_ascii_of_string s.

(** Truthiness of a string: only the empty string is falsy. *)
Definition truthy (s : jsstring) : bool :=
  match s with [] => false | _ => true end.

(** Truthiness of an optional string property ([undefined] is falsy). *)
Definition truthy_opt (o : option jsstring) : bool :=
  match o with Some s => truthy s | None => false end.

(** [x || y] on optional strings. *)
Definition or_else (o : option jsstring) (d : jsstring) : jsstring :=
  match o with
  | Some s => if truthy s then s else d
  | None => d
  end.

(** [x || null] on optional strings. *)
Definition or_null (o : option jsstring) : option jsstring :=
  match o with
  | Some s => if truthy s then Some s else None
  | None => None
  end.

(** [ToInt32]: reduction modulo 2^32 into the signed range. *)
Definition toInt32 (z : Z) : Z := (z + 2 ^ 31) mod 2 ^ 32 - 2 ^ 31.

(** [a << n] on numbers. *)
Definition shl32 (a n : Z) : Z := toInt32 (Z.shiftl (toInt32 a) n).

(** [a & b] and [a | b] on numbers. *)
Definition and32 (a b : Z) : Z := Z.land (toInt32 a) (toInt32 b).
Definition or32 (a b : Z) : Z := Z.lor (toInt32 a) (toInt32 b).

(** The digit characters of [Number.prototype.toString(radix)]. *)
Definition digitChar (d : Z) : Z := if d <? 10 then 48 + d else 87 + d.

Fixpoint digitsLoop (radix : Z) (fuel : nat) (n : Z) (acc : jsstring) : jsstring :=
  match fuel with
  | O => acc
  | S fuel' =>
      if n <? radix then digitChar n :: acc
      else digitsLoop radix fuel' (n / radix) (digitChar (n mod radix) :: acc)
  end.

(** [n.toString(radix)] for a non-negative integer [n]. *)
Definition toStringRadix (radix n : Z) : jsstring :=
  digitsLoop radix (S (Z.to_nat (Z.log2 n))) n [].

(** The value of a string of digits, to compare with [toStringRadix]. *)
Definition digitValue (c : Z) : option Z :=
  if (48 <=? c) && (c <=? 57) then Some (c - 48)
  else if (97 <=? c) && (c <=? 102) then Some (c - 87)
  else if (65 <=? c) && (c <=? 70) then Some (c - 55)
  else None.

Definition fromDigits (radix : Z) (s : jsstring) : Z :=
  fold_left (fun v c => radix * v + default 0 (digitValue c)) s 0.

(** [parseInt(c, 16)] for a string of at most one character; [None] is NaN. *)
Definition parseInt16 (c : option Z) : option Z :=
  match c with
  | Some x => digitValue x
  | None => None
  end.

(** [s.slice(a, b)] for [0 <= a <= b]. *)
Definition slice (a b : nat) (s : jsstring) : jsstring := take (b - a) (drop a s).

(** Results of code that may throw [new Error(msg)]. *)
Inductive outcome (A : Type) : Type :=
| Return (a : A)
| Throw (msg : jsstring).
Arguments Return {A} a.
Arguments Throw {A} msg.

(** ** utils/uuid.ts *)

Module Uuid.

(** The hash loop of [stringToUUID]:
    [hash = ((hash << 5) - hash) + char; hash = hash & hash]. *)
Definition hashStep (hash char : Z) : Z :=
  let h := (shl32 hash 5 - hash) + char in
  and32 h h.

Definition hashLoop (s : jsstring) : Z := fold_left hashStep s 0.

(** [while (hashHex.length < 32) hashHex = '0' + hashHex]. *)
Fixpoint padLoop (fuel : nat) (hashHex : jsstring) : jsstring :=
  match fuel with
  | O => hashHex
  | S fuel' =>
      if (length hashHex <? 32)%nat then padLoop fuel' (48 :: hashHex)
      else hashHex
  end.

Definition hashHexOf (positiveHash : Z) : jsstring :=
  let hashHex := padLoop 32 (toStringRadix 16 positiveHash) in
  if (32 <? length hashHex)%nat then take 32 hashHex else hashHex.

(** The variant character:
    [((parseInt(hashHex[15], 16) & 0x3) | 0x8).toString(16)]. *)
Definition variantOf (hashHex : jsstring) : jsstring :=
  toStringRadix 16 (or32 (and32 (default 0 (parseInt16 (hashHex !! 15%nat))) 3) 8).

Definition formatUUID (hashHex : jsstring) : jsstring :=
  slice 0 8 hashHex ++ js "-" ++
  slice 8 12 hashHex ++ js "-" ++
  (js "4" ++ slice 12 15 hashHex) ++ js "-" ++
  (variantOf hashHex ++ slice 16 19 hashHex) ++ js "-" ++
  slice 19 31 hashHex.

Definition stringToUUID (userIdString : jsstring) : outcome jsstring :=
  if negb (truthy userIdString) then
    Throw (js "Invalid input: userIdString must be a non-empty string")
  else
    let hash := hashLoop userIdString in
    let positiveHash := Z.abs hash in
    Return (formatUUID (hashHexOf positiveHash)).

(** Character classes of the two UUID regular expressions.  Both carry the
    [i] flag, so letters match in either case. *)
Inductive cclass := Hex | Dash | Four | Variant.

Definition isHex (c : Z) : bool :=
  ((48 <=? c) && (c <=? 57)) || ((97 <=? c) && (c <=? 102)) || ((65 <=? c) && (c <=? 70)).

Definition inClass (k : cclass) (c : Z) : bool :=
  match k with
  | Hex => isHex c
  | Dash => c =? 45
  | Four => c =? 52
  | Variant => (c =? 56) || (c =? 57) || (c =? 97) || (c =? 98) || (c =? 65) || (c =? 66)
  end.

(** An anchored pattern made of one-character classes: [^k1 k2 ... kn$]. *)
Fixpoint matches (p : list cclass) (s : jsstring) : bool :=
  match p, s with
  | [], [] => true
  | k :: p', c :: s' => inClass k c && matches p' s'
  | _, _ => false
  end.

(** [/^[0-9a-f]{8}-[0-9a-f]{4}-4[0-9a-f]{3}-[89ab][0-9a-f]{3}-[0-9a-f]{12}$/i] *)
Definition uuidRegex : list cclass :=
  replicate 8 Hex ++ [Dash] ++ replicate 4 Hex ++ [Dash] ++
  [Four] ++ replicate 3 Hex ++ [Dash] ++
  [Variant] ++ replicate 3 Hex ++ [Dash] ++ replicate 12 Hex.

Definition isValidUUID (uuid : jsstring) : bool :=
  if negb (truthy uuid) then false else matches uuidRegex uuid.

Definition ensureUUID (input : jsstring) : outcome jsstring :=
  if isValidUUID input then Return input else stringToUUID input.

Definition createNamespacedUUID (namespace value : jsstring) : outcome jsstring :=
  let combined := namespace ++ js ":" ++ value in
  stringToUUID combined.

(** The template of [generateUUID], one random draw [Math.random() * 16 | 0]
    per [x] or [y]; [rnd] gives the successive draws from position [k]. *)
Definition template : jsstring := js "xxxxxxxx-xxxx-4xxx-yxxx-xxxxxxxxxxxx".

Fixpoint replaceXY (rnd : nat -> Z) (k : nat) (t : jsstring) : jsstring * nat :=
  match t with
  | [] => ([], k)
  | c :: t' =>
      if (c =? 120) || (c =? 121) then
        let r := rnd k in
        let v := if c =? 120 then r else or32 (and32 r 3) 8 in
        let (rest, k') := replaceXY rnd (S k) t' in
        (toStringRadix 16 v ++ rest, k')
      else
        let (rest, k') := replaceXY rnd k t' in
        (c :: rest, k')
  end.

Definition generateUUID (rnd : nat -> Z) (k : nat) : jsstring * nat :=
  replaceXY rnd k template.

End Uuid.

(** ** lib/security.ts: the rate limiter of [SecurityManager] *)

Module RateLimit.

Record SecurityConfig := {
  maxFileSize : Z;
  sessionTimeout : Z;
  maxRequestsPerMinute : Z;
  encryptSensitiveData : bool
}.

Definition defaultSecurityConfig : SecurityConfig :=
  {| maxFileSize := 10 * 1024 * 1024;
     sessionTimeout := 60;
     maxRequestsPerMinute := 30;
     encryptSensitiveData := true |}.

(** An entry of [rateLimitCache]. *)
Record bucket := { count : Z; resetTime : Z }.

(** [checkRateLimit(identifier)], with [now] the value of [Date.now()].
    The cache is a [Map] from identifiers to mutable entries; [current.count++]
    is the update of the entry stored under [identifier]. *)
Definition checkRateLimit (config : SecurityConfig) (now : Z) (identifier : jsstring)
    (rateLimitCache : gmap (list Z) bucket) : bool * gmap (list Z) bucket :=
  let windowMs := 60 * 1000 in
  let limit := maxRequestsPerMinute config in
  match rateLimitCache !! identifier with
  | None =>
      (true, <[identifier := {| count := 1; resetTime := now + windowMs |}]> rateLimitCache)
  | Some current =>
      if now >? resetTime current then
        (true, <[identifier := {| count := 1; resetTime := now + windowMs |}]> rateLimitCache)
      else if count current >=? limit then (false, rateLimitCache)
      else
        (true, <[identifier := {| count := count current + 1;
                                  resetTime := resetTime current |}]> rateLimitCache)
  end.

(** A sequence of calls for one identifier at the given times. *)
Fixpoint calls (config : SecurityConfig) (identifier : jsstring) (times : list Z)
    (cache : gmap (list Z) bucket) : list bool * gmap (list Z) bucket :=
  match times with
  | [] => ([], cache)
  | now :: times' =>
      let (r, cache') := checkRateLimit config now identifier cache in
      let (rs, cache'') := calls config identifier times' cache' in
      (r :: rs, cache'')
  end.

End RateLimit.

(** ** The persistent store and the run-time state *)

Inductive status := pending | processing | completed | error.
Inductive difficulty := easy | medium | hard.

Definition terminal (s : status) : bool :=
  match s with completed | error => true | _ => false end.

(** A row of [problem_submissions], keyed by its primary key [id].  The column
    [ai_response], a copy of the provider's answer kept next to the fields
    parsed from it, is left out. *)
Record submission := {
  sub_id : jsstring;
  sub_user_id : jsstring;
  sub_title : jsstring;
  sub_input_type : jsstring;
  sub_text_content : option jsstring;
  sub_image_url : option jsstring;
  sub_voice_url : option jsstring;
  sub_status : status;
  sub_solution : option jsstring;
  sub_topic : option jsstring;
  sub_subject : option jsstring;
  sub_difficulty : option difficulty;
  sub_tags : option (list jsstring);
  sub_error_message : option jsstring;
  sub_processing_time_ms : option Z;
  sub_created_at : Z;
  sub_updated_at : Z
}.

(** A row of [users]. *)
Record user_row := { usr_email : jsstring; usr_is_guest : bool }.

(** A row of [learning_sessions]. *)
Record session_row := {
  ses_user_id : jsstring;
  ses_session_start : Z;
  ses_session_end : option Z;
  ses_session_metadata : gmap (list Z) (list Z)
}.

(** A row of [audit_logs]. *)
Record audit_row := {
  aud_user_id : option jsstring;
  aud_action : jsstring;
  aud_resource_type : jsstring;
  aud_resource_id : option jsstring;
  aud_created_at : Z
}.

(** One write on [problem_submissions]: the row written, its status before
    the write ([None] for an insert) and after it. *)
Record write_event := { we_id : jsstring; we_old : option status; we_new : status }.

(** The tables, keyed by primary key, the log of writes on
    [problem_submissions], and the positions reached in the streams of random
    draws and of clock readings. *)
Record state := {
  users : gmap (list Z) user_row;
  problem_submissions : gmap (list Z) submission;
  learning_sessions : gmap (list Z) session_row;
  audit_logs : list audit_row;
  writes : list write_event;
  rndPos : nat;
  clockPos : nat
}.

Definition with_users (f : gmap (list Z) user_row -> gmap (list Z) user_row) (s : state) : state :=
  {| users := f (users s); problem_submissions := problem_submissions s;
     learning_sessions := learning_sessions s; audit_logs := audit_logs s;
     writes := writes s; rndPos := rndPos s; clockPos := clockPos s |}.

Definition with_submissions (m : gmap (list Z) submission) (ev : write_event) (s : state) : state :=
  {| users := users s; problem_submissions := m;
     learning_sessions := learning_sessions s; audit_logs := audit_logs s;
     writes := writes s ++ [ev]; rndPos := rndPos s; clockPos := clockPos s |}.

Definition with_sessions (m : gmap (list Z) session_row) (s : state) : state :=
  {| users := users s; problem_submissions := problem_submissions s;
     learning_sessions := m; audit_logs := audit_logs s;
     writes := writes s; rndPos := rndPos s; clockPos := clockPos s |}.

Definition with_audit (a : audit_row) (s : state) : state :=
  {| users := users s; problem_submissions := problem_submissions s;
     learning_sessions := learning_sessions s; audit_logs := audit_logs s ++ [a];
     writes := writes s; rndPos := rndPos s; clockPos := clockPos s |}.

Definition with_rndPos (k : nat) (s : state) : state :=
  {| users := users s; problem_submissions := problem_submissions s;
     learning_sessions := learning_sessions s; audit_logs := audit_logs s;
     writes := writes s; rndPos := k; clockPos := clockPos s |}.

Definition with_clockPos (k : nat) (s : state) : state :=
  {| users := users s; problem_submissions := problem_submissions s;
     learning_sessions := learning_sessions s; audit_logs := audit_logs s;
     writes := writes s; rndPos := rndPos s; clockPos := k |}.

(** Code that reads and writes the state and may throw. *)
Definition M (A : Type) : Type := state -> outcome A * state.

#[export] Instance M_ret : MRet M := fun A a s => (Return a, s).
#[export] Instance M_bind : MBind M := fun A B f m s =>
  match m s with
  | (Return a, s') => f a s'
  | (Throw msg, s') => (Throw msg, s')
  end.

Definition throw {A} (msg : jsstring) : M A := fun s => (Throw msg, s).

(** [if (c) throw new Error(msg)]. *)
Definition throwIf (c : bool) (msg : jsstring) : M unit :=
  if c then throw msg else mret tt.

(** [try { m } catch (error) { h(error.message) }]. *)
Definition tryCatch {A} (m : M A) (h : jsstring -> M A) : M A := fun s =>
  match m s with
  | (Return a, s') => (Return a, s')
  | (Throw msg, s') => h msg s'
  end.

(** [Date.now()] / [new Date()]: the next reading of the clock. *)
Definition now (clock : nat -> Z) : M Z := fun s =>
  (Return (clock (clockPos s)), with_clockPos (S (clockPos s)) s).

(** ** Store operations, as answered by the database *)

Module Db.

(** The result [{ data, error }] of a request; [error] carries the code or
    message. *)
Record reply (A : Type) := { data : option A; err : option jsstring }.
Arguments data {A} r.
Arguments err {A} r.

Definition PGRST116 : jsstring := js "PGRST116".

(** [from('users').select('id').eq('id', id).single()]. *)
Definition selectUser (fault : option jsstring) (id : jsstring) : M (reply jsstring) := fun s =>
  match fault with
  | Some code => (Return {| data := None; err := Some code |}, s)
  | None =>
      match users s !! id with
      | Some _ => (Return {| data := Some id; err := None |}, s)
      | None => (Return {| data := None; err := Some PGRST116 |}, s)
      end
  end.

(** [from('users').insert(row)]; the reply is its [error]. *)
Definition insertUser (fault : option jsstring) (id : jsstring) (row : user_row)
    : M (option jsstring) := fun s =>
  match fault with
  | Some msg => (Return (Some msg), s)
  | None =>
      match users s !! id with
      | Some _ => (Return (Some (js "duplicate key value violates unique constraint")), s)
      | None => (Return None, with_users (insert id row) s)
      end
  end.

(** [from('problem_submissions').insert(row).select().single()]. *)
Definition insertSubmission (fault : option jsstring) (row : submission)
    : M (reply submission) := fun s =>
  match fault with
  | Some msg => (Return {| data := None; err := Some msg |}, s)
  | None =>
      match problem_submissions s !! sub_id row with
      | Some _ =>
          (Return {| data := None;
                     err := Some (js "duplicate key value violates unique constraint") |}, s)
      | None =>
          (Return {| data := Some row; err := None |},
           with_submissions (<[sub_id row := row]> (problem_submissions s))
             {| we_id := sub_id row; we_old := None; we_new := sub_status row |} s)
      end
  end.

(** [from('problem_submissions').update(patch).eq('id', id)]; the reply is
    its [error].  No matching row is not an error. *)
Definition updateSubmission (fault : option jsstring) (id : jsstring)
    (patch : submission -> submission) : M (option jsstring) := fun s =>
  match fault with
  | Some msg => (Return (Some msg), s)
  | None =>
      match problem_submissions s !! id with
      | Some row =>
          (Return None,
           with_submissions (<[id := patch row]> (problem_submissions s))
             {| we_id := id; we_old := Some (sub_status row);
                we_new := sub_status (patch row) |} s)
      | None => (Return None, s)
      end
  end.

(** [from('problem_submissions').select('*').eq('id', id)[.eq('user_id', owner)].single()]. *)
Definition selectSubmission (id : jsstring) (owner : option jsstring)
    : M (reply submission) := fun s =>
  match problem_submissions s !! id with
  | Some row =>
      if match owner with
         | Some o => bool_decide (sub_user_id row = o)
         | None => true
         end
      then (Return {| data := Some row; err := None |}, s)
      else (Return {| data := None; err := Some PGRST116 |}, s)
  | None => (Return {| data := None; err := Some PGRST116 |}, s)
  end.

(** [from('learning_sessions').select('*').eq('id', id).eq('user_id', owner).single()]. *)
Definition selectSession (fault : option jsstring) (id owner : jsstring)
    : M (reply session_row) := fun s =>
  match fault with
  | Some code => (Return {| data := None; err := Some code |}, s)
  | None =>
      match learning_sessions s !! id with
      | Some row =>
          if bool_decide (ses_user_id row = owner)
          then (Return {| data := Some row; err := None |}, s)
          else (Return {| data := None; err := Some PGRST116 |}, s)
      | None => (Return {| data := None; err := Some PGRST116 |}, s)
      end
  end.

(** [from('learning_sessions').update(patch).eq('id', id).eq('user_id', owner)]. *)
Definition updateSession (fault : option jsstring) (id owner : jsstring)
    (patch : session_row -> session_row) : M (option jsstring) := fun s =>
  match fault with
  | Some msg => (Return (Some msg), s)
  | None =>
      match learning_sessions s !! id with
      | Some row =>
          if bool_decide (ses_user_id row = owner)
          then (Return None, with_sessions (<[id := patch row]> (learning_sessions s)) s)
          else (Return None, s)
      | None => (Return None, s)
      end
  end.

(** [from('audit_logs').insert(row)]; a fault makes the request throw. *)
Definition insertAudit (fault : option jsstring) (row : audit_row) : M unit := fun s =>
  match fault with
  | Some msg => (Throw msg, s)
  | None => (Return tt, with_audit row s)
  end.

End Db.

(** ** The submit-problem edge function *)

Module Handler.

Definition DEFAULT_USER_ID : jsstring := js "12345678-1234-5678-1234-567812345678".

(** The body of a request, as received: every property may be absent. *)
Record ProblemSubmissionRequest := {
  input_type : option jsstring;
  title : option jsstring;
  description : option jsstring;
  text_content : option jsstring;
  image_data : option jsstring;
  voice_url : option jsstring;
  user_id : option jsstring
}.

(** What [fetch] on the provider gives: it throws, or resolves to a response
    with [ok], [status], the body as [text()] and the outcome of [json()],
    reduced to [candidates?.[0]?.content?.parts?.[0]?.text]. *)
Record geminiResponse := {
  ok : bool;
  http_status : Z;
  text : jsstring;
  json : outcome (option jsstring)
}.

Inductive fetch_outcome :=
| FetchThrows (msg : jsstring)
| FetchResolves (r : geminiResponse).

(** Everything one invocation takes from outside: the variables of
    [Deno.env]; the outcome of [req.json()]; the successive values of
    [Math.random() * 16 | 0] and of the clock; the built-in
    [String.prototype.toLowerCase]; for each request to the store, the error
    it comes back with when the store does not serve it ([None]: the store
    serves it); and the outcome of the [fetch] to the provider, whose prompt,
    built from title, description and content, is not modelled. *)
Record env := {
  SUPABASE_URL : option jsstring;
  SUPABASE_SERVICE_ROLE_KEY : option jsstring;
  GOOGLE_API_KEY : option jsstring;
  requestBody : outcome ProblemSubmissionRequest;
  rnd : nat -> Z;
  clock : nat -> Z;
  toLowerCase : jsstring -> jsstring;
  userCheckFault : option jsstring;
  createUserFault : option jsstring;
  insertFault : option jsstring;
  errorUpdateFault : option jsstring;
  gemini : fetch_outcome;
  finalUpdateFault : option jsstring
}.

(** The response: the answer to a preflight, [{ success: true, problemId,
    status: 'completed', solution, subject, difficulty, tags }] with status
    200, or [{ success: false, error, problemId? }] with status 500. *)
Inductive response :=
| Preflight
| Success (problemId : jsstring) (solution subject : jsstring) (diff : difficulty)
    (tags : list jsstring)
| Failure (message : jsstring) (problemId : option jsstring).

Definition success (r : response) : bool :=
  match r with Success _ _ _ _ _ => true | _ => false end.

(** [generateUUID()], drawing from the stream of random values. *)
Definition generateUUID (e : env) : M jsstring := fun s =>
  let (u, k) := Uuid.generateUUID (rnd e) (rndPos s) in
  (Return u, with_rndPos k s).

(** [/^[0-9a-f]{8}-[0-9a-f]{4}-[0-9a-f]{4}-[0-9a-f]{4}-[0-9a-f]{12}$/i] *)
Definition uuidRegex : list Uuid.cclass :=
  replicate 8 Uuid.Hex ++ [Uuid.Dash] ++ replicate 4 Uuid.Hex ++ [Uuid.Dash] ++
  replicate 4 Uuid.Hex ++ [Uuid.Dash] ++ replicate 4 Uuid.Hex ++ [Uuid.Dash] ++
  replicate 12 Uuid.Hex.

Definition isValidUUID (uuid : jsstring) : bool := Uuid.matches uuidRegex uuid.

(** [s.includes(sub)]. *)
Fixpoint startsWith (sub s : jsstring) : bool :=
  match sub, s with
  | [], _ => true
  | c :: sub', d :: s' => (c =? d) && startsWith sub' s'
  | _ :: _, [] => false
  end.

Fixpoint includes (s sub : jsstring) : bool :=
  startsWith sub s || match s with [] => false | _ :: s' => includes s' sub end.

(** [s.split('\n')]. *)
Fixpoint splitLines (s cur : jsstring) : list jsstring :=
  match s with
  | [] => [rev cur]
  | c :: s' => if c =? 10 then rev cur :: splitLines s' [] else splitLines s' (c :: cur)
  end.

(** [line.match(/\b\w+\b/g)]: the maximal runs of word characters. *)
Definition isWord (c : Z) : bool :=
  ((48 <=? c) && (c <=? 57)) || ((97 <=? c) && (c <=? 122)) ||
  ((65 <=? c) && (c <=? 90)) || (c =? 95).

Fixpoint wordRuns (s cur : jsstring) : list jsstring :=
  match s with
  | [] => if truthy cur then [rev cur] else []
  | c :: s' =>
      if isWord c then wordRuns s' (c :: cur)
      else if truthy cur then rev cur :: wordRuns s' [] else wordRuns s' []
  end.

(** The parsing loop over the lines of the solution. *)
Definition parseLine (lower : jsstring -> jsstring)
    (acc : jsstring * difficulty * list jsstring) (line : jsstring)
    : jsstring * difficulty * list jsstring :=
  let '(subject, diff, tags) := acc in
  let lowerLine := lower line in
  let has := includes lowerLine in
  let subject :=
    if has (js "subject") || has (js "area") then
      if has (js "math") then js "Mathematics"
      else if has (js "science") || has (js "physics") || has (js "chemistry")
              || has (js "biology") then js "Science"
      else if has (js "history") then js "History"
      else if has (js "english") || has (js "literature") then js "English"
      else subject
    else subject in
  let diff :=
    if has (js "difficulty") then
      if has (js "easy") then easy else if has (js "hard") then hard else medium
    else diff in
  let tags :=
    if has (js "tags") || has (js "tag") then
      let tagMatches := wordRuns line [] in
      tags ++ drop (length tagMatches - 3) tagMatches
    else tags in
  (subject, diff, tags).

Definition parseSolution (lower : jsstring -> jsstring) (solution : jsstring)
    : jsstring * difficulty * list jsstring :=
  let '(subject, diff, tags) :=
    fold_left (parseLine lower) (splitLines solution []) (js "General", medium, []) in
  (subject, diff, match tags with [] => [js "general"; js "learning"] | _ => tags end).

(** The three updates of the submission row. *)
Definition markError (message : jsstring) (t : Z) (row : submission) : submission :=
  {| sub_id := sub_id row; sub_user_id := sub_user_id row; sub_title := sub_title row;
     sub_input_type := sub_input_type row; sub_text_content := sub_text_content row;
     sub_image_url := sub_image_url row; sub_voice_url := sub_voice_url row;
     sub_status := error;
     sub_solution := sub_solution row; sub_topic := sub_topic row;
     sub_subject := sub_subject row; sub_difficulty := sub_difficulty row;
     sub_tags := sub_tags row;
     sub_error_message := Some message;
     sub_processing_time_ms := sub_processing_time_ms row;
     sub_created_at := sub_created_at row;
     sub_updated_at := t |}.

Definition markCompleted (solution subject : jsstring) (diff : difficulty)
    (tags : list jsstring) (elapsed t : Z) (row : submission) : submission :=
  {| sub_id := sub_id row; sub_user_id := sub_user_id row; sub_title := sub_title row;
     sub_input_type := sub_input_type row; sub_text_content := sub_text_content row;
     sub_image_url := sub_image_url row; sub_voice_url := sub_voice_url row;
     sub_status := completed;
     sub_solution := Some solution; sub_topic := Some subject;
     sub_subject := sub_subject row; sub_difficulty := Some diff;
     sub_tags := Some tags;
     sub_error_message := sub_error_message row;
     sub_processing_time_ms := Some elapsed;
     sub_created_at := sub_created_at row;
     sub_updated_at := t |}.

(** Resolution of [userId]: the default when absent or empty, a fresh id when
    it fails [isValidUUID], else the id supplied. *)
Definition resolveUserId (e : env) (supplied : option jsstring) : M jsstring :=
  if negb (truthy_opt supplied) then mret DEFAULT_USER_ID
  else
    let userId := default [] supplied in
    if negb (isValidUUID userId) then generateUUID e else mret userId.

(** The look-up of the owner in [users]; its failures are logged and ignored. *)
Definition ensureUser (e : env) (userId : jsstring) : M unit :=
  r ← Db.selectUser (userCheckFault e) userId;
  match Db.err r with
  | Some code =>
      if bool_decide (code = Db.PGRST116) then
        t1 ← now (clock e);
        t2 ← now (clock e);
        _ ← Db.insertUser (createUserFault e) userId
              {| usr_email :=
                   if bool_decide (userId = DEFAULT_USER_ID) then js "guest@example.com"
                   else js "user-" ++ userId ++ js "@example.com";
                 usr_is_guest := true |};
        mret tt
      else mret tt
  | None => mret tt
  end.

(** The [try] block of the handler, in three parts.  First the checks of the
    environment and of the request, and the resolution of the owner. *)
Definition validateRequest (req : ProblemSubmissionRequest) : M unit :=
  _ ← throwIf (negb (truthy_opt (input_type req)) || negb (truthy_opt (title req)))
        (js "Missing required fields: input_type and title are required");
  _ ← throwIf (bool_decide (input_type req = Some (js "text"))
                && negb (truthy_opt (text_content req)))
        (js "text_content is required for text input type");
  _ ← throwIf (bool_decide (input_type req = Some (js "image"))
                && negb (truthy_opt (image_data req)))
        (js "image_data is required for image input type");
  throwIf (bool_decide (input_type req = Some (js "voice"))
            && negb (truthy_opt (voice_url req)))
    (js "voice_url is required for voice input type").

(** [createClient(supabaseUrl, supabaseKey, options)] of the supabase-js
    library: the constructor of the client refuses an empty URL and an empty
    key. *)
Definition createClient (supabaseUrl supabaseKey : jsstring) : M unit :=
  _ ← throwIf (negb (truthy supabaseUrl)) (js "supabaseUrl is required.");
  throwIf (negb (truthy supabaseKey)) (js "supabaseKey is required.").

Definition prepare (e : env) : M (ProblemSubmissionRequest * jsstring) :=
  _ ← createClient (default [] (SUPABASE_URL e))
        (default [] (SUPABASE_SERVICE_ROLE_KEY e));
  _ ← throwIf (negb (truthy_opt (SUPABASE_URL e)))
        (js "SUPABASE_URL environment variable is missing");
  _ ← throwIf (negb (truthy_opt (SUPABASE_SERVICE_ROLE_KEY e)))
        (js "SUPABASE_SERVICE_ROLE_KEY environment variable is missing");
  req ← (fun s => (requestBody e, s));
  _ ← validateRequest req;
  userId ← resolveUserId e (user_id req);
  _ ← ensureUser e userId;
  mret (req, userId).

(** Then the creation of the submission record. *)
Definition persist (e : env) (req : ProblemSubmissionRequest) (userId : jsstring)
    : M (jsstring * Db.reply submission) :=
  problemId ← generateUUID e;
  created ← now (clock e);
  updated ← now (clock e);
  ins ← Db.insertSubmission (insertFault e)
          {| sub_id := problemId; sub_user_id := userId;
             sub_title := default [] (title req);
             sub_input_type := default [] (input_type req);
             sub_text_content := or_null (text_content req);
             sub_image_url := or_null (image_data req);
             sub_voice_url := or_null (voice_url req);
             sub_status := processing;
             sub_solution := None; sub_topic := None; sub_subject := None;
             sub_difficulty := None; sub_tags := None; sub_error_message := None;
             sub_processing_time_ms := None;
             sub_created_at := created; sub_updated_at := updated |};
  mret (problemId, ins).

(** Last the call of the provider and the final state of the record. *)
Definition solve (e : env) (problemId : jsstring) (ins : Db.reply submission) : M response :=
  if negb (truthy_opt (GOOGLE_API_KEY e)) then
    t ← now (clock e);
    _ ← Db.updateSubmission (errorUpdateFault e) problemId
          (markError (js "Google API key not configured") t);
    mret (Failure (js "Google API key not configured") (Some problemId))
  else
    match gemini e with
    | FetchThrows message => throw message
    | FetchResolves r =>
        if negb (ok r) then
          t ← now (clock e);
          let message := js "Gemini API error: " ++ toStringRadix 10 (http_status r) in
          _ ← Db.updateSubmission (errorUpdateFault e) problemId (markError message t);
          mret (Failure message (Some problemId))
        else
          match json r with
          | Throw message => throw message
          | Return candidate =>
              let solution := or_else candidate (js "No solution generated") in
              let '(subject, diff, tags) := parseSolution (toLowerCase e) solution in
              t1 ← now (clock e);
              match Db.data ins with
              | None => throw (js "Cannot read properties of null (reading 'created_at')")
              | Some problemData =>
                  t2 ← now (clock e);
                  updateError ← Db.updateSubmission (finalUpdateFault e) problemId
                    (markCompleted solution subject diff tags
                       (t1 - sub_created_at problemData) t2);
                  match updateError with
                  | Some message =>
                      throw (js "Failed to update problem submission: " ++ message)
                  | None => mret (Success problemId solution subject diff tags)
                  end
              end
          end
    end.

Definition body (e : env) : M response :=
  '(req, userId) ← prepare e;
  '(problemId, ins) ← persist e req userId;
  match Db.err ins with
  | Some message => throw (js "Failed to create problem submission: " ++ message)
  | None => solve e problemId ins
  end.

(** The handler: [OPTIONS] is answered at once; anything thrown by the body is
    turned into a failure response by the outer [catch]. *)
Definition serve (method : jsstring) (e : env) : M response :=
  if bool_decide (method = js "OPTIONS") then mret Preflight
  else tryCatch (body e) (fun message => mret (Failure message None)).

End Handler.

(** ** hooks/useProblemSubmission.ts: polling *)

Module Polling.

Record ProblemResult := {
  res_id : jsstring;
  res_status : status;
  res_solution : option jsstring;
  res_explanation : option jsstring;
  res_subject : option jsstring;
  res_difficulty : option difficulty;
  res_tags : option (list jsstring);
  res_errorMessage : option jsstring
}.

(** What [useAuth()] gives. *)
Record auth := { isAuthenticated : bool; userIdOf : option jsstring }.

(** The React state of the hook, the counter of [pollForCompletion], the
    delays passed to [setTimeout] so far and the delay of the pending timer. *)
Record vars := {
  result : option ProblemResult;
  hookError : option jsstring;
  attempts : Z;
  timers : list Z;
  pending : option Z
}.

(** The fate of the status query of one tick: [None] when the store answers
    it, else the reply put in its place or the error thrown. *)
Definition net := nat -> option (outcome (Db.reply submission)).

Definition maxAttempts : Z := 60.

Definition isValidUUID (uuid : jsstring) : bool := Uuid.matches Handler.uuidRegex uuid.

Definition setError (msg : jsstring) (v : vars) : vars :=
  {| result := result v; hookError := Some msg; attempts := attempts v;
     timers := timers v; pending := pending v |}.

Definition setResult (r : ProblemResult) (v : vars) : vars :=
  {| result := Some r; hookError := hookError v; attempts := attempts v;
     timers := timers v; pending := pending v |}.

Definition setAttempts (n : Z) (v : vars) : vars :=
  {| result := result v; hookError := hookError v; attempts := n;
     timers := timers v; pending := pending v |}.

Definition setTimeout (delay : Z) (v : vars) : vars :=
  {| result := result v; hookError := hookError v; attempts := attempts v;
     timers := timers v ++ [delay]; pending := Some delay |}.

(** The timer that started the running tick has fired. *)
Definition fired (v : vars) : vars :=
  {| result := result v; hookError := hookError v; attempts := attempts v;
     timers := timers v; pending := None |}.

Definition query (a : auth) (problemId : jsstring) (fate : option (outcome (Db.reply submission)))
    : M (Db.reply submission) :=
  let owner :=
    if isAuthenticated a && truthy_opt (userIdOf a) && isValidUUID (default [] (userIdOf a))
    then userIdOf a else None in
  match fate with
  | None => Db.selectSubmission problemId owner
  | Some (Return r) => mret r
  | Some (Throw msg) => throw msg
  end.

Definition newResult (data : submission) : ProblemResult :=
  {| res_id := sub_id data;
     res_status := sub_status data;
     res_solution := or_null (sub_solution data);
     res_explanation := or_null (sub_solution data);
     res_subject :=
       match or_null (sub_topic data) with
       | Some t => Some t
       | None => or_null (sub_subject data)
       end;
     res_difficulty := sub_difficulty data;
     res_tags := sub_tags data;
     res_errorMessage := or_null (sub_error_message data) |}.

(** One run of [poll]. *)
Definition poll (a : auth) (problemId : jsstring) (fate : option (outcome (Db.reply submission)))
    (v : vars) : M vars :=
  tryCatch
    (_ ← throwIf (negb (isValidUUID problemId)) (js "Invalid problem ID format for polling");
     r ← query a problemId fate;
     match Db.err r with
     | Some _ => mret (setError (js "Failed to check problem status") v)
     | None =>
         match Db.data r with
         | None => mret (setError (js "Problem not found") v)
         | Some data =>
             let v := setResult (newResult data) v in
             if terminal (sub_status data) then
               match sub_status data with
               | error =>
                   mret (setError (or_else (sub_error_message data)
                                     (js "Problem processing failed")) v)
               | _ => mret v
               end
             else
               let v := setAttempts (attempts v + 1) v in
               if attempts v <? maxAttempts then mret (setTimeout 2000 v)
               else mret (setError (js "Problem processing timed out") v)
         end
     end)
    (fun _ => mret (setError (js "Failed to check problem status") v)).

(** The timer loop: while a timer is pending it fires and [poll] runs.  The
    result is [None] when [fuel] ticks were not enough to come to rest. *)
Fixpoint ticks (fuel : nat) (a : auth) (problemId : jsstring) (n : net) (k : nat)
    (v : vars) : M (option (vars * nat)) :=
  match pending v with
  | None => mret (Some (v, k))
  | Some _ =>
      match fuel with
      | O => mret None
      | S fuel' =>
          v' ← poll a problemId (n k) (fired v);
          ticks fuel' a problemId n (S k) v'
      end
  end.

(** [pollForCompletion(problemId)], from the hook state [(res, err)], followed
    by the ticks it schedules; the result carries the number of ticks run. *)
Definition pollForCompletion (fuel : nat) (a : auth) (problemId : jsstring) (n : net)
    (res : option ProblemResult) (err : option jsstring) : M (option (vars * nat)) :=
  ticks fuel a problemId n 0%nat
    (setTimeout 1000
       {| result := res; hookError := err; attempts := 0; timers := []; pending := None |}).

End Polling.

(** ** The secure-session hook *)

Module Session.

Record SecureSession := {
  id : jsstring;
  userId : jsstring;
  startTime : Z;
  isActive : bool;
  metadata : gmap (list Z) (list Z)
}.

(** The state of the hook: [session], [error] and the id of [user]. *)
Record hook := {
  session : option SecureSession;
  hookError : option jsstring;
  user : option jsstring
}.

Record env := {
  clock : nat -> Z;
  selectFault : option jsstring;
  updateFault : option jsstring;
  auditFault : option jsstring
}.

Definition setSession (o : option SecureSession) (h : hook) : hook :=
  {| session := o; hookError := hookError h; user := user h |}.

Definition setError (o : option jsstring) (h : hook) : hook :=
  {| session := session h; hookError := o; user := user h |}.

(** [securityManager.logSecurityEvent]: a failure of the write is caught and
    logged, never rethrown. *)
Definition logSecurityEvent (e : env) (userId : option jsstring)
    (action resourceType : jsstring) (resourceId : option jsstring) : M unit :=
  tryCatch
    (t ← now (clock e);
     Db.insertAudit (auditFault e)
       {| aud_user_id := userId; aud_action := action;
          aud_resource_type := resourceType; aud_resource_id := resourceId;
          aud_created_at := t |})
    (fun _ => mret tt).

Definition endPatch (t : Z) (md : gmap (list Z) (list Z)) (row : session_row) : session_row :=
  {| ses_user_id := ses_user_id row;
     ses_session_start := ses_session_start row;
     ses_session_end := Some t;
     ses_session_metadata := md |}.

(** [endSession(sessionId?)].  What is thrown in it is the [updateError] of
    the store, which is not an [Error]: the message shown is the fixed one. *)
Definition endSession (e : env) (sessionId : option jsstring) (h : hook) : M (bool * hook) :=
  let targetSessionId := or_null (match or_null sessionId with
                                  | Some i => Some i
                                  | None => id <$> session h
                                  end) in
  match targetSessionId, or_null (user h) with
  | Some target, Some uid =>
      tryCatch
        (let h1 := setError None h in
         t ← now (clock e);
         let md := <[js "end_reason" := js "manual"]>
                     (<[js "ended_by" := js "user"]>
                        (default ∅ (metadata <$> session h))) in
         updateError ← Db.updateSession (updateFault e) target uid (endPatch t md);
         match updateError with
         | Some message => throw message
         | None =>
             _ ← logSecurityEvent e (Some uid) (js "session_ended")
                   (js "learning_session") (Some target);
             mret (true, setSession None h1)
         end)
        (fun _ => mret (false, setError (Some (js "Failed to end session")) h))
  | _, _ => mret (false, h)
  end.

(** [validateSessionSecurity()].  Times are in milliseconds;
    [(now - start) / (1000 * 60 * 60) > 1] is [now - start > 3600000]. *)
Definition validateSessionSecurity (e : env) (h : hook) : M (bool * hook) :=
  match or_null (id <$> session h), or_null (user h) with
  | Some sid, Some uid =>
      tryCatch
        (r ← Db.selectSession (selectFault e) sid uid;
         match Db.err r, Db.data r with
         | None, Some sessionData =>
             let sessionStart := ses_session_start sessionData in
             t ← now (clock e);
             if t - sessionStart >? 1000 * 60 * 60 then
               '(_, h') ← endSession e (Some sid) h;
               mret (false, h')
             else mret (true, h)
         | _, _ => mret (false, setSession None h)
         end)
        (fun _ => mret (false, h))
  | _, _ => mret (false, h)
  end.

End Session.

(** ** lib/security.ts: permissions and the creation of sessions *)

Module Security.

(** What becomes of a request that the store does not serve: it is answered
    with an error, or the call is rejected. *)
Inductive fault := Refuses (code : jsstring) | Rejects (msg : jsstring).

Definition orServe {A} (f : option fault) (serve : M (Db.reply A)) : M (Db.reply A) :=
  match f with
  | Some (Refuses code) => mret {| Db.data := None; Db.err := Some code |}
  | Some (Rejects msg) => throw msg
  | None => serve
  end.

(** What a call takes from outside: the environment of the session hook
    (clock and faults of the audit log), the random values from which the
    store draws the ids it gives to new rows ([DEFAULT gen_random_uuid()]),
    and the faults of the two requests. *)
Record env := {
  base : Session.env;
  rnd : nat -> Z;
  userFault : option fault;
  insertFault : option fault
}.

(** [from('users').select('id, is_guest').eq('id', userId).single()]. *)
Definition selectUser (e : env) (userId : jsstring) : M (Db.reply user_row) :=
  orServe (userFault e) (fun s =>
    match users s !! userId with
    | Some row => (Return {| Db.data := Some row; Db.err := None |}, s)
    | None => (Return {| Db.data := None; Db.err := Some Db.PGRST116 |}, s)
    end).

Definition allowedGuestActions : list jsstring := [js "read_public"; js "submit_problem"].

(** [validateUserPermission(userId, action, resourceId?)]; the third argument
    is not used. *)
Definition validateUserPermission (e : env) (userId action : jsstring) : M bool :=
  if negb (Uuid.isValidUUID userId) then mret false
  else
    tryCatch
      (r ← selectUser e userId;
       match Db.err r, Db.data r with
       | None, Some user =>
           if usr_is_guest user then mret (bool_decide (action ∈ allowedGuestActions))
           else mret true
       | _, _ => mret false
       end)
      (fun _ => mret false).

(** [from('learning_sessions').insert(row).select('id').single()]: the store
    gives the row its id. *)
Definition insertSession (e : env) (row : session_row) : M (Db.reply jsstring) :=
  orServe (insertFault e) (fun s =>
    let (newId, k) := Uuid.generateUUID (rnd e) (rndPos s) in
    let s := with_rndPos k s in
    match learning_sessions s !! newId with
    | Some _ =>
        (Return {| Db.data := None;
                   Db.err := Some (js "duplicate key value violates unique constraint") |}, s)
    | None =>
        (Return {| Db.data := Some newId; Db.err := None |},
         with_sessions (<[newId := row]> (learning_sessions s)) s)
    end).

(** [createSecureSession(userId)]. *)
Definition createSecureSession (e : env) (userId : jsstring) : M (option jsstring) :=
  if negb (Uuid.isValidUUID userId) then mret None
  else
    tryCatch
      (t ← now (Session.clock (base e));
       r ← insertSession e
             {| ses_user_id := userId;
                ses_session_start := t;
                ses_session_end := None;
                ses_session_metadata :=
                  <[js "created_by" := js "app"]>
                    {[ js "security_level" := js "standard" ]} |};
       match Db.err r with
       | Some _ => mret None
       | None =>
           match Db.data r with
           | Some id => mret (Some id)
           | None => throw (js "Cannot read properties of null (reading 'id')")
           end
       end)
      (fun _ => mret None).

End Security.

(** ** The secure-session hook: the creation of a session *)

Module SessionStart.

(** The state of the hook with [isLoading]. *)
Record hook := { core : Session.hook; isLoading : bool }.

Record env := {
  security : Security.env;
  fetchFault : option Security.fault
}.

Definition setIsLoading (b : bool) (h : hook) : hook :=
  {| core := core h; isLoading := b |}.

Definition setError (o : option jsstring) (h : hook) : hook :=
  {| core := Session.setError o (core h); isLoading := isLoading h |}.

Definition setSession (o : option Session.SecureSession) (h : hook) : hook :=
  {| core := Session.setSession o (core h); isLoading := isLoading h |}.

(** [from('learning_sessions').select('*').eq('id', sessionId).single()]. *)
Definition selectSession (e : env) (sessionId : jsstring) : M (Db.reply session_row) :=
  Security.orServe (fetchFault e) (fun s =>
    match learning_sessions s !! sessionId with
    | Some row => (Return {| Db.data := Some row; Db.err := None |}, s)
    | None => (Return {| Db.data := None; Db.err := Some Db.PGRST116 |}, s)
    end).

(** [createSession()].  [sessionData.id] is [sessionId], the id the row was
    selected by.  The field [securityLevel] of the session, the entry
    [security_level] of its metadata or ['standard'], is read from
    [metadata].  What is thrown is an [Error], so that the error shown is its
    message. *)
Definition createSession (e : env) (h : hook) : M (option jsstring * hook) :=
  match or_null (Session.user (core h)) with
  | None => mret (None, setError (Some (js "User not authenticated")) h)
  | Some uid =>
      let h := setError None (setIsLoading true h) in
      '(r, h) ←
        tryCatch
          (sessionId ← Security.createSecureSession (security e) uid;
           match or_null sessionId with
           | None => throw (js "Failed to create secure session")
           | Some sessionId =>
               r ← selectSession e sessionId;
               match Db.err r, Db.data r with
               | None, Some sessionData =>
                   let secureSession :=
                     {| Session.id := sessionId;
                        Session.userId := ses_user_id sessionData;
                        Session.startTime := ses_session_start sessionData;
                        Session.isActive :=
                          match ses_session_end sessionData with
                          | None => true
                          | Some _ => false
                          end;
                        Session.metadata := ses_session_metadata sessionData |} in
                   let h := setSession (Some secureSession) h in
                   _ ← Session.logSecurityEvent (Security.base (security e)) (Some uid)
                         (js "session_created") (js "learning_session") (Some sessionId);
                   mret (Some sessionId, h)
               | _, _ => throw (js "Failed to fetch session data")
               end
           end)
          (fun message => mret (None, setError (Some message) h));
      mret (r, setIsLoading false h)
  end.

End SessionStart.

(** ** hooks/useProblemSubmission.ts: the submission *)

Module Submit.

(** [String.prototype.trim]: white space and line terminators are removed at
    both ends. *)
Definition isWhiteSpace (c : Z) : bool :=
  ((9 <=? c) && (c <=? 13)) || (c =? 32) || (c =? 160) || (c =? 5760) ||
  ((8192 <=? c) && (c <=? 8202)) || (c =? 8232) || (c =? 8233) || (c =? 8239) ||
  (c =? 8287) || (c =? 12288) || (c =? 65279).

Fixpoint trimStart (s : jsstring) : jsstring :=
  match s with
  | c :: s' => if isWhiteSpace c then trimStart s' else s
  | [] => []
  end.

Definition trim (s : jsstring) : jsstring := rev (trimStart (rev (trimStart s))).

Record ProblemSubmissionData := {
  title : jsstring;
  inputType : jsstring;
  textContent : option jsstring;
  imageData : option jsstring;
  voiceUrl : option jsstring;
  description : option jsstring
}.

(** The options of [supabase.functions.invoke]: the body, which is what the
    edge function receives, and the header [Authorization] when there is
    one. *)
Record invokeOptions := {
  body : Handler.ProblemSubmissionRequest;
  headers : option jsstring
}.

(** The error of an invocation, and the body of an answer. *)
Record FunctionsError := { name : jsstring; message : jsstring }.

Record Response := {
  rsp_success : bool;
  rsp_error : option jsstring;
  rsp_problemId : option jsstring;
  rsp_status : option status;
  rsp_solution : option jsstring;
  rsp_subject : option jsstring;
  rsp_difficulty : option difficulty;
  rsp_tags : option (list jsstring)
}.

(** The result [{ data, error }] of an invocation. *)
Record invokeReply := { reply_data : option Response; reply_error : option FunctionsError }.

(** What a submission takes from outside: the access token of the session
    [supabase.auth.getSession()] resolves to, the token of [useAuth()], and
    the outcome of the invocation. *)
Record env := {
  getSession : outcome (option jsstring);
  token : option jsstring;
  invoke : invokeOptions -> outcome invokeReply
}.

(** The state of the hook, the invocations made and the calls of
    [pollForCompletion]. *)
Record hook := {
  isSubmitting : bool;
  result : option Polling.ProblemResult;
  hookError : option jsstring;
  sent : list invokeOptions;
  polled : list jsstring
}.

Definition setIsSubmitting (b : bool) (h : hook) : hook :=
  {| isSubmitting := b; result := result h; hookError := hookError h;
     sent := sent h; polled := polled h |}.

Definition setResult (r : option Polling.ProblemResult) (h : hook) : hook :=
  {| isSubmitting := isSubmitting h; result := r; hookError := hookError h;
     sent := sent h; polled := polled h |}.

Definition setError (o : option jsstring) (h : hook) : hook :=
  {| isSubmitting := isSubmitting h; result := result h; hookError := o;
     sent := sent h; polled := polled h |}.

Definition invoked (o : invokeOptions) (h : hook) : hook :=
  {| isSubmitting := isSubmitting h; result := result h; hookError := hookError h;
     sent := sent h ++ [o]; polled := polled h |}.

Definition pollForCompletion (problemId : jsstring) (h : hook) : hook :=
  {| isSubmitting := isSubmitting h; result := result h; hookError := hookError h;
     sent := sent h; polled := polled h ++ [problemId] |}.

(** [submitProblem(data)].  What [getSession] and [invoke] throw is an
    [Error], so that the error shown is its message.  The status of an
    answer is one of the four of [ProblemResult]. *)
Definition submitProblem (e : env) (data : ProblemSubmissionData) (h : hook)
    : option jsstring * hook :=
  let h := setIsSubmitting true (setResult None (setError None h)) in
  if negb (truthy (trim (title data))) then
    (None, setIsSubmitting false (setError (Some (js "Problem title is required")) h))
  else if negb (truthy_opt (trim <$> textContent data)) &&
          negb (truthy_opt (imageData data)) && negb (truthy_opt (voiceUrl data)) then
    (None, setIsSubmitting false (setError (Some (js "Problem content is required")) h))
  else
    let '(o, h) :=
      let requestBody :=
        {| Handler.input_type := Some (inputType data);
           Handler.title := Some (trim (title data));
           Handler.description := trim <$> description data;
           Handler.text_content := trim <$> textContent data;
           Handler.image_data := imageData data;
           Handler.voice_url := voiceUrl data;
           Handler.user_id := None |} in
      match getSession e with
      | Throw msg => (Throw msg, h)
      | Return access_token =>
          let headers :=
            if truthy_opt access_token then Some (js "Bearer " ++ default [] access_token)
            else if truthy_opt (token e) then Some (js "Bearer " ++ default [] (token e))
            else None in
          let invokeOptions := {| body := requestBody; headers := headers |} in
          let h := invoked invokeOptions h in
          match invoke e invokeOptions with
          | Throw msg => (Throw msg, h)
          | Return reply =>
              match reply_error reply with
              | Some submitError =>
                  let errorMessage :=
                    if bool_decide (name submitError = js "FunctionsHttpError") then
                      js "AI service is temporarily unavailable. Please try again later."
                    else if truthy (message submitError) then message submitError
                    else js "Failed to submit problem to AI service" in
                  (Throw errorMessage, h)
              | None =>
                  match reply_data reply with
                  | None => (Throw (js "No response received from AI service"), h)
                  | Some response =>
                      if negb (rsp_success response) then
                        (Throw (or_else (rsp_error response) (js "AI processing failed")), h)
                      else if negb (truthy_opt (rsp_problemId response)) ||
                              negb (Polling.isValidUUID (default [] (rsp_problemId response)))
                      then (Throw (js "Invalid response from AI service"), h)
                      else
                        let problemId := default [] (rsp_problemId response) in
                        let initialResult :=
                          {| Polling.res_id := problemId;
                             Polling.res_status := default completed (rsp_status response);
                             Polling.res_solution := rsp_solution response;
                             Polling.res_explanation := None;
                             Polling.res_subject := rsp_subject response;
                             Polling.res_difficulty := rsp_difficulty response;
                             Polling.res_tags := rsp_tags response;
                             Polling.res_errorMessage := None |} in
                        let h := setResult (Some initialResult) h in
                        let h :=
                          match rsp_status response with
                          | Some processing | Some pending => pollForCompletion problemId h
                          | _ => h
                          end in
                        (Return problemId, h)
                  end
              end
          end
      end in
    let '(r, h) :=
      match o with
      | Return problemId => (Some problemId, h)
      | Throw msg => (None, setError (Some msg) h)
      end in
    (r, setIsSubmitting false h).

End Submit.

(** * Vocabulary of the statements *)

(** Strings of hexadecimal digits. *)
Definition allHex (s : jsstring) : Prop := Forall (fun c => Uuid.isHex c = true) s.

(** The draws [Math.random() * 16 | 0] are integers from 0 to 15. *)
Definition nibbles (rnd : nat -> Z) : Prop := forall i, 0 <= rnd i < 16.

(** The class of the characters a template character is replaced by. *)
Definition classOf (c : Z) : Uuid.cclass :=
  if c =? 120 then Uuid.Hex
  else if c =? 121 then Uuid.Variant
  else if c =? 52 then Uuid.Four
  else Uuid.Dash.

(** A class [k] is below [k'] when every character of [k] is one of [k']. *)
Definition below (k k' : Uuid.cclass) : Prop :=
  forall c, Uuid.inClass k c = true -> Uuid.inClass k' c = true.

(** Two states with the same submissions and the same log of writes. *)
Definition frame (s s' : state) : Prop :=
  problem_submissions s' = problem_submissions s /\ writes s' = writes s.

Definition frames {A} (m : M A) : Prop := forall s, frame s (m s).2.

(** Code that never throws. *)
Definition returns {A} (m : M A) : Prop := forall s, exists a, (m s).1 = Return a.

(** A property missing from a request: absent or empty. *)
Definition missing (o : option jsstring) : bool := negb (truthy_opt o).

(** The requests the validation is meant to reject. *)
Definition rejected (req : Handler.ProblemSubmissionRequest) : Prop :=
  missing (Handler.input_type req) = true \/ missing (Handler.title req) = true \/
  (Handler.input_type req = Some (js "text") /\ missing (Handler.text_content req) = true) \/
  (Handler.input_type req = Some (js "image") /\ missing (Handler.image_data req) = true) \/
  (Handler.input_type req = Some (js "voice") /\ missing (Handler.voice_url req) = true).

(** The environment variables of the store are set. *)
Definition configured (e : Handler.env) : Prop :=
  truthy_opt (Handler.SUPABASE_URL e) = true /\
  truthy_opt (Handler.SUPABASE_SERVICE_ROLE_KEY e) = true.

(** One step of a status: it stays, or it leaves [pending]/[processing] for
    [completed]/[error]. *)
Definition forward (a b : status) : Prop :=
  a = b \/ (terminal a = false /\ terminal b = true).

(** The writes the order of statuses allows: a creation at [processing], or a
    move from [processing] to a terminal status. *)
Definition forward_event (ev : write_event) : Prop :=
  (we_old ev = None /\ we_new ev = processing) \/
  (we_old ev = Some processing /\ terminal (we_new ev) = true).

(** What one run of [Handler.body] does to the submissions: nothing, or it
    creates the record [problemId] for the owner resolved from the request and
    leaves it as [row], at [processing] or, after one more write, at a
    terminal status. *)
Inductive effect (e : Handler.env) (s s' : state) : Prop :=
| effect_none : frame s s' -> effect e s s'
| effect_record (req : Handler.ProblemSubmissionRequest) (userId problemId : jsstring)
    (sr : state) (row : submission) (evs : list write_event) :
    Handler.requestBody e = Return req ->
    Handler.resolveUserId e (Handler.user_id req) s = (Return userId, sr) ->
    problem_submissions s !! problemId = None ->
    sub_id row = problemId -> sub_user_id row = userId ->
    problem_submissions s' = <[problemId := row]> (problem_submissions s) ->
    writes s' = writes s ++ {| we_id := problemId; we_old := None; we_new := processing |} :: evs ->
    (sub_status row = processing /\ evs = [] \/
     terminal (sub_status row) = true /\
     evs = [{| we_id := problemId; we_old := Some processing; we_new := sub_status row |}]) ->
    effect e s s'.

(** The ids the random source can still produce are not in the store. *)
Definition idsUnused (e : Handler.env) (s : state) : Prop :=
  forall k, problem_submissions s !! (Uuid.generateUUID (Handler.rnd e) k).1 = None.

(** A sequence of requests served one after the other. *)
Fixpoint serveAll (reqs : list (jsstring * Handler.env)) (s : state) : state :=
  match reqs with
  | [] => s
  | (method, e) :: reqs' => serveAll reqs' (Handler.serve method e s).2
  end.

(** Sample data: an empty store, a request of each kind and an environment in
    which every external call succeeds. *)
Definition emptyState : state :=
  {| users := ∅; problem_submissions := ∅; learning_sessions := ∅;
     audit_logs := []; writes := []; rndPos := 0; clockPos := 0 |}.

Definition textRequest (owner : option jsstring) : Handler.ProblemSubmissionRequest :=
  {| Handler.input_type := Some (js "text"); Handler.title := Some (js "T");
     Handler.description := None; Handler.text_content := Some (js "2+2?");
     Handler.image_data := None; Handler.voice_url := None; Handler.user_id := owner |}.

Definition imageRequestWithoutData : Handler.ProblemSubmissionRequest :=
  {| Handler.input_type := Some (js "image"); Handler.title := Some (js "T");
     Handler.description := None; Handler.text_content := None;
     Handler.image_data := None; Handler.voice_url := None; Handler.user_id := None |}.

Definition sampleEnv (req : Handler.ProblemSubmissionRequest) (provider : Handler.fetch_outcome)
    : Handler.env :=
  {| Handler.SUPABASE_URL := Some (js "https://project.supabase.co");
     Handler.SUPABASE_SERVICE_ROLE_KEY := Some (js "service-role-key");
     Handler.GOOGLE_API_KEY := Some (js "api-key");
     Handler.requestBody := Return req;
     Handler.rnd := fun n => Z.of_nat n mod 16;
     Handler.clock := fun n => 1000 * Z.of_nat n;
     Handler.toLowerCase := fun s => s;
     Handler.userCheckFault := None;
     Handler.createUserFault := None;
     Handler.insertFault := None;
     Handler.errorUpdateFault := None;
     Handler.gemini := provider;
     Handler.finalUpdateFault := None |}.

Definition providerAnswer : Handler.fetch_outcome :=
  Handler.FetchResolves
    {| Handler.ok := true; Handler.http_status := 200; Handler.text := [];
       Handler.json := Return (Some (js "4")) |}.

(** The id the sample random source gives to the first record. *)
Definition firstId : jsstring := js "01234567-89ab-4cde-b012-3456789abcde".

(** The record of the first sample request, as created and once completed. *)
Definition createdRow (owner : jsstring) : submission :=
  {| sub_id := firstId; sub_user_id := owner;
     sub_title := js "T"; sub_input_type := js "text";
     sub_text_content := Some (js "2+2?");
     sub_image_url := None; sub_voice_url := None;
     sub_status := processing;
     sub_solution := None; sub_topic := None; sub_subject := None;
     sub_difficulty := None; sub_tags := None; sub_error_message := None;
     sub_processing_time_ms := None;
     sub_created_at := 2000; sub_updated_at := 3000 |}.

Definition completedRow (owner : jsstring) : submission :=
  Handler.markCompleted (js "4") (js "General") medium [js "general"; js "learning"]
    2000 5000 (createdRow owner).

(** An environment in which the final update of the record fails. *)
Definition failingUpdateEnv (req : Handler.ProblemSubmissionRequest) : Handler.env :=
  {| Handler.SUPABASE_URL := Some (js "https://project.supabase.co");
     Handler.SUPABASE_SERVICE_ROLE_KEY := Some (js "service-role-key");
     Handler.GOOGLE_API_KEY := Some (js "api-key");
     Handler.requestBody := Return req;
     Handler.rnd := fun n => Z.of_nat n mod 16;
     Handler.clock := fun n => 1000 * Z.of_nat n;
     Handler.toLowerCase := fun s => s;
     Handler.userCheckFault := None;
     Handler.createUserFault := None;
     Handler.insertFault := None;
     Handler.errorUpdateFault := None;
     Handler.gemini := providerAnswer;
     Handler.finalUpdateFault := Some (js "connection reset") |}.

(** The state left by a request whose call of the provider threw. *)
Definition stuckState : state :=
  (Handler.serve (js "POST")
     (sampleEnv (textRequest None) (Handler.FetchThrows (js "network error")))
     emptyState).2.

(** The owner filter of the status query lets the record through. *)
Definition visibleTo (a : Polling.auth) (row : submission) : Prop :=
  Polling.isAuthenticated a && truthy_opt (Polling.userIdOf a)
    && Polling.isValidUUID (default [] (Polling.userIdOf a)) = true ->
  Polling.userIdOf a = Some (sub_user_id row).

(** The status query of a tick fails: it throws, or its reply has an error. *)
Definition queryFails (a : Polling.auth) (problemId : jsstring)
    (fate : option (outcome (Db.reply submission))) (s : state) : Prop :=
  match (Polling.query a problemId fate s).1 with
  | Throw _ => True
  | Return r => Db.err r <> None
  end.

(** The messages the edge function stores in [error_message]. *)
Definition handlerMessage (m : jsstring) : Prop :=
  m = js "Google API key not configured" \/
  exists digits, m = js "Gemini API error: " ++ digits.

Definition guest : Polling.auth :=
  {| Polling.isAuthenticated := false; Polling.userIdOf := None |}.

(** Sample data for sessions. *)
Definition sampleSession : Session.SecureSession :=
  {| Session.id := js "s1"; Session.userId := js "u1"; Session.startTime := 0;
     Session.isActive := true; Session.metadata := ∅ |}.

Definition sampleHook : Session.hook :=
  {| Session.session := Some sampleSession; Session.hookError := None;
     Session.user := Some (js "u1") |}.

Definition sessionState (t : nat) : state :=
  {| users := ∅; problem_submissions := ∅;
     learning_sessions :=
       {[ js "s1" := {| ses_user_id := js "u1"; ses_session_start := 0;
                        ses_session_end := None; ses_session_metadata := ∅ |} ]};
     audit_logs := []; writes := []; rndPos := 0; clockPos := t |}.

(** A clock that reads one more minute at each reading. *)
Definition sessionEnv : Session.env :=
  {| Session.clock := fun n => 60000 * Z.of_nat n;
     Session.selectFault := None; Session.updateFault := None;
     Session.auditFault := None |}.

(** A store that refuses the update of a session. *)
Definition refusingEnv : Session.env :=
  {| Session.clock := fun n => 60000 * Z.of_nat n;
     Session.selectFault := None;
     Session.updateFault := Some (js "connection reset");
     Session.auditFault := None |}.

(** The [w] hexadecimal digits of [n], most significant first. *)
Fixpoint fixedHex (w : nat) (n : Z) : jsstring :=
  match w with
  | O => []
  | S w' => fixedHex w' (n / 16) ++ [digitChar (n mod 16)]
  end.

(** The number of [x] and [y] in a template. *)
Fixpoint holes (t : jsstring) : nat :=
  match t with
  | [] => 0
  | c :: t' => ((if ((c =? 120) || (c =? 121))%Z then 1 else 0) + holes t')%nat
  end.

(** Calls of the rate limiter for several identifiers, in the order made. *)
Fixpoint callsMixed (config : RateLimit.SecurityConfig) (l : list (jsstring * Z))
    (cache : gmap (list Z) RateLimit.bucket) : list bool * gmap (list Z) RateLimit.bucket :=
  match l with
  | [] => ([], cache)
  | (identifier, now) :: l' =>
      let (r, cache') := RateLimit.checkRateLimit config now identifier cache in
      let (rs, cache'') := callsMixed config l' cache' in
      (r :: rs, cache'')
  end.

(** The answers a sequence of calls gives to one identifier, and the times
    of its calls. *)
Fixpoint answersTo (identifier : jsstring) (l : list (jsstring * Z)) (rs : list bool)
    : list bool :=
  match l, rs with
  | (k, _) :: l', r :: rs' =>
      if bool_decide (k = identifier) then r :: answersTo identifier l' rs'
      else answersTo identifier l' rs'
  | _, _ => []
  end.

Fixpoint timesOf (identifier : jsstring) (l : list (jsstring * Z)) : list Z :=
  match l with
  | [] => []
  | (k, t) :: l' =>
      if bool_decide (k = identifier) then t :: timesOf identifier l'
      else timesOf identifier l'
  end.

(** Every entry of the cache counts at least 1 and at most the limit (at
    most 1 when the limit is below 1). *)
Definition countsBounded (config : RateLimit.SecurityConfig)
    (cache : gmap (list Z) RateLimit.bucket) : Prop :=
  forall k b, cache !! k = Some b ->
    1 <= RateLimit.count b <= Z.max 1 (RateLimit.maxRequestsPerMinute config).

(** The names [parseSolution] gives to subjects, and its default tags. *)
Definition canonicalSubjects : list jsstring :=
  [js "General"; js "Mathematics"; js "Science"; js "History"; js "English"].

Definition defaultTags : list jsstring := [js "general"; js "learning"].

(** Code that leaves the table [users] as it is. *)
Definition keepsUsers {A} (m : M A) : Prop := forall s, users (m s).2 = users s.

(** The row the edge function creates for an owner it does not find. *)
Definition guestRow (userId : jsstring) : user_row :=
  {| usr_email :=
       if bool_decide (userId = Handler.DEFAULT_USER_ID) then js "guest@example.com"
       else js "user-" ++ userId ++ js "@example.com";
     usr_is_guest := true |}.

(** An environment without the variables of the store. *)
Definition unconfiguredEnv : Handler.env :=
  {| Handler.SUPABASE_URL := None;
     Handler.SUPABASE_SERVICE_ROLE_KEY := None;
     Handler.GOOGLE_API_KEY := None;
     Handler.requestBody := Return (textRequest None);
     Handler.rnd := fun n => Z.of_nat n mod 16;
     Handler.clock := fun n => 1000 * Z.of_nat n;
     Handler.toLowerCase := fun s => s;
     Handler.userCheckFault := None;
     Handler.createUserFault := None;
     Handler.insertFault := None;
     Handler.errorUpdateFault := None;
     Handler.gemini := providerAnswer;
     Handler.finalUpdateFault := None |}.

(** The caller is signed in with an id of the right format: the status query
    is filtered by owner. *)
Definition filtersBy (a : Polling.auth) (uid : jsstring) : Prop :=
  Polling.isAuthenticated a = true /\ Polling.userIdOf a = Some uid /\
  Polling.isValidUUID uid = true.

(** A signed-in caller who owns no record. *)
Definition strangerId : jsstring := js "aaaaaaaa-aaaa-4aaa-8aaa-aaaaaaaaaaaa".

Definition stranger : Polling.auth :=
  {| Polling.isAuthenticated := true; Polling.userIdOf := Some strangerId |}.

(** Two states with the same tables other than [learning_sessions] and
    [audit_logs]. *)
Definition sameOutsideSessions (s s' : state) : Prop :=
  users s' = users s /\ problem_submissions s' = problem_submissions s /\
  writes s' = writes s.

(** The sessions of [s'] are those of [s], except that rows of [owner] may
    have been given an end and other metadata. *)
Definition sessionsOf (owner : option jsstring) (s s' : state) : Prop :=
  forall k,
    match learning_sessions s !! k, learning_sessions s' !! k with
    | None, None => True
    | Some row, Some row' =>
        ses_user_id row' = ses_user_id row /\
        ses_session_start row' = ses_session_start row /\
        (owner <> Some (ses_user_id row) -> row' = row)
    | _, _ => False
    end.



(** The row [createSecureSession] asks the store to insert. *)
Definition newSession (userId : jsstring) (t : Z) : session_row :=
  {| ses_user_id := userId;
     ses_session_start := t;
     ses_session_end := None;
     ses_session_metadata :=
       <[js "created_by" := js "app"]> {[ js "security_level" := js "standard" ]} |}.

(** Sample data for the creation of sessions: a store that serves every
    request, and a signed-in user with an id of version 4. *)
Definition securityEnv : Security.env :=
  {| Security.base := sessionEnv;
     Security.rnd := fun n => Z.of_nat n mod 16;
     Security.userFault := None;
     Security.insertFault := None |}.


Definition hookOf (uid : option jsstring) : SessionStart.hook :=
  {| SessionStart.core :=
       {| Session.session := None; Session.hookError := None; Session.user := uid |};
     SessionStart.isLoading := true |}.

(** Sample data for submissions. *)
Definition sampleData : Submit.ProblemSubmissionData :=
  {| Submit.title := js "  T ";
     Submit.inputType := js "text";
     Submit.textContent := Some (js "2+2? ");
     Submit.imageData := None;
     Submit.voiceUrl := None;
     Submit.description := None |}.

Definition blankData : Submit.ProblemSubmissionData :=
  {| Submit.title := js "   ";
     Submit.inputType := js "text";
     Submit.textContent := Some (js "2+2?");
     Submit.imageData := None;
     Submit.voiceUrl := None;
     Submit.description := None |}.

Definition processingResponse : Submit.Response :=
  {| Submit.rsp_success := true; Submit.rsp_error := None;
     Submit.rsp_problemId := Some firstId; Submit.rsp_status := Some processing;
     Submit.rsp_solution := None; Submit.rsp_subject := None;
     Submit.rsp_difficulty := None; Submit.rsp_tags := None |}.

Definition submitEnv (r : Submit.Response) : Submit.env :=
  {| Submit.getSession := Return None;
     Submit.token := Some (js "mock-token");
     Submit.invoke := fun _ =>
       Return {| Submit.reply_data := Some r; Submit.reply_error := None |} |}.

Definition idleHook : Submit.hook :=
  {| Submit.isSubmitting := false; Submit.result := None; Submit.hookError := None;
     Submit.sent := []; Submit.polled := [] |}.

(** The request has some content. *)
Definition hasContent (req : Handler.ProblemSubmissionRequest) : Prop :=
  truthy_opt (Handler.text_content req) = true \/
  truthy_opt (Handler.image_data req) = true \/
  truthy_opt (Handler.voice_url req) = true.

(** * Facts about numbers and digits *)

Lemma toInt32_small (z : Z) : - 2 ^ 31 <= z < 2 ^ 31 -> toInt32 z = z.
Proof.
  intros Hz. unfold toInt32.
  rewrite Z.mod_small; lia.
Qed.

Lemma toInt32_range (z : Z) : - 2 ^ 31 <= toInt32 z < 2 ^ 31.
Proof.
  unfold toInt32.
  pose proof (Z.mod_pos_bound (z + 2 ^ 31) (2 ^ 32) ltac:(lia)). lia.
Qed.

Lemma digitChar_hex (d : Z) : 0 <= d < 16 -> Uuid.isHex (digitChar d) = true.
Proof.
  intros Hd. unfold Uuid.isHex, digitChar.
  destruct (Z.ltb_spec d 10); apply orb_true_iff; left; apply orb_true_iff;
    [left | right]; apply andb_true_iff; split; apply Z.leb_le; lia.
Qed.

Lemma digitsLoop_hex (fuel : nat) : forall n acc,
  0 <= n -> Forall (fun c => Uuid.isHex c = true) acc ->
  Forall (fun c => Uuid.isHex c = true) (digitsLoop 16 fuel n acc).
Proof.
  induction fuel as [|fuel IH]; intros n acc Hn Hacc; simpl; [exact Hacc|].
  destruct (Z.ltb_spec n 16).
  - constructor; [apply digitChar_hex; lia | exact Hacc].
  - apply IH.
    + apply Z.div_pos; lia.
    + constructor; [|exact Hacc].
      apply digitChar_hex. apply Z.mod_pos_bound. lia.
Qed.

Lemma toStringRadix_hex (n : Z) :
  0 <= n -> Forall (fun c => Uuid.isHex c = true) (toStringRadix 16 n).
Proof. intros. apply digitsLoop_hex; [lia | constructor]. Qed.

Lemma toStringRadix_digit (radix d : Z) :
  0 <= d < radix -> toStringRadix radix d = [digitChar d].
Proof.
  intros Hd. unfold toStringRadix. simpl.
  destruct (Z.ltb_spec d radix); [reflexivity | lia].
Qed.

(** [toStringRadix] writes the number it is given: reading the digits back
    gives the number. *)
Lemma digitValue_digitChar (d : Z) : 0 <= d < 16 -> digitValue (digitChar d) = Some d.
Proof.
  intros Hd. unfold digitValue, digitChar.
  destruct (Z.ltb_spec d 10).
  - replace ((48 <=? 48 + d) && (48 + d <=? 57)) with true; [f_equal; lia|].
    symmetry. apply andb_true_iff. split; apply Z.leb_le; lia.
  - replace ((48 <=? 87 + d) && (87 + d <=? 57)) with false.
    2:{ symmetry. apply andb_false_iff. right. apply Z.leb_gt. lia. }
    replace ((97 <=? 87 + d) && (87 + d <=? 102)) with true; [f_equal; lia|].
    symmetry. apply andb_true_iff. split; apply Z.leb_le; lia.
Qed.

Lemma fromDigits_app (radix : Z) (s : list Z) : forall v0,
  fold_left (fun v c => radix * v + default 0 (digitValue c)) s v0 =
  v0 * radix ^ Z.of_nat (length s) + fromDigits radix s.
Proof.
  unfold fromDigits.
  induction s as [|c s IH]; intros v0; simpl length; simpl fold_left.
  - simpl. lia.
  - rewrite IH. rewrite (IH (radix * 0 + _)).
    rewrite Nat2Z.inj_succ, Z.pow_succ_r by lia. ring.
Qed.

Lemma digitsLoop_value (radix : Z) (fuel : nat) : forall n acc,
  2 <= radix <= 16 -> 0 <= n -> n < radix ^ Z.of_nat fuel ->
  fromDigits radix (digitsLoop radix fuel n acc) =
  n * radix ^ Z.of_nat (length acc) + fromDigits radix acc.
Proof.
  induction fuel as [|fuel IH]; intros n acc Hr Hn Hlt.
  - simpl in Hlt. assert (n = 0) by lia. subst. simpl. lia.
  - simpl digitsLoop. destruct (Z.ltb_spec n radix).
    + unfold fromDigits at 1. simpl fold_left.
      rewrite fromDigits_app, digitValue_digitChar by lia. simpl. lia.
    + rewrite IH; try lia.
      * simpl length. rewrite Nat2Z.inj_succ, Z.pow_succ_r by lia.
        unfold fromDigits at 1. simpl fold_left.
        rewrite fromDigits_app.
        rewrite digitValue_digitChar
          by (pose proof (Z.mod_pos_bound n radix ltac:(lia)); lia).
        simpl default.
        pose proof (Z.div_mod n radix ltac:(lia)) as Hdm.
        rewrite Hdm at 3. ring.
      * apply Z.div_pos; lia.
      * rewrite Nat2Z.inj_succ, Z.pow_succ_r in Hlt by lia.
        apply Z.div_lt_upper_bound; lia.
Qed.

Lemma toStringRadix_value (radix n : Z) :
  2 <= radix <= 16 -> 0 <= n -> fromDigits radix (toStringRadix radix n) = n.
Proof.
  intros Hr Hn. unfold toStringRadix.
  rewrite digitsLoop_value; try lia.
  - simpl. unfold fromDigits. simpl. lia.
  - destruct (Z.eq_dec n 0) as [->|Hne]; [simpl; lia|].
    pose proof (Z.log2_spec n ltac:(lia)) as [_ Hup].
    rewrite Nat2Z.inj_succ, Z2Nat.id by apply Z.log2_nonneg.
    eapply Z.lt_le_trans; [exact Hup|].
    apply Z.pow_le_mono_l. lia.
Qed.

(** * utils/uuid.ts: derived and generated identifiers *)

Lemma matches_app (p1 p2 : list Uuid.cclass) : forall s1 s2,
  Uuid.matches p1 s1 = true -> Uuid.matches p2 s2 = true ->
  Uuid.matches (p1 ++ p2) (s1 ++ s2) = true.
Proof.
  induction p1 as [|k p1 IH]; intros [|c s1] s2 H1 H2; simpl in *; try discriminate.
  - exact H2.
  - apply andb_true_iff in H1 as [Hc H1]. rewrite Hc. simpl. now apply IH.
Qed.

Lemma matches_hex (s : jsstring) :
  allHex s -> Uuid.matches (replicate (length s) Uuid.Hex) s = true.
Proof.
  induction 1 as [|c s Hc _ IH]; simpl; [reflexivity|].
  now rewrite Hc, IH.
Qed.

Lemma matches_length (p : list Uuid.cclass) : forall s,
  Uuid.matches p s = true -> length s = length p.
Proof.
  induction p as [|k p IH]; intros [|c s] H; simpl in *; try discriminate; [reflexivity|].
  apply andb_true_iff in H as [_ H]. f_equal. now apply IH.
Qed.

Lemma slice_hex (a b : nat) (h : jsstring) : allHex h -> allHex (slice a b h).
Proof. intros H. unfold slice. apply Forall_take, Forall_drop, H. Qed.

Lemma slice_length (a b : nat) (h : jsstring) :
  (b <= length h)%nat -> length (slice a b h) = (b - a)%nat.
Proof. intros H. unfold slice. rewrite length_take, length_drop. lia. Qed.

Lemma matches_slice (a b n : nat) (h : jsstring) :
  allHex h -> (b <= length h)%nat -> n = (b - a)%nat ->
  Uuid.matches (replicate n Uuid.Hex) (slice a b h) = true.
Proof.
  intros Hh Hb ->. rewrite <- (slice_length a b h Hb).
  apply matches_hex, slice_hex, Hh.
Qed.

(** The variant nibble [(x & 0x3) | 0x8] is 8, 9, a or b, whatever [x]. *)
Lemma variant_nibble (x : Z) :
  exists c, toStringRadix 16 (or32 (and32 x 3) 8) = [c] /\
            Uuid.inClass Uuid.Variant c = true /\ Uuid.isHex c = true.
Proof.
  unfold and32, or32.
  rewrite (toInt32_small 3), (toInt32_small 8) by lia.
  change 3 with (Z.ones 2). rewrite Z.land_ones by lia.
  pose proof (Z.mod_pos_bound (toInt32 x) (2 ^ 2) ltac:(lia)) as Hm.
  set (a := toInt32 x mod 2 ^ 2) in *.
  rewrite (toInt32_small a) by lia.
  assert (Ha : a = 0 \/ a = 1 \/ a = 2 \/ a = 3) by lia.
  destruct Ha as [-> | [-> | [-> | ->]]]; eexists; (split; [reflexivity|]); split; reflexivity.
Qed.

Lemma padLoop_hex (fuel : nat) : forall s, allHex s -> allHex (Uuid.padLoop fuel s).
Proof.
  induction fuel as [|fuel IH]; intros s Hs; simpl; [exact Hs|].
  destruct (length s <? 32)%nat; [|exact Hs].
  apply IH. constructor; [reflexivity | exact Hs].
Qed.

Lemma padLoop_length (fuel : nat) : forall s,
  (32 <= fuel + length s)%nat -> (32 <= length (Uuid.padLoop fuel s))%nat.
Proof.
  induction fuel as [|fuel IH]; intros s Hs; simpl; [exact Hs|].
  destruct (Nat.ltb_spec (length s) 32); [|assumption].
  apply IH. simpl. lia.
Qed.

Lemma hashHexOf_spec (n : Z) :
  0 <= n -> length (Uuid.hashHexOf n) = 32%nat /\ allHex (Uuid.hashHexOf n).
Proof.
  intros Hn. unfold Uuid.hashHexOf.
  pose proof (padLoop_hex 32 _ (toStringRadix_hex n Hn)) as Hhex.
  pose proof (padLoop_length 32 (toStringRadix 16 n) ltac:(lia)) as Hlen.
  destruct (Nat.ltb_spec 32 (length (Uuid.padLoop 32 (toStringRadix 16 n)))).
  - split; [rewrite length_take; lia | now apply Forall_take].
  - split; [lia | assumption].
Qed.

Lemma formatUUID_valid (h : jsstring) :
  length h = 32%nat -> allHex h -> Uuid.isValidUUID (Uuid.formatUUID h) = true.
Proof.
  intros Hlen Hh.
  destruct (variant_nibble (default 0 (parseInt16 (h !! 15%nat)))) as (c & Hv & Hc & _).
  assert (Hvalid : Uuid.matches Uuid.uuidRegex (Uuid.formatUUID h) = true).
  { unfold Uuid.uuidRegex, Uuid.formatUUID, Uuid.variantOf. rewrite Hv.
    rewrite <- !app_assoc.
    repeat first
      [ apply matches_app
      | apply matches_slice; [exact Hh | lia | reflexivity]
      | reflexivity ].
    cbn [Uuid.matches]. now rewrite Hc. }
  unfold Uuid.isValidUUID.
  destruct (Uuid.formatUUID h) as [|c0 u] eqn:E; [discriminate Hvalid|].
  exact Hvalid.
Qed.

Lemma stringToUUID_valid (s : jsstring) :
  s <> [] ->
  exists u, Uuid.stringToUUID s = Return u /\ Uuid.isValidUUID u = true.
Proof.
  intros Hs. unfold Uuid.stringToUUID.
  destruct s as [|c s]; [congruence|]. simpl truthy. simpl negb. cbv iota.
  eexists. split; [reflexivity|].
  destruct (hashHexOf_spec (Z.abs (Uuid.hashLoop (c :: s))) (Z.abs_nonneg _)) as [Hl Hh].
  now apply formatUUID_valid.
Qed.

(** The hash stays a 32-bit integer, so its magnitude has at most 8 hex digits. *)
Lemma hashStep_eq (h c : Z) : Uuid.hashStep h c = toInt32 (shl32 h 5 - h + c).
Proof. unfold Uuid.hashStep, and32. cbv zeta. apply Z.land_diag. Qed.

(** C10: on every non-empty string [stringToUUID] returns, and what it
    returns is a function of the string alone (no random draw, no clock, no
    state is read) and passes the strict UUIDv4 validation [isValidUUID]; the
    same holds for [createNamespacedUUID], whose argument is never empty; so
    [ensureUUID] returns a valid id and gives it back unchanged when applied
    to it again. *)
Theorem stringToUUID_deterministic_valid_ensureUUID_idempotent (s : jsstring) :
  s <> [] ->
  (exists u, Uuid.stringToUUID s = Return u /\ Uuid.isValidUUID u = true) /\
  (forall namespace value,
     exists u, Uuid.createNamespacedUUID namespace value = Return u /\
               Uuid.isValidUUID u = true) /\
  (exists u, Uuid.ensureUUID s = Return u /\ Uuid.isValidUUID u = true /\
             Uuid.ensureUUID u = Uuid.ensureUUID s).
Proof.
  intros Hs. split; [now apply stringToUUID_valid|]. split.
  - intros namespace value. unfold Uuid.createNamespacedUUID.
    apply stringToUUID_valid. destruct namespace; discriminate.
  - unfold Uuid.ensureUUID at 1 3.
    destruct (Uuid.isValidUUID s) eqn:Hv.
    + exists s. repeat split; [assumption|]. unfold Uuid.ensureUUID. now rewrite Hv.
    + destruct (stringToUUID_valid s Hs) as (u & Hu & Hvu).
      exists u. repeat split; [assumption.. |].
      unfold Uuid.ensureUUID. now rewrite Hvu.
Qed.

Lemma stringToUUID_witness :
  (exists u, Uuid.stringToUUID (js "user_123") = Return u /\ Uuid.isValidUUID u = true) /\
  (forall namespace value,
     exists u, Uuid.createNamespacedUUID namespace value = Return u /\
               Uuid.isValidUUID u = true) /\
  (exists u, Uuid.ensureUUID (js "user_123") = Return u /\ Uuid.isValidUUID u = true /\
             Uuid.ensureUUID u = Uuid.ensureUUID (js "user_123")).
Proof.
  apply (stringToUUID_deterministic_valid_ensureUUID_idempotent (js "user_123")).
  discriminate.
Defined.

Lemma replaceXY_matches (rnd : nat -> Z) (t : jsstring) : forall k,
  nibbles rnd ->
  Forall (fun c => c = 120 \/ c = 121 \/ c = 52 \/ c = 45) t ->
  Uuid.matches (classOf <$> t) (Uuid.replaceXY rnd k t).1 = true.
Proof.
  induction t as [|c t IH]; intros k Hr Ht; [reflexivity|].
  inversion Ht as [|? ? Hc Ht']; subst.
  specialize (IH (if (c =? 120) || (c =? 121) then S k else k) Hr Ht').
  cbn [Uuid.replaceXY fmap list_fmap].
  destruct Hc as [-> | [-> | [-> | ->]]]; cbn [Z.eqb Pos.eqb orb] in *;
    destruct (Uuid.replaceXY rnd _ t) as [rest k'] eqn:E; cbn [fst] in *.
  - rewrite toStringRadix_digit by apply Hr.
    cbn [app Uuid.matches classOf Z.eqb Pos.eqb Uuid.inClass].
    now rewrite digitChar_hex by apply Hr.
  - destruct (variant_nibble (rnd k)) as (v & -> & Hv & _).
    cbn [app Uuid.matches classOf Z.eqb Pos.eqb]. now rewrite Hv.
  - cbn [Uuid.matches]. now rewrite IH.
  - cbn [Uuid.matches]. now rewrite IH.
Qed.

Lemma template_chars : Forall (fun c => c = 120 \/ c = 121 \/ c = 52 \/ c = 45) Uuid.template.
Proof.
  assert (E : Uuid.template = ltac:(let t := eval vm_compute in Uuid.template in exact t))
    by (vm_compute; reflexivity).
  rewrite E. repeat (constructor; [lia|]). constructor.
Qed.

Lemma uuidRegex_template : Uuid.uuidRegex = classOf <$> Uuid.template.
Proof. vm_compute. reflexivity. Qed.

Lemma generateUUID_valid (rnd : nat -> Z) (k : nat) :
  nibbles rnd -> Uuid.isValidUUID (Uuid.generateUUID rnd k).1 = true.
Proof.
  intros Hr.
  assert (H : Uuid.matches Uuid.uuidRegex (Uuid.generateUUID rnd k).1 = true).
  { rewrite uuidRegex_template. unfold Uuid.generateUUID.
    apply replaceXY_matches; [exact Hr | exact template_chars]. }
  unfold Uuid.isValidUUID.
  destruct (Uuid.generateUUID rnd k).1; [discriminate H | exact H].
Qed.

Lemma matches_below (p q : list Uuid.cclass) :
  Forall2 below p q -> forall s, Uuid.matches p s = true -> Uuid.matches q s = true.
Proof.
  induction 1 as [|k k' p q Hk _ IH]; intros [|c s] H; simpl in *; try discriminate;
    [reflexivity|].
  apply andb_true_iff in H as [Hc Hs].
  rewrite (Hk c Hc). simpl. now apply IH.
Qed.

Lemma below_refl (k : Uuid.cclass) : below k k.
Proof. intros c H. exact H. Qed.

Lemma Four_below_Hex : below Uuid.Four Uuid.Hex.
Proof. intros c H. simpl in H. apply Z.eqb_eq in H. now subst. Qed.

Lemma Variant_below_Hex : below Uuid.Variant Uuid.Hex.
Proof.
  intros c H. simpl in H.
  repeat (apply orb_true_iff in H as [H|H]); apply Z.eqb_eq in H; now subst.
Qed.

(** Whatever the strict v4 pattern of [utils/uuid.ts] accepts, the format
    check of the edge function and of the hook accepts too. *)
Lemma strict_valid_format (u : jsstring) :
  Uuid.isValidUUID u = true -> Handler.isValidUUID u = true.
Proof.
  unfold Uuid.isValidUUID, Handler.isValidUUID.
  destruct (negb (truthy u)); [discriminate|].
  apply matches_below.
  unfold Uuid.uuidRegex, Handler.uuidRegex. cbn [replicate app].
  repeat (constructor;
          [first [ apply below_refl | apply Four_below_Hex | apply Variant_below_Hex ]|]).
  constructor.
Qed.

Lemma DEFAULT_USER_ID_not_v4 : Uuid.isValidUUID Handler.DEFAULT_USER_ID = false.
Proof. reflexivity. Qed.

Lemma DEFAULT_USER_ID_format : Handler.isValidUUID Handler.DEFAULT_USER_ID = true.
Proof. reflexivity. Qed.

(** * lib/security.ts: the rate limiter *)

Section RateLimitFacts.

Import RateLimit.

Variable config : SecurityConfig.
Variable identifier : jsstring.

(** A call that opens a window: no entry yet, or the entry has expired. *)
Lemma checkRateLimit_opens (now : Z) (cache : gmap (list Z) bucket) :
  (cache !! identifier = None \/
   exists b, cache !! identifier = Some b /\ now > resetTime b) ->
  checkRateLimit config now identifier cache =
    (true, <[identifier := {| count := 1; resetTime := now + 60 * 1000 |}]> cache).
Proof.
  unfold checkRateLimit. intros [-> | (b & -> & Hb)]; [reflexivity|].
  destruct (Z.gtb_spec now (resetTime b)); [reflexivity | lia].
Qed.

(** A call inside the window, below the limit: counted and allowed. *)
Lemma checkRateLimit_counts (now : Z) (cache : gmap (list Z) bucket) (b : bucket) :
  cache !! identifier = Some b -> now <= resetTime b ->
  count b < maxRequestsPerMinute config ->
  checkRateLimit config now identifier cache =
    (true, <[identifier := {| count := count b + 1; resetTime := resetTime b |}]> cache).
Proof.
  unfold checkRateLimit. intros -> Hnow Hc.
  destruct (Z.gtb_spec now (resetTime b)); [lia|].
  destruct (Z.geb_spec (count b) (maxRequestsPerMinute config)); [lia | reflexivity].
Qed.

(** A call inside the window, at the limit: denied, nothing changes. *)
Lemma checkRateLimit_denies (now : Z) (cache : gmap (list Z) bucket) (b : bucket) :
  cache !! identifier = Some b -> now <= resetTime b ->
  maxRequestsPerMinute config <= count b ->
  checkRateLimit config now identifier cache = (false, cache).
Proof.
  unfold checkRateLimit. intros -> Hnow Hc.
  destruct (Z.gtb_spec now (resetTime b)); [lia|].
  destruct (Z.geb_spec (count b) (maxRequestsPerMinute config)); [reflexivity | lia].
Qed.

(** Calls for another identifier leave the entry alone. *)
Lemma checkRateLimit_other (now : Z) (other : jsstring) (cache : gmap (list Z) bucket) :
  other <> identifier ->
  (checkRateLimit config now other cache).2 !! identifier = cache !! identifier.
Proof.
  intros Hne. unfold checkRateLimit.
  destruct (cache !! other) as [b|] eqn:E;
    [destruct (now >? resetTime b);
     [|destruct (count b >=? maxRequestsPerMinute config)]|];
    cbn [snd]; rewrite ?E; try reflexivity; now rewrite lookup_insert_ne.
Qed.

(** Calls inside a window whose count stays within the limit are all allowed,
    and each one is counted. *)
Lemma calls_in_window (times : list Z) : forall (cache : gmap (list Z) bucket) n reset,
  cache !! identifier = Some {| count := n; resetTime := reset |} ->
  Forall (fun t => t <= reset) times ->
  n + Z.of_nat (length times) <= maxRequestsPerMinute config ->
  exists cache',
    calls config identifier times cache = (replicate (length times) true, cache') /\
    cache' !! identifier =
      Some {| count := n + Z.of_nat (length times); resetTime := reset |}.
Proof.
  induction times as [|t times IH]; intros cache n reset Hc Ht Hn.
  - exists cache. split; [reflexivity|]. rewrite Hc. simpl. do 2 f_equal. lia.
  - inversion Ht as [|? ? Ht1 Ht2]; subst. simpl length in *.
    cbn [calls].
    rewrite (checkRateLimit_counts t cache _ Hc) by (simpl; lia).
    cbn [count resetTime].
    destruct (IH (<[identifier := {| count := n + 1; resetTime := reset |}]> cache)
                (n + 1) reset) as (cache' & Hcalls & Hc').
    + apply lookup_insert_eq.
    + exact Ht2.
    + lia.
    + rewrite Hcalls. exists cache'. split; [reflexivity|].
      rewrite Hc'. do 2 f_equal. lia.
Qed.

End RateLimitFacts.

(** C4: with the default configuration (30 requests per minute, windows of
    60 seconds), from a call that opens a window for the identifier the
    first 30 calls made before the window's reset time has passed are
    allowed and the 31st is denied; a call made once the reset time has
    passed is allowed again and opens a window whose count is 1. *)
Theorem checkRateLimit_thirty_per_window (identifier : jsstring)
    (cache : gmap (list Z) RateLimit.bucket) (t1 : Z) (ts : list Z) (t31 tNext : Z) :
  (cache !! identifier = None \/
   exists b, cache !! identifier = Some b /\ t1 > RateLimit.resetTime b) ->
  length ts = 29%nat ->
  Forall (fun t => t <= t1 + 60 * 1000) ts ->
  t31 <= t1 + 60 * 1000 ->
  tNext > t1 + 60 * 1000 ->
  exists cache30 cacheNext,
    RateLimit.calls RateLimit.defaultSecurityConfig identifier (t1 :: ts) cache =
      (replicate 30 true, cache30) /\
    RateLimit.checkRateLimit RateLimit.defaultSecurityConfig t31 identifier cache30 =
      (false, cache30) /\
    RateLimit.checkRateLimit RateLimit.defaultSecurityConfig tNext identifier cache30 =
      (true, cacheNext) /\
    cacheNext !! identifier =
      Some {| RateLimit.count := 1; RateLimit.resetTime := tNext + 60 * 1000 |}.
Proof.
  intros Hopen Hlen Hts H31 Hnext.
  cbn [RateLimit.calls].
  rewrite (checkRateLimit_opens _ _ _ _ Hopen).
  destruct (calls_in_window RateLimit.defaultSecurityConfig identifier ts
              (<[identifier := {| RateLimit.count := 1;
                                  RateLimit.resetTime := t1 + 60 * 1000 |}]> cache)
              1 (t1 + 60 * 1000)) as (cache30 & Hcalls & Hc30).
  { apply lookup_insert_eq. }
  { exact Hts. }
  { rewrite Hlen. simpl. lia. }
  rewrite Hcalls, Hlen in *.
  exists cache30, (<[identifier := {| RateLimit.count := 1;
                                     RateLimit.resetTime := tNext + 60 * 1000 |}]> cache30).
  split; [reflexivity|]. split; [|split].
  - apply (checkRateLimit_denies _ _ _ _ _ Hc30); simpl; lia.
  - apply checkRateLimit_opens. right. eexists. split; [exact Hc30 | simpl; lia].
  - apply lookup_insert_eq.
Qed.

Lemma checkRateLimit_thirty_per_window_witness :
  exists cache30 cacheNext,
    RateLimit.calls RateLimit.defaultSecurityConfig (js "upload_u")
      (0 :: replicate 29 1000) ∅ = (replicate 30 true, cache30) /\
    RateLimit.checkRateLimit RateLimit.defaultSecurityConfig 60000 (js "upload_u") cache30 =
      (false, cache30) /\
    RateLimit.checkRateLimit RateLimit.defaultSecurityConfig 60001 (js "upload_u") cache30 =
      (true, cacheNext) /\
    cacheNext !! js "upload_u" =
      Some {| RateLimit.count := 1; RateLimit.resetTime := 60001 + 60 * 1000 |}.
Proof.
  apply (checkRateLimit_thirty_per_window (js "upload_u") ∅ 0 (replicate 29 1000) 60000 60001).
  - left. reflexivity.
  - reflexivity.
  - repeat constructor; lia.
  - lia.
  - lia.
Defined.

(** * The state-and-exception monad *)

Lemma bind_run {A B} (m : M A) (f : A -> M B) (s : state) :
  (m ≫= f) s = match m s with
               | (Return a, s') => f a s'
               | (Throw msg, s') => (Throw msg, s')
               end.
Proof. reflexivity. Qed.

Lemma ret_run {A} (a : A) (s : state) : (mret a : M A) s = (Return a, s).
Proof. reflexivity. Qed.

Lemma frame_refl (s : state) : frame s s.
Proof. split; reflexivity. Qed.

Lemma frame_trans (s1 s2 s3 : state) : frame s1 s2 -> frame s2 s3 -> frame s1 s3.
Proof. intros [H1 H2] [H3 H4]. split; congruence. Qed.

Lemma frames_ret {A} (a : A) : frames (mret a).
Proof. intros s. apply frame_refl. Qed.

Lemma frames_throw {A} (msg : jsstring) : frames (@throw A msg).
Proof. intros s. apply frame_refl. Qed.

Lemma frames_bind {A B} (m : M A) (f : A -> M B) :
  frames m -> (forall a, frames (f a)) -> frames (m ≫= f).
Proof.
  intros Hm Hf s. rewrite bind_run. specialize (Hm s).
  destruct (m s) as [[a|msg] s1]; simpl in Hm; [|exact Hm].
  eapply frame_trans; [exact Hm | apply Hf].
Qed.

Lemma frames_tryCatch {A} (m : M A) (h : jsstring -> M A) :
  frames m -> (forall msg, frames (h msg)) -> frames (tryCatch m h).
Proof.
  intros Hm Hh s. unfold tryCatch. specialize (Hm s).
  destruct (m s) as [[a|msg] s1]; simpl in Hm; [exact Hm|].
  eapply frame_trans; [exact Hm | apply Hh].
Qed.

Lemma frames_throwIf (c : bool) (msg : jsstring) : frames (throwIf c msg).
Proof. destruct c; [apply frames_throw | apply frames_ret]. Qed.

Lemma frames_now (clock : nat -> Z) : frames (now clock).
Proof. intros s. split; reflexivity. Qed.

Lemma throwIf_run (c : bool) (msg : jsstring) (s : state) :
  throwIf c msg s = if c then (Throw msg, s) else (Return tt, s).
Proof. destruct c; reflexivity. Qed.

(** * The edge function *)

Lemma frames_generateUUID (e : Handler.env) : frames (Handler.generateUUID e).
Proof.
  intros s. unfold Handler.generateUUID.
  destruct (Uuid.generateUUID _ _). split; reflexivity.
Qed.

Lemma frames_selectUser (fault : option jsstring) (id : jsstring) :
  frames (Db.selectUser fault id).
Proof.
  intros s. unfold Db.selectUser.
  destruct fault; [|destruct (users s !! id)]; split; reflexivity.
Qed.

Lemma frames_insertUser (fault : option jsstring) (id : jsstring) (row : user_row) :
  frames (Db.insertUser fault id row).
Proof.
  intros s. unfold Db.insertUser.
  destruct fault; [|destruct (users s !! id)]; split; reflexivity.
Qed.

Create HintDb frames discriminated.

#[local] Hint Resolve frames_ret frames_throw frames_throwIf frames_now
  frames_generateUUID frames_selectUser frames_insertUser : frames.

(** One step through a [bind] whose first part is a primitive. *)
Ltac frames_step := apply frames_bind; [solve [auto with frames]|]; intros ?.

Lemma frames_ensureUser (e : Handler.env) (userId : jsstring) :
  frames (Handler.ensureUser e userId).
Proof.
  unfold Handler.ensureUser. frames_step.
  destruct (Db.err _); [|auto with frames].
  case_bool_decide; [|auto with frames].
  repeat frames_step. auto with frames.
Qed.

Lemma frames_resolveUserId (e : Handler.env) (supplied : option jsstring) :
  frames (Handler.resolveUserId e supplied).
Proof.
  unfold Handler.resolveUserId.
  destruct (negb (truthy_opt supplied)); [apply frames_ret|].
  destruct (negb _); [apply frames_generateUUID | apply frames_ret].
Qed.

(** [resolveUserId] and [ensureUser] never throw. *)
Lemma returns_ret {A} (a : A) : returns (mret a).
Proof. intros s. now exists a. Qed.

Lemma returns_bind {A B} (m : M A) (f : A -> M B) :
  returns m -> (forall a, returns (f a)) -> returns (m ≫= f).
Proof.
  intros Hm Hf s. rewrite bind_run. destruct (Hm s) as [a Ha].
  destruct (m s) as [o s1]. simpl in Ha. subst o. apply Hf.
Qed.

Lemma returns_now (clock : nat -> Z) : returns (now clock).
Proof. intros s. eexists. reflexivity. Qed.

Lemma returns_generateUUID (e : Handler.env) : returns (Handler.generateUUID e).
Proof.
  intros s. unfold Handler.generateUUID.
  destruct (Uuid.generateUUID _ _). eexists. reflexivity.
Qed.

Lemma returns_selectUser (fault : option jsstring) (id : jsstring) :
  returns (Db.selectUser fault id).
Proof.
  intros s. unfold Db.selectUser.
  destruct fault; [|destruct (users s !! id)]; eexists; reflexivity.
Qed.

Lemma returns_insertUser (fault : option jsstring) (id : jsstring) (row : user_row) :
  returns (Db.insertUser fault id row).
Proof.
  intros s. unfold Db.insertUser.
  destruct fault; [|destruct (users s !! id)]; eexists; reflexivity.
Qed.

Create HintDb returns discriminated.

#[local] Hint Resolve returns_ret returns_now returns_generateUUID
  returns_selectUser returns_insertUser : returns.

Ltac returns_step := apply returns_bind; [solve [auto with returns]|]; intros ?.

Lemma returns_ensureUser (e : Handler.env) (userId : jsstring) :
  returns (Handler.ensureUser e userId).
Proof.
  unfold Handler.ensureUser. returns_step.
  destruct (Db.err _); [|auto with returns].
  case_bool_decide; [|auto with returns].
  repeat returns_step. auto with returns.
Qed.

Lemma returns_resolveUserId (e : Handler.env) (supplied : option jsstring) :
  returns (Handler.resolveUserId e supplied).
Proof.
  unfold Handler.resolveUserId.
  destruct (negb (truthy_opt supplied)); [apply returns_ret|].
  destruct (negb _); [apply returns_generateUUID | apply returns_ret].
Qed.

Lemma returns_run {A} (m : M A) (s : state) :
  returns m -> exists a s', m s = (Return a, s').
Proof. intros H. destruct (H s) as [a Ha]. destruct (m s) as [o s']. simpl in Ha. subst. eauto. Qed.

(** The validation: it rejects with an error, before anything else is done,
    exactly the requests of [rejected]. *)
Lemma validateRequest_rejects (req : Handler.ProblemSubmissionRequest) (s : state) :
  rejected req -> exists msg, Handler.validateRequest req s = (Throw msg, s).
Proof.
  unfold rejected, missing, Handler.validateRequest. intros H.
  rewrite !bind_run, !throwIf_run.
  destruct (negb (truthy_opt (Handler.input_type req))) eqn:E1; [eexists; reflexivity|].
  destruct (negb (truthy_opt (Handler.title req))) eqn:E2; [eexists; reflexivity|].
  cbn [orb].
  destruct H as [H | [H | [[Ht H] | [[Ht H] | [Ht H]]]]]; try discriminate;
    rewrite Ht, H;
    repeat (rewrite bool_decide_eq_true_2 by reflexivity);
    repeat (rewrite bool_decide_eq_false_2 by (intros [=]));
    cbn [andb]; rewrite ?throwIf_run; eexists; reflexivity.
Qed.

Lemma validateRequest_accepts (req : Handler.ProblemSubmissionRequest) (s : state) :
  ~ rejected req -> Handler.validateRequest req s = (Return tt, s).
Proof.
  unfold rejected, missing, Handler.validateRequest. intros H.
  rewrite !bind_run, !throwIf_run.
  destruct (negb (truthy_opt (Handler.input_type req))) eqn:E1;
    [exfalso; apply H; auto|].
  destruct (negb (truthy_opt (Handler.title req))) eqn:E2;
    [exfalso; apply H; auto|].
  cbn [orb].
  repeat case_bool_decide; cbn [andb];
    repeat match goal with
           | |- context [negb (truthy_opt ?x)] =>
               destruct (negb (truthy_opt x)) eqn:?; [exfalso; apply H; auto 10|]
           end;
    reflexivity.
Qed.

Lemma validateRequest_cases (req : Handler.ProblemSubmissionRequest) (s : state) :
  (rejected req /\ exists msg, Handler.validateRequest req s = (Throw msg, s)) \/
  (~ rejected req /\ Handler.validateRequest req s = (Return tt, s)).
Proof.
  assert (D : rejected req \/ ~ rejected req).
  { unfold rejected.
    destruct (missing (Handler.input_type req)); [tauto|].
    destruct (missing (Handler.title req)); [tauto|].
    destruct (missing (Handler.text_content req)),
             (missing (Handler.image_data req)),
             (missing (Handler.voice_url req));
      destruct (decide (Handler.input_type req = Some (js "text"))),
               (decide (Handler.input_type req = Some (js "image"))),
               (decide (Handler.input_type req = Some (js "voice"))); intuition congruence. }
  destruct D as [D|D]; [left | right]; (split; [exact D|]).
  - now apply validateRequest_rejects.
  - now apply validateRequest_accepts.
Qed.

Lemma truthy_default (o : option jsstring) : truthy (default [] o) = truthy_opt o.
Proof. destruct o; reflexivity. Qed.

(** The client is created exactly when the variables of the store are set. *)
Lemma createClient_configured (e : Handler.env) (s : state) :
  configured e ->
  Handler.createClient (default [] (Handler.SUPABASE_URL e))
    (default [] (Handler.SUPABASE_SERVICE_ROLE_KEY e)) s = (Return tt, s).
Proof.
  intros [H1 H2]. unfold Handler.createClient.
  rewrite bind_run, !throwIf_run, !truthy_default, H1, H2. reflexivity.
Qed.

Lemma createClient_cases (e : Handler.env) (s : state) :
  (exists msg,
     Handler.createClient (default [] (Handler.SUPABASE_URL e))
       (default [] (Handler.SUPABASE_SERVICE_ROLE_KEY e)) s = (Throw msg, s)) \/
  configured e.
Proof.
  unfold Handler.createClient, configured.
  rewrite bind_run, !throwIf_run, !truthy_default.
  destruct (truthy_opt (Handler.SUPABASE_URL e)); cbn [negb];
    [|left; eexists; reflexivity].
  destruct (truthy_opt (Handler.SUPABASE_SERVICE_ROLE_KEY e)); cbn [negb];
    [right; split; reflexivity | left; eexists; reflexivity].
Qed.

Lemma prepare_cases (e : Handler.env) (s : state) :
  (exists msg, Handler.prepare e s = (Throw msg, s)) \/
  (exists req userId sr s',
     Handler.prepare e s = (Return (req, userId), s') /\
     configured e /\ Handler.requestBody e = Return req /\ ~ rejected req /\
     Handler.resolveUserId e (Handler.user_id req) s = (Return userId, sr) /\
     frame s s').
Proof.
  unfold Handler.prepare. rewrite bind_run.
  destruct (createClient_cases e s) as [[msg ->] | Hc]; [left; eexists; reflexivity|].
  rewrite (createClient_configured e s Hc). clear Hc.
  rewrite !bind_run, !throwIf_run.
  destruct (truthy_opt (Handler.SUPABASE_URL e)) eqn:E1; cbn [negb];
    [|left; eexists; reflexivity].
  rewrite !bind_run, !throwIf_run.
  destruct (truthy_opt (Handler.SUPABASE_SERVICE_ROLE_KEY e)) eqn:E2; cbn [negb];
    [|left; eexists; reflexivity].
  rewrite !bind_run.
  destruct (Handler.requestBody e) as [req|msg] eqn:Ereq; [|left; eexists; reflexivity].
  rewrite !bind_run.
  destruct (validateRequest_cases req s) as [[_ [msg ->]] | [Hok ->]];
    [left; eexists; reflexivity|].
  rewrite !bind_run.
  destruct (returns_run _ s (returns_resolveUserId e (Handler.user_id req)))
    as (userId & sr & Hres).
  rewrite Hres, bind_run.
  destruct (returns_run _ sr (returns_ensureUser e userId)) as ([] & s' & Hens).
  rewrite Hens.
  right. exists req, userId, sr, s'.
  repeat split; try assumption; try reflexivity.
  - pose proof (frames_resolveUserId e (Handler.user_id req) s) as [H _].
    pose proof (frames_ensureUser e userId sr) as [H' _].
    rewrite Hres in H. rewrite Hens in H'. simpl in *. congruence.
  - pose proof (frames_resolveUserId e (Handler.user_id req) s) as [_ H].
    pose proof (frames_ensureUser e userId sr) as [_ H'].
    rewrite Hres in H. rewrite Hens in H'. simpl in *. congruence.
Qed.

Lemma now_run (clock : nat -> Z) (s : state) :
  now clock s = (Return (clock (clockPos s)), with_clockPos (S (clockPos s)) s).
Proof. reflexivity. Qed.

Lemma persist_cases (e : Handler.env) (req : Handler.ProblemSubmissionRequest)
    (userId : jsstring) (s : state) :
  exists problemId ins s',
    Handler.persist e req userId s = (Return (problemId, ins), s') /\
    problemId = (Uuid.generateUUID (Handler.rnd e) (rndPos s)).1 /\
    ((exists msg, Db.err ins = Some msg /\ frame s s' /\
                  (Handler.insertFault e = Some msg \/
                   is_Some (problem_submissions s !! problemId))) \/
     (exists row,
        Db.err ins = None /\ Db.data ins = Some row /\
        Handler.insertFault e = None /\
        sub_id row = problemId /\ sub_user_id row = userId /\
        sub_status row = processing /\
        problem_submissions s !! problemId = None /\
        problem_submissions s' = <[problemId := row]> (problem_submissions s) /\
        writes s' =
          writes s ++ [{| we_id := problemId; we_old := None; we_new := processing |}])).
Proof.
  unfold Handler.persist. rewrite bind_run. unfold Handler.generateUUID at 1.
  destruct (Uuid.generateUUID (Handler.rnd e) (rndPos s)) as [problemId k] eqn:Egen.
  rewrite !bind_run, now_run, !bind_run, now_run, bind_run.
  unfold Db.insertSubmission. cbn [sub_id sub_status].
  exists problemId.
  destruct (Handler.insertFault e) as [msg|] eqn:Ef.
  - eexists _, _. split; [reflexivity|]. split; [reflexivity|].
    left. exists msg. repeat split; auto.
  - cbn [problem_submissions with_clockPos with_rndPos].
    destruct (problem_submissions s !! problemId) as [old|] eqn:El.
    + eexists _, _. split; [reflexivity|]. split; [reflexivity|].
      left. eexists. repeat split; eauto.
    + eexists _, _. split; [reflexivity|]. split; [reflexivity|].
      right. eexists. repeat split; reflexivity.
Qed.

Lemma updateSubmission_run (fault : option jsstring) (id : jsstring)
    (patch : submission -> submission) (s : state) (row : submission) :
  problem_submissions s !! id = Some row ->
  Db.updateSubmission fault id patch s =
    match fault with
    | Some msg => (Return (Some msg), s)
    | None =>
        (Return None,
         with_submissions (<[id := patch row]> (problem_submissions s))
           {| we_id := id; we_old := Some (sub_status row);
              we_new := sub_status (patch row) |} s)
    end.
Proof. intros H. unfold Db.updateSubmission. now rewrite H. Qed.

(** What [solve] does to a record that is at [processing]: nothing, or it
    returns after one move to a terminal status. *)
Lemma solve_cases (e : Handler.env) (problemId : jsstring) (ins : Db.reply submission)
    (s : state) (row : submission) :
  problem_submissions s !! problemId = Some row ->
  sub_status row = processing ->
  exists o s',
    Handler.solve e problemId ins s = (o, s') /\
    (frame s s' \/
     (exists r, o = Return r) /\
     exists row',
       terminal (sub_status row') = true /\
       sub_id row' = sub_id row /\ sub_user_id row' = sub_user_id row /\
       problem_submissions s' = <[problemId := row']> (problem_submissions s) /\
       writes s' =
         writes s ++ [{| we_id := problemId; we_old := Some processing;
                         we_new := sub_status row' |}]).
Proof.
  intros Hrow Hst. unfold Handler.solve.
  assert (Hupd : forall fault patch k,
    terminal (sub_status (patch row)) = true ->
    sub_id (patch row) = sub_id row -> sub_user_id (patch row) = sub_user_id row ->
    exists s',
      Db.updateSubmission fault problemId patch (with_clockPos k s) = (Return fault, s') /\
      (fault <> None /\ frame s s' \/
       fault = None /\
       exists row',
         terminal (sub_status row') = true /\
         sub_id row' = sub_id row /\ sub_user_id row' = sub_user_id row /\
         problem_submissions s' = <[problemId := row']> (problem_submissions s) /\
         writes s' =
           writes s ++ [{| we_id := problemId; we_old := Some processing;
                           we_new := sub_status row' |}])).
  { intros fault patch k Ht Hid Hu.
    rewrite (updateSubmission_run fault problemId patch _ row) by exact Hrow.
    destruct fault as [msg|].
    - eexists. split; [reflexivity|]. left. split; [discriminate | split; reflexivity].
    - eexists. split; [reflexivity|]. right. split; [reflexivity|].
      exists (patch row). rewrite Hst. repeat split; assumption || reflexivity. }
  destruct (negb (truthy_opt (Handler.GOOGLE_API_KEY e))).
  { rewrite bind_run, now_run, bind_run.
    edestruct (Hupd (Handler.errorUpdateFault e)
                 (Handler.markError (js "Google API key not configured")
                    (Handler.clock e (clockPos s)))) as (s' & -> & H);
      [reflexivity..|].
    eexists _, _. split; [reflexivity|].
    destruct H as [[_ H] | [_ H]]; [left; exact H | right; eauto]. }
  destruct (Handler.gemini e) as [msg|r].
  { eexists _, _. split; [reflexivity|]. left. apply frame_refl. }
  destruct (negb (Handler.ok r)).
  { rewrite bind_run, now_run, bind_run.
    edestruct (Hupd (Handler.errorUpdateFault e)
                 (Handler.markError
                    (js "Gemini API error: " ++ toStringRadix 10 (Handler.http_status r))
                    (Handler.clock e (clockPos s)))) as (s' & -> & H);
      [reflexivity..|].
    eexists _, _. split; [reflexivity|].
    destruct H as [[_ H] | [_ H]]; [left; exact H | right; eauto]. }
  destruct (Handler.json r) as [candidate|msg].
  2:{ eexists _, _. split; [reflexivity|]. left. apply frame_refl. }
  destruct (Handler.parseSolution _ _) as [[subject diff] tags].
  rewrite bind_run, now_run.
  destruct (Db.data ins) as [problemData|].
  2:{ eexists _, _. split; [reflexivity|]. left. split; reflexivity. }
  rewrite bind_run, now_run, bind_run.
  change (with_clockPos _ (with_clockPos _ s)) with (with_clockPos (S (S (clockPos s))) s).
  edestruct (Hupd (Handler.finalUpdateFault e)
               (Handler.markCompleted
                  (or_else candidate (js "No solution generated")) subject diff tags
                  (Handler.clock e (clockPos s) - sub_created_at problemData)
                  (Handler.clock e (S (clockPos s)))) (S (S (clockPos s))))
    as (s' & Hrun & H); [reflexivity..|].
  cbn [clockPos with_clockPos]. rewrite Hrun.
  destruct H as [[Hf H] | [-> H]].
  - destruct (Handler.finalUpdateFault e); [|congruence].
    eexists _, _. split; [reflexivity | left; exact H].
  - eexists _, _. split; [reflexivity | right; eauto].
Qed.

(** Whenever [solve] throws, whatever the cause, the record is left as it
    was: at [processing]. *)
Lemma solve_throw_leaves_record (e : Handler.env) (problemId : jsstring)
    (ins : Db.reply submission) (s s' : state) (row : submission) (msg : jsstring) :
  problem_submissions s !! problemId = Some row ->
  sub_status row = processing ->
  Handler.solve e problemId ins s = (Throw msg, s') ->
  problem_submissions s' !! problemId = Some row.
Proof.
  intros Hrow Hst Hrun.
  destruct (solve_cases e problemId ins s row Hrow Hst)
    as (o & s0 & Hrun0 & [[Hs _] | [[r Hr] _]]);
    rewrite Hrun in Hrun0; injection Hrun0 as <- <-.
  - now rewrite Hs.
  - discriminate.
Qed.

(** The call of the provider throws: so does [solve], at once. *)
Lemma solve_fetch_throws (e : Handler.env) (problemId : jsstring)
    (ins : Db.reply submission) (s : state) (msg : jsstring) :
  truthy_opt (Handler.GOOGLE_API_KEY e) = true ->
  Handler.gemini e = Handler.FetchThrows msg ->
  Handler.solve e problemId ins s = (Throw msg, s).
Proof. intros Hk Hg. unfold Handler.solve. now rewrite Hk, Hg. Qed.

Lemma prepare_accepts (e : Handler.env) (req : Handler.ProblemSubmissionRequest) (s : state) :
  configured e -> Handler.requestBody e = Return req -> ~ rejected req ->
  exists userId sr s',
    Handler.prepare e s = (Return (req, userId), s') /\
    Handler.resolveUserId e (Handler.user_id req) s = (Return userId, sr) /\
    frame s s'.
Proof.
  intros [H1 H2] Hreq Hok.
  destruct (prepare_cases e s) as [[msg Hthrow] | (req' & userId & sr & s' & Hp & _ & Hreq' & _ & Hres & Hf)].
  - exfalso. revert Hthrow. unfold Handler.prepare.
    rewrite bind_run, (createClient_configured e s (conj H1 H2)).
    rewrite !bind_run, !throwIf_run, H1. cbn [negb].
    rewrite !bind_run, !throwIf_run, H2. cbn [negb].
    rewrite !bind_run, Hreq, !bind_run, (validateRequest_accepts req s Hok), !bind_run.
    destruct (returns_run _ s (returns_resolveUserId e (Handler.user_id req)))
      as (userId & sr & ->).
    rewrite bind_run.
    destruct (returns_run _ sr (returns_ensureUser e userId)) as ([] & s' & ->).
    discriminate.
  - assert (req' = req) by congruence. subst req'. eauto 10.
Qed.

Lemma prepare_rejects (e : Handler.env) (req : Handler.ProblemSubmissionRequest) (s : state) :
  Handler.requestBody e = Return req -> rejected req ->
  exists msg, Handler.prepare e s = (Throw msg, s).
Proof.
  intros Hreq Hrej.
  destruct (prepare_cases e s) as [H | (req' & userId & sr & s' & _ & _ & Hreq' & Hok & _)];
    [exact H|].
  exfalso. apply Hok. congruence.
Qed.

(** Every run of the body has one of the effects of [effect]. *)
Lemma body_effect (e : Handler.env) (s : state) :
  exists o s', Handler.body e s = (o, s') /\ effect e s s'.
Proof.
  unfold Handler.body. rewrite bind_run.
  destruct (prepare_cases e s)
    as [[msg ->] | (req & userId & sr & s1 & -> & _ & Hreq & _ & Hres & Hf1)].
  { eexists _, _. split; [reflexivity|]. apply effect_none, frame_refl. }
  rewrite bind_run.
  destruct (persist_cases e req userId s1) as (problemId & ins & s2 & -> & _ & Hins).
  destruct Hf1 as [Hs1 Hw1].
  destruct Hins as [(msg & -> & Hf2 & _) |
                    (row & -> & Hdata & _ & Hid & Hu & Hst & Hnew & Hs2 & Hw2)].
  { eexists _, _. split; [reflexivity|].
    apply effect_none. eapply frame_trans; [split; eassumption | exact Hf2]. }
  assert (Hrow : problem_submissions s2 !! problemId = Some row)
    by (rewrite Hs2; apply lookup_insert_eq).
  destruct (solve_cases e problemId ins s2 row Hrow Hst)
    as (o & s3 & -> & [[Hs3 Hw3] | (_ & row' & Ht & Hid' & Hu' & Hs3 & Hw3)]).
  - eexists _, _. split; [reflexivity|].
    eapply (effect_record e s s3 req userId problemId sr row []); eauto.
    + congruence.
    + congruence.
    + congruence.
  - eexists _, _. split; [reflexivity|].
    eapply (effect_record e s s3 req userId problemId sr row'); eauto.
    + congruence.
    + congruence.
    + congruence.
    + rewrite Hs3, Hs2, insert_insert_eq. congruence.
    + rewrite Hw3, Hw2, Hw1, <- app_assoc. reflexivity.
Qed.

(** The handler always answers; [OPTIONS] touches nothing. *)
Lemma serve_effect (method : jsstring) (e : Handler.env) (s : state) :
  exists r s', Handler.serve method e s = (Return r, s') /\ effect e s s'.
Proof.
  unfold Handler.serve. case_bool_decide.
  { eexists _, _. split; [reflexivity|]. apply effect_none, frame_refl. }
  unfold tryCatch.
  destruct (body_effect e s) as (o & s' & -> & Heff).
  destruct o; eexists _, _; (split; [reflexivity | exact Heff]).
Qed.

Lemma serve_body (method : jsstring) (e : Handler.env) (s : state) :
  method <> js "OPTIONS" ->
  Handler.serve method e s =
    match Handler.body e s with
    | (Return r, s') => (Return r, s')
    | (Throw msg, s') => (Return (Handler.Failure msg None), s')
    end.
Proof.
  intros H. unfold Handler.serve, tryCatch.
  rewrite bool_decide_eq_false_2 by exact H. reflexivity.
Qed.

(** C8: a submit request that lacks [input_type] or [title], or the payload its
    [input_type] requires, is answered at once with an unsuccessful response;
    the state after the request is the state before it, so no record was
    created and no write was made. *)
Theorem invalid_request_rejected_without_record (method : jsstring) (e : Handler.env)
    (req : Handler.ProblemSubmissionRequest) (s : state) :
  method <> js "OPTIONS" ->
  Handler.requestBody e = Return req ->
  rejected req ->
  exists r s',
    Handler.serve method e s = (Return r, s') /\
    Handler.success r = false /\ s' = s.
Proof.
  intros Hm Hreq Hrej.
  destruct (prepare_rejects e req s Hreq Hrej) as [msg Hp].
  rewrite (serve_body method e s Hm). unfold Handler.body.
  rewrite bind_run, Hp. eexists _, _. repeat split; reflexivity.
Qed.

Lemma invalid_request_rejected_without_record_witness :
  exists r s',
    Handler.serve (js "POST") (sampleEnv imageRequestWithoutData providerAnswer) emptyState =
      (Return r, s') /\
    Handler.success r = false /\ s' = emptyState.
Proof.
  apply (invalid_request_rejected_without_record (js "POST")
           (sampleEnv imageRequestWithoutData providerAnswer) imageRequestWithoutData).
  - discriminate.
  - reflexivity.
  - right. right. right. left. split; reflexivity.
Defined.

Lemma forward_refl (a : status) : forward a a.
Proof. now left. Qed.

Lemma forward_trans (a b c : status) : forward a b -> forward b c -> forward a c.
Proof.
  intros [-> | [Ha Hb]] [-> | [Hb' Hc]]; unfold forward; auto.
Qed.

(** One request: the writes it adds are forward, and the records that were
    there keep their status. *)
Lemma effect_forward (e : Handler.env) (s s' : state) :
  effect e s s' ->
  (exists evs, writes s' = writes s ++ evs /\ Forall forward_event evs) /\
  (forall p row, problem_submissions s !! p = Some row ->
     exists row', problem_submissions s' !! p = Some row' /\
                  forward (sub_status row) (sub_status row')).
Proof.
  intros [[Hs Hw] | req userId problemId sr row evs _ _ Hnew _ _ Hs Hw Hevs].
  - split.
    + exists []. rewrite Hw, app_nil_r. split; [reflexivity | constructor].
    + intros p row Hp. exists row. rewrite Hs. split; [exact Hp | apply forward_refl].
  - split.
    + eexists. split; [exact Hw|].
      constructor; [left; split; reflexivity|].
      destruct Hevs as [[_ ->] | [Ht ->]]; [constructor|].
      constructor; [|constructor]. right. split; [reflexivity | exact Ht].
    + intros p row0 Hp. exists row0. split; [|apply forward_refl].
      rewrite Hs, lookup_insert_ne; [exact Hp|]. congruence.
Qed.

(** C2: over any sequence of requests, every write on [problem_submissions]
    either creates a record at [processing] or moves a record from
    [processing] to [completed] or [error]; the status of a stored record
    never goes back, and never passes between [completed] and [error]. *)
Theorem status_only_moves_forward (reqs : list (jsstring * Handler.env)) (s : state) :
  (exists evs, writes (serveAll reqs s) = writes s ++ evs /\ Forall forward_event evs) /\
  (forall p row, problem_submissions s !! p = Some row ->
     exists row', problem_submissions (serveAll reqs s) !! p = Some row' /\
                  forward (sub_status row) (sub_status row')).
Proof.
  revert s. induction reqs as [|[method e] reqs IH]; intros s; cbn [serveAll].
  - split.
    + exists []. rewrite app_nil_r. split; [reflexivity | constructor].
    + intros p row Hp. exists row. split; [exact Hp | apply forward_refl].
  - destruct (serve_effect method e s) as (r & s1 & Hrun & Heff).
    rewrite Hrun. cbn [snd].
    destruct (effect_forward e s s1 Heff) as [(evs1 & Hw1 & Hf1) Hrows1].
    destruct (IH s1) as [(evs2 & Hw2 & Hf2) Hrows2].
    split.
    + exists (evs1 ++ evs2). rewrite Hw2, Hw1, <- app_assoc.
      split; [reflexivity | now apply Forall_app].
    + intros p row Hp.
      destruct (Hrows1 p row Hp) as (row1 & Hp1 & Hfw1).
      destruct (Hrows2 p row1 Hp1) as (row2 & Hp2 & Hfw2).
      exists row2. split; [exact Hp2 | eapply forward_trans; eassumption].
Qed.

Lemma status_only_moves_forward_witness :
  exists row',
    problem_submissions
      (serveAll [(js "POST", sampleEnv (textRequest None) (Handler.FetchThrows (js "down")))]
         (Handler.serve (js "POST") (sampleEnv (textRequest None) providerAnswer)
            emptyState).2) !! firstId = Some row' /\
    forward completed (sub_status row').
Proof.
  destruct (status_only_moves_forward
              [(js "POST", sampleEnv (textRequest None) (Handler.FetchThrows (js "down")))]
              (Handler.serve (js "POST") (sampleEnv (textRequest None) providerAnswer)
                 emptyState).2) as [_ H].
  destruct (H firstId (completedRow Handler.DEFAULT_USER_ID))
    as (row' & Hrow & Hfw).
  - vm_compute. reflexivity.
  - exists row'. split; [exact Hrow | exact Hfw].
Defined.

(** The owner [resolveUserId] settles on. *)
Lemma resolveUserId_cases (e : Handler.env) (supplied : option jsstring)
    (s sr : state) (userId : jsstring) :
  nibbles (Handler.rnd e) ->
  Handler.resolveUserId e supplied s = (Return userId, sr) ->
  Handler.isValidUUID userId = true /\
  match supplied with
  | None => userId = Handler.DEFAULT_USER_ID
  | Some u =>
      if truthy u then
        if Handler.isValidUUID u then userId = u
        else userId = (Uuid.generateUUID (Handler.rnd e) (rndPos s)).1 /\
             Uuid.isValidUUID userId = true
      else userId = Handler.DEFAULT_USER_ID
  end.
Proof.
  intros Hr. unfold Handler.resolveUserId, mret, M_ret.
  destruct supplied as [u|]; cbn [truthy_opt default from_option id].
  2:{ intros [= <- _]. split; reflexivity. }
  destruct (truthy u); cbn [negb].
  2:{ intros [= <- _]. split; reflexivity. }
  destruct (Handler.isValidUUID u) eqn:Hv; cbn [negb].
  { intros [= <- _]. split; [exact Hv | reflexivity]. }
  unfold Handler.generateUUID.
  pose proof (generateUUID_valid (Handler.rnd e) (rndPos s) Hr) as Hg.
  destruct (Uuid.generateUUID (Handler.rnd e) (rndPos s)) as [g k].
  intros [= <- _]. cbn [fst] in *.
  split; [now apply strict_valid_format | split; [reflexivity | exact Hg]].
Qed.

(** C3, as the code has it: the owner of a record persisted by a request
    passes the format check of the handler (8-4-4-4-12 hexadecimal digits,
    any version and variant); a supplied id that passes this check is kept, a
    supplied id that fails it is replaced by a generated id, which is a valid
    UUIDv4, and when no id, or an empty one, is supplied the owner is the
    guest identifier. *)
Theorem persisted_owner_passes_format_check (method : jsstring) (e : Handler.env)
    (s s' : state) (r : Handler.response) (p : jsstring) (row : submission) :
  nibbles (Handler.rnd e) ->
  Handler.serve method e s = (Return r, s') ->
  problem_submissions s !! p = None ->
  problem_submissions s' !! p = Some row ->
  Handler.isValidUUID (sub_user_id row) = true /\
  exists req,
    Handler.requestBody e = Return req /\
    match Handler.user_id req with
    | None => sub_user_id row = Handler.DEFAULT_USER_ID
    | Some u =>
        if truthy u then
          if Handler.isValidUUID u then sub_user_id row = u
          else sub_user_id row = (Uuid.generateUUID (Handler.rnd e) (rndPos s)).1 /\
               Uuid.isValidUUID (sub_user_id row) = true
        else sub_user_id row = Handler.DEFAULT_USER_ID
    end.
Proof.
  intros Hr Hrun Hold Hnew.
  destruct (serve_effect method e s) as (r0 & s0 & Hrun0 & Heff).
  rewrite Hrun in Hrun0. injection Hrun0 as <- <-.
  destruct Heff as [[Hs _] | req userId problemId sr row0 evs Hreq Hres _ _ Hu Hs _ _].
  - rewrite Hs in Hnew. congruence.
  - rewrite Hs in Hnew.
    destruct (decide (problemId = p)) as [->|Hne].
    2:{ rewrite lookup_insert_ne in Hnew by exact Hne. congruence. }
    rewrite lookup_insert_eq in Hnew. injection Hnew as ->.
    destruct (resolveUserId_cases e (Handler.user_id req) s sr userId Hr Hres) as [Hv Hc].
    rewrite Hu. split; [exact Hv|]. exists req. split; [exact Hreq | exact Hc].
Qed.

Lemma nibbles_sample : nibbles (fun n => Z.of_nat n mod 16).
Proof. intros i. apply Z.mod_pos_bound. lia. Qed.

Lemma persisted_owner_passes_format_check_witness :
  Handler.isValidUUID (sub_user_id (completedRow Handler.DEFAULT_USER_ID)) = true /\
  exists req,
    Handler.requestBody (sampleEnv (textRequest None) providerAnswer) = Return req /\
    match Handler.user_id req with
    | None => sub_user_id (completedRow Handler.DEFAULT_USER_ID) = Handler.DEFAULT_USER_ID
    | Some u =>
        if truthy u then
          if Handler.isValidUUID u
          then sub_user_id (completedRow Handler.DEFAULT_USER_ID) = u
          else sub_user_id (completedRow Handler.DEFAULT_USER_ID) =
                 (Uuid.generateUUID
                    (Handler.rnd (sampleEnv (textRequest None) providerAnswer))
                    (rndPos emptyState)).1 /\
               Uuid.isValidUUID (sub_user_id (completedRow Handler.DEFAULT_USER_ID)) = true
        else sub_user_id (completedRow Handler.DEFAULT_USER_ID) = Handler.DEFAULT_USER_ID
    end.
Proof.
  apply (persisted_owner_passes_format_check (js "POST")
           (sampleEnv (textRequest None) providerAnswer) emptyState
           (Handler.serve (js "POST") (sampleEnv (textRequest None) providerAnswer)
              emptyState).2
           (Handler.Success firstId (js "4") (js "General") medium
              [js "general"; js "learning"])
           firstId (completedRow Handler.DEFAULT_USER_ID)).
  - apply nibbles_sample.
  - vm_compute. reflexivity.
  - reflexivity.
  - vm_compute. reflexivity.
Defined.

(** C3, as stated, fails: a request without owner persists a record owned by
    the guest identifier, and the guest identifier is not a valid UUIDv4 (its
    version nibble is 5, its variant nibble 1). *)
Lemma guest_owner_not_UUIDv4 :
  sub_user_id <$>
    problem_submissions
      (Handler.serve (js "POST") (sampleEnv (textRequest None) providerAnswer)
         emptyState).2 !! firstId = Some Handler.DEFAULT_USER_ID /\
  Uuid.isValidUUID Handler.DEFAULT_USER_ID = false.
Proof. split; vm_compute; reflexivity. Qed.

(** C5, as the code has it: when the supplied owner id is not empty and fails
    the format check, the request goes on and the record is persisted with a
    generated owner, which is a valid UUIDv4, passes the format check, and is
    neither the supplied id nor the guest identifier. *)
Theorem invalid_owner_replaced_by_generated (method : jsstring) (e : Handler.env)
    (req : Handler.ProblemSubmissionRequest) (u : jsstring) (s : state) :
  method <> js "OPTIONS" ->
  configured e ->
  Handler.requestBody e = Return req ->
  ~ rejected req ->
  Handler.user_id req = Some u -> u <> [] -> Handler.isValidUUID u = false ->
  nibbles (Handler.rnd e) ->
  Handler.insertFault e = None -> idsUnused e s ->
  exists r s' problemId row,
    Handler.serve method e s = (Return r, s') /\
    problem_submissions s !! problemId = None /\
    problem_submissions s' !! problemId = Some row /\
    sub_user_id row = (Uuid.generateUUID (Handler.rnd e) (rndPos s)).1 /\
    sub_user_id row <> u /\
    sub_user_id row <> Handler.DEFAULT_USER_ID /\
    Handler.isValidUUID (sub_user_id row) = true /\
    Uuid.isValidUUID (sub_user_id row) = true.
Proof.
  intros Hm Hconf Hreq Hok Hu Hne Hinv Hr Hins Hfresh.
  rewrite (serve_body method e s Hm). unfold Handler.body. rewrite bind_run.
  destruct (prepare_accepts e req s Hconf Hreq Hok) as (userId & sr & s1 & -> & Hres & Hs1 & Hw1).
  destruct (resolveUserId_cases e _ s sr userId Hr Hres) as [Hfmt Hcase].
  rewrite Hu in Hcase. destruct u as [|c u]; [congruence|]. cbn [truthy] in Hcase.
  rewrite Hinv in Hcase. destruct Hcase as [Hgen Hv4].
  rewrite bind_run.
  destruct (persist_cases e req userId s1) as (problemId & ins & s2 & -> & Hpid & Hcases).
  assert (Hnew : problem_submissions s !! problemId = None)
    by (rewrite Hpid; apply Hfresh).
  destruct Hcases as [(msg & _ & _ & [Hf | [old Hold]]) |
                      (row & -> & _ & _ & _ & Hown & Hst & _ & Hs2 & _)];
    [congruence | rewrite Hs1 in Hold; congruence |].
  assert (Hrow : problem_submissions s2 !! problemId = Some row)
    by (rewrite Hs2; apply lookup_insert_eq).
  assert (Hfacts : sub_user_id row = (Uuid.generateUUID (Handler.rnd e) (rndPos s)).1 /\
                   sub_user_id row <> c :: u /\
                   sub_user_id row <> Handler.DEFAULT_USER_ID /\
                   Handler.isValidUUID (sub_user_id row) = true /\
                   Uuid.isValidUUID (sub_user_id row) = true).
  { rewrite Hown. repeat split; try assumption.
    - intros ->. congruence.
    - intros ->. rewrite DEFAULT_USER_ID_not_v4 in Hv4. discriminate. }
  destruct (solve_cases e problemId ins s2 row Hrow Hst)
    as (o & s3 & -> & [[Hs3 _] | (_ & row' & _ & _ & Hu' & Hs3 & _)]).
  - assert (Hfin : problem_submissions s3 !! problemId = Some row) by (now rewrite Hs3).
    destruct o; eexists _, _, problemId, row; (split; [reflexivity|]); auto.
  - assert (Hfin : problem_submissions s3 !! problemId = Some row')
      by (rewrite Hs3; apply lookup_insert_eq).
    rewrite <- Hu' in Hfacts.
    destruct o; eexists _, _, problemId, row'; (split; [reflexivity|]); auto.
Qed.

Lemma invalid_owner_replaced_by_generated_witness :
  exists r s' problemId row,
    Handler.serve (js "POST")
      (sampleEnv (textRequest (Some (js "user_123"))) providerAnswer) emptyState =
      (Return r, s') /\
    problem_submissions emptyState !! problemId = None /\
    problem_submissions s' !! problemId = Some row /\
    sub_user_id row =
      (Uuid.generateUUID
         (Handler.rnd (sampleEnv (textRequest (Some (js "user_123"))) providerAnswer))
         (rndPos emptyState)).1 /\
    sub_user_id row <> js "user_123" /\
    sub_user_id row <> Handler.DEFAULT_USER_ID /\
    Handler.isValidUUID (sub_user_id row) = true /\
    Uuid.isValidUUID (sub_user_id row) = true.
Proof.
  apply (invalid_owner_replaced_by_generated (js "POST")
           (sampleEnv (textRequest (Some (js "user_123"))) providerAnswer)
           (textRequest (Some (js "user_123"))) (js "user_123") emptyState).
  - discriminate.
  - split; reflexivity.
  - reflexivity.
  - unfold rejected. cbn. intuition discriminate.
  - reflexivity.
  - discriminate.
  - reflexivity.
  - apply nibbles_sample.
  - reflexivity.
  - intros k. apply lookup_empty.
Defined.

(** C5, as stated, fails: an empty owner id fails the validation, yet the
    record is persisted with the guest identifier as its owner. *)
Lemma empty_owner_becomes_guest :
  Handler.isValidUUID [] = false /\
  sub_user_id <$>
    problem_submissions
      (Handler.serve (js "POST") (sampleEnv (textRequest (Some [])) providerAnswer)
         emptyState).2 !! firstId = Some Handler.DEFAULT_USER_ID.
Proof. split; vm_compute; reflexivity. Qed.

(** C1: two runs in which the record is created and a later step fails.  When
    the call of the provider throws, and when the final update fails, the
    answer is a failure and the record stays at [processing]. *)
Theorem failure_after_insert_leaves_processing :
  ((Handler.serve (js "POST")
      (sampleEnv (textRequest None) (Handler.FetchThrows (js "network error")))
      emptyState).1 = Return (Handler.Failure (js "network error") None) /\
   problem_submissions stuckState !! firstId =
     Some (createdRow Handler.DEFAULT_USER_ID)) /\
  ((Handler.serve (js "POST") (failingUpdateEnv (textRequest None)) emptyState).1 =
     Return (Handler.Failure
               (js "Failed to update problem submission: connection reset") None) /\
   problem_submissions
     (Handler.serve (js "POST") (failingUpdateEnv (textRequest None)) emptyState).2
     !! firstId = Some (createdRow Handler.DEFAULT_USER_ID)).
Proof. repeat split; vm_compute; reflexivity. Qed.

(** The other failures after the insert do end at [error]: a missing key and
    a refusal of the provider, when the update goes through. *)
Lemma refusal_marks_error (e : Handler.env) (problemId : jsstring)
    (ins : Db.reply submission) (s : state) (row : submission) :
  problem_submissions s !! problemId = Some row ->
  Handler.errorUpdateFault e = None ->
  (truthy_opt (Handler.GOOGLE_API_KEY e) = false \/
   exists r, Handler.gemini e = Handler.FetchResolves r /\ Handler.ok r = false) ->
  exists row',
    problem_submissions (Handler.solve e problemId ins s).2 !! problemId = Some row' /\
    sub_status row' = error.
Proof.
  intros Hrow Hf Hcase. unfold Handler.solve.
  destruct (truthy_opt (Handler.GOOGLE_API_KEY e)) eqn:Hk; cbn [negb].
  - destruct Hcase as [|(r & -> & ->)]; [discriminate|]. cbn [negb].
    rewrite bind_run, now_run, bind_run.
    rewrite (updateSubmission_run _ problemId _ _ row) by exact Hrow.
    rewrite Hf. cbn. rewrite lookup_insert_eq. eexists. split; reflexivity.
  - rewrite bind_run, now_run, bind_run.
    rewrite (updateSubmission_run _ problemId _ _ row) by exact Hrow.
    rewrite Hf. cbn. rewrite lookup_insert_eq. eexists. split; reflexivity.
Qed.

(** * Polling *)

Lemma query_store (a : Polling.auth) (problemId : jsstring) (s : state) (row : submission) :
  problem_submissions s !! problemId = Some row -> visibleTo a row ->
  Polling.query a problemId None s = (Return {| Db.data := Some row; Db.err := None |}, s).
Proof.
  intros Hrow Hvis. unfold Polling.query, Db.selectSubmission. rewrite Hrow.
  unfold visibleTo in Hvis.
  destruct (Polling.isAuthenticated a && truthy_opt (Polling.userIdOf a)
            && Polling.isValidUUID (default [] (Polling.userIdOf a))); [|reflexivity].
  rewrite (Hvis eq_refl). now rewrite bool_decide_eq_true_2.
Qed.

(** A tick that finds the record at [processing]: it counts the attempt and
    sets the next timer, or reports the timeout at the cap; the state of the
    store is not touched. *)
Lemma poll_processing (a : Polling.auth) (problemId : jsstring) (v : Polling.vars)
    (s : state) (row : submission) :
  Polling.isValidUUID problemId = true ->
  problem_submissions s !! problemId = Some row -> sub_status row = processing ->
  visibleTo a row ->
  Polling.poll a problemId None v s =
    (Return
       (let v1 := Polling.setAttempts (Polling.attempts v + 1)
                    (Polling.setResult (Polling.newResult row) v) in
        if Polling.attempts v + 1 <? Polling.maxAttempts then Polling.setTimeout 2000 v1
        else Polling.setError (js "Problem processing timed out") v1), s).
Proof.
  intros Hid Hrow Hst Hvis. unfold Polling.poll, tryCatch.
  rewrite bind_run, throwIf_run, Hid. cbn [negb].
  rewrite bind_run, (query_store a problemId s row Hrow Hvis).
  cbn [Db.err Db.data]. rewrite Hst.
  cbn [terminal Polling.setAttempts Polling.setResult Polling.attempts].
  destruct (Polling.attempts v + 1 <? Polling.maxAttempts); reflexivity.
Qed.

(** A tick whose query fails, or whose id is malformed: the failure of the
    check is reported and no timer is set. *)
Lemma poll_query_failure (a : Polling.auth) (problemId : jsstring)
    (fate : option (outcome (Db.reply submission))) (v : Polling.vars) (s : state) :
  Polling.isValidUUID problemId = false \/ queryFails a problemId fate s ->
  exists s',
    Polling.poll a problemId fate v s =
      (Return (Polling.setError (js "Failed to check problem status") v), s') /\
    frame s s'.
Proof.
  intros H. unfold Polling.poll, tryCatch. rewrite bind_run, throwIf_run.
  destruct (Polling.isValidUUID problemId) eqn:Hid; cbn [negb].
  2:{ eexists. split; [reflexivity | apply frame_refl]. }
  destruct H as [H|H]; [discriminate|].
  unfold queryFails in H. rewrite bind_run.
  assert (Hf : frame s (Polling.query a problemId fate s).2).
  { unfold Polling.query. destruct fate as [[r|msg]|]; try apply frame_refl.
    unfold Db.selectSubmission. destruct (problem_submissions s !! problemId);
      [destruct (match _ with Some _ => _ | None => _ end)|]; apply frame_refl. }
  destruct (Polling.query a problemId fate s) as [[r|msg] s'] eqn:Hq; cbn [fst snd] in *.
  - destruct (Db.err r); [|congruence].
    eexists. split; [reflexivity | exact Hf].
  - eexists. split; [reflexivity | exact Hf].
Qed.

Lemma ticks_at_rest (fuel : nat) (a : Polling.auth) (problemId : jsstring)
    (n : Polling.net) (k : nat) (v : Polling.vars) (s : state) :
  Polling.pending v = None ->
  Polling.ticks fuel a problemId n k v s = (Return (Some (v, k)), s).
Proof. intros H. destruct fuel; cbn [Polling.ticks]; rewrite H; reflexivity. Qed.

(** From [60 - m] attempts made and a timer pending, [m] more ticks bring the
    loop to rest with the timeout reported. *)
Lemma ticks_until_timeout (a : Polling.auth) (problemId : jsstring) (n : Polling.net)
    (s : state) (row : submission) :
  Polling.isValidUUID problemId = true ->
  problem_submissions s !! problemId = Some row -> sub_status row = processing ->
  visibleTo a row -> (forall k, n k = None) ->
  forall (m fuel k : nat) (v : Polling.vars),
    (1 <= m)%nat -> (m <= fuel)%nat ->
    Polling.attempts v = 60 - Z.of_nat m -> is_Some (Polling.pending v) ->
    exists v',
      Polling.ticks fuel a problemId n k v s = (Return (Some (v', (k + m)%nat)), s) /\
      Polling.hookError v' = Some (js "Problem processing timed out") /\
      Polling.attempts v' = 60 /\
      Polling.timers v' = Polling.timers v ++ replicate (m - 1) 2000 /\
      Polling.pending v' = None.
Proof.
  intros Hid Hrow Hst Hvis Hnet.
  induction m as [|m IH]; intros fuel k v Hm Hfuel Hatt [d Hd]; [lia|].
  destruct fuel as [|fuel]; [lia|].
  cbn [Polling.ticks]. rewrite Hd, bind_run, Hnet.
  rewrite (poll_processing a problemId _ s row Hid Hrow Hst Hvis).
  cbn [Polling.fired Polling.attempts Polling.setAttempts Polling.setResult].
  rewrite Hatt. unfold Polling.maxAttempts.
  destruct (Z.ltb_spec (60 - Z.of_nat (S m) + 1) 60) as [Hlt|Hge].
  - destruct (IH fuel (S k)
                (Polling.setTimeout 2000
                   (Polling.setAttempts (60 - Z.of_nat (S m) + 1)
                      (Polling.setResult (Polling.newResult row) (Polling.fired v)))))
      as (v' & Hrun & He & Ha & Ht & Hp).
    + lia.
    + lia.
    + cbn. lia.
    + cbn. eauto.
    + cbn [Polling.setTimeout Polling.setAttempts Polling.setResult Polling.fired
             Polling.result Polling.hookError Polling.attempts Polling.timers
             Polling.pending] in Hrun.
      rewrite Hrun. exists v'. split; [do 4 f_equal; lia|].
      split; [exact He|]. split; [exact Ha|]. split; [|exact Hp].
      rewrite Ht. cbn [Polling.timers Polling.setTimeout Polling.setAttempts
                         Polling.setResult Polling.fired].
      rewrite <- app_assoc. f_equal.
      replace (S m - 1)%nat with (S (m - 1)) by lia. reflexivity.
  - assert (m = 0%nat) by lia. subst m.
    rewrite ticks_at_rest by reflexivity.
    eexists. split; [do 4 f_equal; lia|].
    cbn. split; [reflexivity|]. split; [lia|].
    split; [now rewrite app_nil_r | reflexivity].
Qed.

(** C7: when the record stays at [processing], [pollForCompletion] runs 60
    ticks, the first after 1 second and the others 2 seconds apart, and
    then reports the timeout.  The state it ends in is the state it started
    from: nothing was written, and the record is still at [processing]. *)
Theorem polling_times_out_without_writing (fuel : nat) (a : Polling.auth)
    (problemId : jsstring) (n : Polling.net) (res : option Polling.ProblemResult)
    (err : option jsstring) (s : state) (row : submission) :
  (60 <= fuel)%nat ->
  Polling.isValidUUID problemId = true ->
  problem_submissions s !! problemId = Some row -> sub_status row = processing ->
  visibleTo a row -> (forall k, n k = None) ->
  exists v,
    Polling.pollForCompletion fuel a problemId n res err s =
      (Return (Some (v, 60%nat)), s) /\
    Polling.hookError v = Some (js "Problem processing timed out") /\
    Polling.attempts v = Polling.maxAttempts /\
    Polling.timers v = 1000 :: replicate 59 2000 /\
    Polling.pending v = None.
Proof.
  intros Hfuel Hid Hrow Hst Hvis Hnet. unfold Polling.pollForCompletion.
  destruct (ticks_until_timeout a problemId n s row Hid Hrow Hst Hvis Hnet 60 fuel 0
              (Polling.setTimeout 1000
                 {| Polling.result := res; Polling.hookError := err;
                    Polling.attempts := 0; Polling.timers := [];
                    Polling.pending := None |}))
    as (v & Hrun & He & Ha & Ht & Hp); [lia | lia | reflexivity | cbn; eauto |].
  exists v. split; [exact Hrun|]. repeat split; assumption.
Qed.

Lemma polling_times_out_without_writing_witness :
  exists v,
    Polling.pollForCompletion 60 guest firstId (fun _ => None) None None stuckState =
      (Return (Some (v, 60%nat)), stuckState) /\
    Polling.hookError v = Some (js "Problem processing timed out") /\
    Polling.attempts v = Polling.maxAttempts /\
    Polling.timers v = 1000 :: replicate 59 2000 /\
    Polling.pending v = None.
Proof.
  apply (polling_times_out_without_writing 60 guest firstId (fun _ => None) None None
           stuckState (createdRow Handler.DEFAULT_USER_ID)).
  - lia.
  - reflexivity.
  - vm_compute. reflexivity.
  - reflexivity.
  - intros H. discriminate H.
  - reflexivity.
Defined.

(** A tick that finds the record at [error] reports the stored message, or
    "Problem processing failed" when there is none, and sets no timer. *)
Lemma poll_error (a : Polling.auth) (problemId : jsstring) (v : Polling.vars)
    (s : state) (row : submission) :
  Polling.isValidUUID problemId = true ->
  problem_submissions s !! problemId = Some row -> sub_status row = error ->
  visibleTo a row ->
  Polling.poll a problemId None v s =
    (Return
       (Polling.setError (or_else (sub_error_message row) (js "Problem processing failed"))
          (Polling.setResult (Polling.newResult row) v)), s).
Proof.
  intros Hid Hrow Hst Hvis. unfold Polling.poll, tryCatch.
  rewrite bind_run, throwIf_run, Hid. cbn [negb].
  rewrite bind_run, (query_store a problemId s row Hrow Hvis).
  cbn [Db.err Db.data]. rewrite Hst. reflexivity.
Qed.

Lemma handlerMessage_distinct (m : option jsstring) :
  (forall t, m = Some t -> handlerMessage t) ->
  or_else m (js "Problem processing failed") <> js "Failed to check problem status".
Proof.
  intros Hm. destruct m as [t|]; [|discriminate].
  destruct (Hm t eq_refl) as [-> | [digits ->]]; [discriminate|].
  discriminate.
Qed.

(** C6, as the code has it: a tick whose status query fails reports
    "Failed to check problem status", which no report of a failed processing
    equals, and it ends the polling: no timer is set, whatever the number of
    attempts made. *)
Theorem failed_status_check_reported_and_polling_stops (a : Polling.auth)
    (problemId : jsstring) (fate : option (outcome (Db.reply submission)))
    (v : Polling.vars) (s : state) :
  (Polling.isValidUUID problemId = false \/ queryFails a problemId fate s ->
   exists v' s',
     Polling.poll a problemId fate (Polling.fired v) s = (Return v', s') /\
     frame s s' /\
     Polling.hookError v' = Some (js "Failed to check problem status") /\
     Polling.pending v' = None /\
     Polling.attempts v' = Polling.attempts v /\
     Polling.timers v' = Polling.timers v) /\
  (forall row,
     Polling.isValidUUID problemId = true ->
     problem_submissions s !! problemId = Some row -> visibleTo a row ->
     sub_status row = error ->
     (forall t, sub_error_message row = Some t -> handlerMessage t) ->
     exists v' msg,
       Polling.poll a problemId None (Polling.fired v) s = (Return v', s) /\
       Polling.hookError v' = Some msg /\
       msg <> js "Failed to check problem status" /\
       Polling.pending v' = None).
Proof.
  split.
  - intros H.
    destruct (poll_query_failure a problemId fate (Polling.fired v) s H) as (s' & -> & Hf).
    eexists _, _. split; [reflexivity|]. repeat split; apply Hf || reflexivity.
  - intros row Hid Hrow Hvis Hst Hmsg.
    rewrite (poll_error a problemId _ s row Hid Hrow Hst Hvis).
    eexists _, _. split; [reflexivity|]. split; [reflexivity|].
    split; [now apply handlerMessage_distinct | reflexivity].
Qed.

Lemma failed_status_check_reported_and_polling_stops_witness :
  exists v' s',
    Polling.poll guest firstId
      (Some (Return {| Db.data := None; Db.err := Some (js "fetch failed") |}))
      (Polling.fired
         (Polling.setTimeout 1000
            {| Polling.result := None; Polling.hookError := None;
               Polling.attempts := 0; Polling.timers := [];
               Polling.pending := None |})) stuckState = (Return v', s') /\
    frame stuckState s' /\
    Polling.hookError v' = Some (js "Failed to check problem status") /\
    Polling.pending v' = None /\
    Polling.attempts v' = 0 /\
    Polling.timers v' = [1000].
Proof.
  apply (failed_status_check_reported_and_polling_stops guest firstId
           (Some (Return {| Db.data := None; Db.err := Some (js "fetch failed") |}))
           (Polling.setTimeout 1000
              {| Polling.result := None; Polling.hookError := None;
                 Polling.attempts := 0; Polling.timers := [];
                 Polling.pending := None |}) stuckState).
  right. unfold queryFails. cbn. discriminate.
Defined.

(** C6, as stated, fails: the first tick finds the query failing; no attempt
    has been counted and no terminal status observed, yet no further tick is
    scheduled: the loop is at rest after that one tick. *)
Lemma failed_status_check_ends_polling :
  exists v,
    Polling.pollForCompletion 60 guest firstId
      (fun _ => Some (Return {| Db.data := None; Db.err := Some (js "fetch failed") |}))
      None None stuckState = (Return (Some (v, 1%nat)), stuckState) /\
    Polling.attempts v < Polling.maxAttempts /\
    Polling.result v = None /\
    Polling.timers v = [1000] /\
    Polling.pending v = None.
Proof. eexists. split; [vm_compute; reflexivity|]. repeat split. Qed.

(** * Sessions *)

Lemma logSecurityEvent_returns (e : Session.env) (userId : option jsstring)
    (action resourceType : jsstring) (resourceId : option jsstring) (s : state) :
  exists s',
    Session.logSecurityEvent e userId action resourceType resourceId s = (Return tt, s') /\
    learning_sessions s' = learning_sessions s.
Proof.
  unfold Session.logSecurityEvent, tryCatch. rewrite bind_run, now_run.
  unfold Db.insertAudit. destruct (Session.auditFault e); eexists; split; reflexivity.
Qed.

(** [endSession] on a stored session of the user, when the store takes the
    update: the row gets its end time and the hook forgets the session. *)
Lemma endSession_ends (e : Session.env) (h : Session.hook) (s : state)
    (sid uid : jsstring) (row : session_row) :
  sid <> [] -> Session.user h = Some uid -> uid <> [] ->
  learning_sessions s !! sid = Some row -> ses_user_id row = uid ->
  Session.updateFault e = None ->
  exists h' s' row',
    Session.endSession e (Some sid) h s = (Return (true, h'), s') /\
    Session.session h' = None /\
    learning_sessions s' !! sid = Some row' /\
    ses_session_end row' = Some (Session.clock e (clockPos s)).
Proof.
  intros Hsid Hu Huid Hrow Hown Hf. unfold Session.endSession.
  destruct sid as [|c sid]; [congruence|]. cbn [or_null truthy].
  rewrite Hu. destruct uid as [|c' uid]; [congruence|]. cbn [or_null truthy].
  unfold tryCatch. rewrite bind_run, now_run, bind_run.
  unfold Db.updateSession. rewrite Hf. cbn [learning_sessions with_clockPos].
  rewrite Hrow, Hown, bool_decide_eq_true_2 by reflexivity.
  rewrite bind_run.
  match goal with
  | |- context [Session.logSecurityEvent ?e ?u ?a ?t ?r ?st] =>
      destruct (logSecurityEvent_returns e u a t r st) as (s' & -> & Hs')
  end.
  eexists _, _, _. split; [reflexivity|]. split; [reflexivity|].
  rewrite Hs'. cbn [learning_sessions with_sessions]. rewrite lookup_insert_eq.
  split; reflexivity.
Qed.

(** [endSession] never throws. *)
Lemma endSession_returns (e : Session.env) (sessionId : option jsstring)
    (h : Session.hook) (s : state) :
  exists b h' s', Session.endSession e sessionId h s = (Return (b, h'), s').
Proof.
  unfold Session.endSession.
  destruct (or_null _) as [target|]; [|eexists _, _, _; reflexivity].
  destruct (or_null (Session.user h)) as [uid|]; [|eexists _, _, _; reflexivity].
  unfold tryCatch. rewrite bind_run, now_run, bind_run.
  destruct (Db.updateSession _ _ _ _ _) as [[[msg|]|msg] s1];
    try (eexists _, _, _; reflexivity).
  rewrite bind_run.
  match goal with
  | |- context [Session.logSecurityEvent ?e ?u ?a ?t ?r ?st] =>
      destruct (logSecurityEvent_returns e u a t r st) as (s' & -> & _)
  end.
  eexists _, _, _; reflexivity.
Qed.

(** [endSession] when the store refuses the update: the failure is shown and
    the session stays, in the hook and in the store. *)
Lemma endSession_refused (e : Session.env) (h : Session.hook) (s : state)
    (sid uid msg : jsstring) :
  sid <> [] -> Session.user h = Some uid -> uid <> [] ->
  Session.updateFault e = Some msg ->
  Session.endSession e (Some sid) h s =
    (Return (false, Session.setError (Some (js "Failed to end session")) h),
     with_clockPos (S (clockPos s)) s).
Proof.
  intros Hsid Hu Huid Hf. unfold Session.endSession.
  destruct sid as [|c sid]; [congruence|]. cbn [or_null truthy].
  rewrite Hu. destruct uid as [|c' uid]; [congruence|]. cbn [or_null truthy].
  unfold tryCatch. rewrite bind_run, now_run, bind_run.
  unfold Db.updateSession. rewrite Hf. reflexivity.
Qed.

(** C9, as the code has it: for a session of the user that is in the store,
    the check fails exactly when more than 60 minutes have passed since its
    start; then [endSession] is called, which, when the store takes the
    update, sets the end time of the row and clears the session of the hook,
    and, when the store refuses the update, shows the failure and leaves the
    session in the hook and the row not ended.  Otherwise the check succeeds
    and leaves the session as it is.  When the session cannot be loaded the
    check fails and clears the session of the hook. *)
Theorem validateSessionSecurity_one_hour (e : Session.env) (h : Session.hook) (s : state)
    (ss : Session.SecureSession) (uid : jsstring) :
  Session.session h = Some ss -> Session.id ss <> [] ->
  Session.user h = Some uid -> uid <> [] ->
  (forall row,
     Session.selectFault e = None ->
     learning_sessions s !! Session.id ss = Some row -> ses_user_id row = uid ->
     let elapsed := Session.clock e (clockPos s) - ses_session_start row in
     (elapsed > 60 * 60 * 1000 ->
      exists h' s',
        Session.validateSessionSecurity e h s = (Return (false, h'), s') /\
        (Session.updateFault e = None ->
         Session.session h' = None /\
         exists row',
           learning_sessions s' !! Session.id ss = Some row' /\
           ses_session_end row' = Some (Session.clock e (S (clockPos s)))) /\
        (Session.updateFault e <> None ->
         Session.session h' = Some ss /\
         Session.hookError h' = Some (js "Failed to end session") /\
         learning_sessions s' = learning_sessions s)) /\
     (elapsed <= 60 * 60 * 1000 ->
      exists s',
        Session.validateSessionSecurity e h s = (Return (true, h), s') /\
        learning_sessions s' = learning_sessions s)) /\
  ((Session.selectFault e <> None \/
    learning_sessions s !! Session.id ss = None \/
    exists row, learning_sessions s !! Session.id ss = Some row /\ ses_user_id row <> uid) ->
   Session.validateSessionSecurity e h s = (Return (false, Session.setSession None h), s)).
Proof.
  intros Hss Hid Hu Huid.
  assert (Hsid : or_null (Session.id <$> Session.session h) = Some (Session.id ss)).
  { rewrite Hss. cbn. destruct (Session.id ss); [congruence | reflexivity]. }
  assert (Huser : or_null (Session.user h) = Some uid).
  { rewrite Hu. cbn. destruct uid; [congruence | reflexivity]. }
  split.
  - intros row Hf Hrow Hown elapsed. subst elapsed.
    unfold Session.validateSessionSecurity, tryCatch.
    rewrite Hsid, Huser, bind_run.
    unfold Db.selectSession. rewrite Hf, Hrow, Hown, bool_decide_eq_true_2 by reflexivity.
    cbn [Db.err Db.data]. rewrite bind_run, now_run.
    split.
    + intros Hlate.
      destruct (Z.gtb_spec (Session.clock e (clockPos s) - ses_session_start row)
                  (1000 * 60 * 60)); [|lia].
      rewrite bind_run.
      destruct (endSession_returns e (Some (Session.id ss)) h
                  (with_clockPos (S (clockPos s)) s)) as (b & h' & s' & Hend).
      rewrite Hend. eexists _, _. split; [reflexivity|]. split.
      * intros Hupd.
        destruct (endSession_ends e h (with_clockPos (S (clockPos s)) s)
                    (Session.id ss) (ses_user_id row) row)
          as (h2 & s2 & row' & Hend' & Hnone & Hrow' & Hendtime); auto; [congruence..|].
        rewrite Hend in Hend'. injection Hend' as _ <- <-.
        split; [exact Hnone|]. exists row'. split; [exact Hrow' | exact Hendtime].
      * intros Hupd.
        destruct (Session.updateFault e) as [msg|] eqn:Hfault; [|congruence].
        rewrite (endSession_refused e h (with_clockPos (S (clockPos s)) s)
                   (Session.id ss) uid msg Hid Hu Huid Hfault) in Hend.
        injection Hend as _ <- <-. cbn. split; [exact Hss|]. split; reflexivity.
    + intros Hearly.
      destruct (Z.gtb_spec (Session.clock e (clockPos s) - ses_session_start row)
                  (1000 * 60 * 60)); [lia|].
      eexists. split; reflexivity.
  - intros Hcannot.
    unfold Session.validateSessionSecurity, tryCatch.
    rewrite Hsid, Huser, bind_run. unfold Db.selectSession.
    destruct (Session.selectFault e) as [code|]; [reflexivity|].
    destruct Hcannot as [Hc | [Hc | (row & Hrow & Hown)]]; [congruence| |].
    + rewrite Hc. reflexivity.
    + rewrite Hrow, bool_decide_eq_false_2 by exact Hown. reflexivity.
Qed.

Lemma validateSessionSecurity_one_hour_witness :
  (exists h' s',
     Session.validateSessionSecurity sessionEnv sampleHook (sessionState 61) =
       (Return (false, h'), s') /\
     (Session.updateFault sessionEnv = None ->
      Session.session h' = None /\
      exists row',
        learning_sessions s' !! js "s1" = Some row' /\
        ses_session_end row' = Some (60000 * 62))) /\
  (exists s',
     Session.validateSessionSecurity sessionEnv sampleHook (sessionState 60) =
       (Return (true, sampleHook), s') /\
     learning_sessions s' = learning_sessions (sessionState 60)).
Proof.
  split.
  - destruct (validateSessionSecurity_one_hour sessionEnv sampleHook (sessionState 61)
                sampleSession (js "u1")) as [H _];
      [reflexivity | discriminate | reflexivity | discriminate |].
    destruct (H {| ses_user_id := js "u1"; ses_session_start := 0;
                   ses_session_end := None; ses_session_metadata := ∅ |})
      as [Hlate _]; [reflexivity | reflexivity | reflexivity |].
    destruct Hlate as (h' & s' & Hrun & Hends & _); [vm_compute; reflexivity|].
    exists h', s'. split; [exact Hrun | exact Hends].
  - destruct (validateSessionSecurity_one_hour sessionEnv sampleHook (sessionState 60)
                sampleSession (js "u1")) as [H _];
      [reflexivity | discriminate | reflexivity | discriminate |].
    destruct (H {| ses_user_id := js "u1"; ses_session_start := 0;
                   ses_session_end := None; ses_session_metadata := ∅ |})
      as [_ Hearly]; [reflexivity | reflexivity | reflexivity |].
    apply Hearly. vm_compute. discriminate.
Defined.

(** C9, as stated, fails: the session started 61 minutes ago and the store
    refuses the update of [endSession]; the check fails, but the session is
    still in the hook and the row is not ended. *)
Lemma refused_update_keeps_expired_session :
  Session.clock refusingEnv (clockPos (sessionState 61)) - 0 > 60 * 60 * 1000 /\
  exists h' s',
    Session.validateSessionSecurity refusingEnv sampleHook (sessionState 61) =
      (Return (false, h'), s') /\
    Session.session h' = Some sampleSession /\
    Session.session h' <> None /\
    exists row,
      learning_sessions s' !! js "s1" = Some row /\ ses_session_end row = None.
Proof.
  split; [vm_compute; reflexivity|].
  eexists _, _. split; [vm_compute; reflexivity|].
  split; [reflexivity|]. split; [discriminate|].
  eexists. split; [vm_compute; reflexivity | reflexivity].
Qed.

(** * utils/uuid.ts: the hash and the shape of the derived ids *)

Lemma toInt32_mod (a b : Z) : a mod 2 ^ 32 = b mod 2 ^ 32 -> toInt32 a = toInt32 b.
Proof.
  intros H. unfold toInt32.
  rewrite <- (Zplus_mod_idemp_l a), H, Zplus_mod_idemp_l. reflexivity.
Qed.

Lemma toInt32_mod_eq (a : Z) : toInt32 a mod 2 ^ 32 = a mod 2 ^ 32.
Proof.
  unfold toInt32.
  rewrite <- Zminus_mod_idemp_l, Z.mod_mod by lia.
  rewrite Zminus_mod_idemp_l. f_equal. lia.
Qed.

Lemma hashStep_31 (h c : Z) : Uuid.hashStep h c = toInt32 (31 * h + c).
Proof.
  rewrite hashStep_eq. apply toInt32_mod. unfold shl32.
  rewrite Z.shiftl_mul_pow2 by lia.
  rewrite <- Zplus_mod_idemp_l, <- Zminus_mod_idemp_l, toInt32_mod_eq.
  rewrite <- Zmult_mod_idemp_l, toInt32_mod_eq, Zmult_mod_idemp_l.
  rewrite Zminus_mod_idemp_l, Zplus_mod_idemp_l. f_equal. lia.
Qed.

Lemma hashLoop_range (s : jsstring) : - 2 ^ 31 <= Uuid.hashLoop s < 2 ^ 31.
Proof.
  unfold Uuid.hashLoop.
  assert (H : forall h, - 2 ^ 31 <= h < 2 ^ 31 ->
                        - 2 ^ 31 <= fold_left Uuid.hashStep s h < 2 ^ 31).
  { induction s as [|c s IH]; intros h Hh; [exact Hh|].
    simpl. apply IH. rewrite hashStep_31. apply toInt32_range. }
  apply H. lia.
Qed.

(** X1: the hash of [stringToUUID] is the recurrence [h' = 31 * h + c] of
    Java's [String.hashCode], reduced to a signed 32-bit integer after every
    character; it starts from 0 and stays a 32-bit integer. *)
Theorem hashLoop_is_hashCode (s : jsstring) (c : Z) :
  Uuid.hashLoop [] = 0 /\
  Uuid.hashLoop (s ++ [c]) = toInt32 (31 * Uuid.hashLoop s + c) /\
  - 2 ^ 31 <= Uuid.hashLoop s < 2 ^ 31.
Proof.
  split; [reflexivity|]. split; [|apply hashLoop_range].
  unfold Uuid.hashLoop. rewrite fold_left_app. simpl. apply hashStep_31.
Qed.

Lemma digitsLoop_acc (radix : Z) (fuel : nat) : forall n acc,
  digitsLoop radix fuel n acc = digitsLoop radix fuel n [] ++ acc.
Proof.
  induction fuel as [|fuel IH]; intros n acc; simpl; [reflexivity|].
  destruct (n <? radix); [reflexivity|].
  rewrite IH, (IH _ [_]), <- app_assoc. reflexivity.
Qed.

Lemma fixedHex_length (w : nat) : forall n, length (fixedHex w n) = w.
Proof.
  induction w as [|w IH]; intros n; simpl; [reflexivity|].
  rewrite length_app, IH. simpl. lia.
Qed.

Lemma fixedHex_hex (w : nat) : forall n, allHex (fixedHex w n).
Proof.
  induction w as [|w IH]; intros n; simpl; [constructor|].
  apply Forall_app. split; [apply IH|].
  constructor; [|constructor]. apply digitChar_hex. apply Z.mod_pos_bound. lia.
Qed.

Lemma fixedHex_zero (w : nat) : fixedHex w 0 = replicate w 48.
Proof.
  induction w as [|w IH]; [reflexivity|].
  simpl fixedHex. rewrite Zdiv_0_l, IH. change (digitChar (0 mod 16)) with 48.
  clear IH. induction w as [|w IH]; [reflexivity|].
  simpl. f_equal. exact IH.
Qed.

(** Zero-padding the digits written by [toString(16)] to a width gives the
    digits of that width. *)
Lemma digitsLoop_fixedHex (fuel : nat) : forall (w : nat) n,
  0 <= n -> n < 16 ^ Z.of_nat fuel -> n < 16 ^ Z.of_nat w ->
  (1 <= fuel)%nat -> (1 <= w)%nat ->
  replicate (w - length (digitsLoop 16 fuel n [])) 48 ++ digitsLoop 16 fuel n [] =
  fixedHex w n.
Proof.
  induction fuel as [|fuel IH]; intros w n Hn Hf Hw Hfuel Hw1; [lia|].
  destruct w as [|w]; [lia|].
  simpl digitsLoop. simpl fixedHex.
  destruct (Z.ltb_spec n 16) as [Hlt|Hge].
  - rewrite Z.div_small, Z.mod_small, fixedHex_zero by lia.
    simpl length. replace (S w - 1)%nat with w by lia. reflexivity.
  - rewrite digitsLoop_acc, length_app. simpl length.
    rewrite Nat2Z.inj_succ, Z.pow_succ_r in Hf, Hw by lia.
    assert (Hq : n / 16 < 16 ^ Z.of_nat fuel) by (apply Z.div_lt_upper_bound; lia).
    assert (Hq' : n / 16 < 16 ^ Z.of_nat w) by (apply Z.div_lt_upper_bound; lia).
    assert (1 <= n / 16) by (apply Z.div_le_lower_bound; lia).
    assert (1 <= fuel)%nat by (destruct fuel; [simpl in Hq; lia | lia]).
    assert (1 <= w)%nat by (destruct w; [simpl in Hq'; lia | lia]).
    rewrite <- (IH w (n / 16)) by lia.
    rewrite <- app_assoc. f_equal. f_equal. lia.
Qed.

Lemma toStringRadix_fixedHex (w : nat) (n : Z) :
  0 <= n -> n < 16 ^ Z.of_nat w -> (1 <= w)%nat ->
  replicate (w - length (toStringRadix 16 n)) 48 ++ toStringRadix 16 n = fixedHex w n.
Proof.
  intros Hn Hw Hw1. unfold toStringRadix. apply digitsLoop_fixedHex; try lia.
  destruct (Z.eq_dec n 0) as [->|Hne]; [simpl; lia|].
  pose proof (Z.log2_spec n ltac:(lia)) as [_ Hup].
  rewrite Nat2Z.inj_succ, Z2Nat.id by apply Z.log2_nonneg.
  eapply Z.lt_le_trans; [exact Hup|]. apply Z.pow_le_mono_l. lia.
Qed.

Lemma toStringRadix_length (w : nat) (n : Z) :
  0 <= n -> n < 16 ^ Z.of_nat w -> (1 <= w)%nat ->
  (1 <= length (toStringRadix 16 n) <= w)%nat.
Proof.
  intros Hn Hw Hw1.
  pose proof (toStringRadix_fixedHex w n Hn Hw Hw1) as H.
  apply (f_equal length) in H.
  rewrite length_app, length_replicate, fixedHex_length in H.
  split; [|lia].
  unfold toStringRadix. simpl. destruct (n <? 16); [simpl; lia|].
  rewrite digitsLoop_acc, length_app. simpl. lia.
Qed.

Lemma padLoop_replicate (fuel : nat) : forall t,
  (32 <= fuel + length t)%nat ->
  Uuid.padLoop fuel t = replicate (32 - length t) 48 ++ t.
Proof.
  induction fuel as [|fuel IH]; intros t H; simpl.
  - replace (32 - length t)%nat with 0%nat by lia. reflexivity.
  - destruct (Nat.ltb_spec (length t) 32).
    + rewrite IH by (simpl; lia). simpl length.
      replace (32 - length t)%nat with (S (32 - S (length t))) by lia.
      rewrite cons_middle, app_assoc, <- replicate_cons_app. reflexivity.
    + replace (32 - length t)%nat with 0%nat by lia. reflexivity.
Qed.

(** [hashHex] is the number written with 32 hexadecimal digits. *)
Lemma hashHexOf_fixedHex (n : Z) :
  0 <= n -> n < 16 ^ 32 -> Uuid.hashHexOf n = fixedHex 32 n.
Proof.
  intros Hn Hlt. unfold Uuid.hashHexOf.
  pose proof (toStringRadix_length 32 n Hn Hlt ltac:(lia)) as Hlen.
  rewrite padLoop_replicate by lia.
  rewrite (toStringRadix_fixedHex 32 n Hn Hlt) by lia.
  rewrite fixedHex_length. reflexivity.
Qed.

Lemma fixedHex_split (a b : nat) : forall n,
  0 <= n ->
  fixedHex (a + b) n = fixedHex a (n / 16 ^ Z.of_nat b) ++ fixedHex b n.
Proof.
  induction b as [|b IH]; intros n Hn.
  - rewrite Nat.add_0_r, Z.pow_0_r, Z.div_1_r, app_nil_r. reflexivity.
  - replace (a + S b)%nat with (S (a + b)) by lia. simpl fixedHex.
    rewrite IH by (apply Z.div_pos; lia).
    rewrite Z.div_div by lia.
    rewrite Nat2Z.inj_succ, Z.pow_succ_r by lia.
    rewrite <- app_assoc. reflexivity.
Qed.

(** The closed form of [stringToUUID]. *)
Lemma stringToUUID_closed_form (s : jsstring) :
  s <> [] ->
  Uuid.stringToUUID s =
    Return (js "00000000-0000-4000-8000-00000" ++
            fixedHex 7 (Z.abs (Uuid.hashLoop s) / 16)).
Proof.
  intros Hs. unfold Uuid.stringToUUID.
  destruct s as [|c s]; [congruence|]. cbn [truthy negb].
  set (n := Z.abs (Uuid.hashLoop (c :: s))).
  assert (Hn : 0 <= n <= 2 ^ 31)
    by (pose proof (hashLoop_range (c :: s)); unfold n; lia).
  f_equal.
  rewrite hashHexOf_fixedHex by lia.
  change (fixedHex 32 n) with (fixedHex (24 + 8) n).
  rewrite (fixedHex_split 24 8 n) by lia.
  rewrite Z.div_small, fixedHex_zero by lia.
  change (fixedHex 8 n) with (fixedHex 7 (n / 16) ++ [digitChar (n mod 16)]).
  pose proof (fixedHex_length 7 (n / 16)) as Hlen.
  destruct (fixedHex 7 (n / 16)) as [|d1 [|d2 [|d3 [|d4 [|d5 [|d6 [|d7 [|]]]]]]]];
    try discriminate Hlen.
  reflexivity.
Qed.

(** X2: on a non-empty string [stringToUUID] returns
    [00000000-0000-4000-8000-00000] followed by the seven hexadecimal digits
    of [|hash| / 16]: of the 32-bit hash the last four bits are dropped and
    nothing else of the string enters the id, so two strings whose hashes
    agree up to those bits get the same id. *)
Theorem stringToUUID_closed_form_and_collisions (s1 s2 : jsstring) :
  s1 <> [] -> s2 <> [] ->
  Uuid.stringToUUID s1 =
    Return (js "00000000-0000-4000-8000-00000" ++
            fixedHex 7 (Z.abs (Uuid.hashLoop s1) / 16)) /\
  (Z.abs (Uuid.hashLoop s1) / 16 = Z.abs (Uuid.hashLoop s2) / 16 ->
   Uuid.stringToUUID s1 = Uuid.stringToUUID s2).
Proof.
  intros H1 H2. split; [now apply stringToUUID_closed_form|].
  intros H. rewrite !stringToUUID_closed_form by assumption. now rewrite H.
Qed.

Lemma stringToUUID_closed_form_and_collisions_witness :
  Uuid.stringToUUID (js "a") = Uuid.stringToUUID (js "b").
Proof.
  apply (stringToUUID_closed_form_and_collisions (js "a") (js "b"));
    [discriminate | discriminate | reflexivity].
Defined.

Lemma replaceXY_pos (rnd : nat -> Z) (t : jsstring) : forall k,
  (Uuid.replaceXY rnd k t).2 = (k + holes t)%nat.
Proof.
  induction t as [|c t IH]; intros k; simpl; [lia|].
  destruct ((c =? 120) || (c =? 121)).
  - specialize (IH (S k)). destruct (Uuid.replaceXY rnd (S k) t). simpl in *. lia.
  - specialize (IH k). destruct (Uuid.replaceXY rnd k t). simpl in *. lia.
Qed.

(** X3: whatever the random draws (integers from 0 to 15), [generateUUID]
    returns a string of 36 code units that passes the strict UUIDv4
    validation, and it uses exactly 31 draws. *)
Theorem generateUUID_always_valid (rnd : nat -> Z) (k : nat) :
  nibbles rnd ->
  Uuid.isValidUUID (Uuid.generateUUID rnd k).1 = true /\
  length (Uuid.generateUUID rnd k).1 = 36%nat /\
  (Uuid.generateUUID rnd k).2 = (k + 31)%nat.
Proof.
  intros Hr. pose proof (generateUUID_valid rnd k Hr) as Hv.
  split; [exact Hv|]. split.
  - unfold Uuid.isValidUUID in Hv.
    destruct (negb (truthy (Uuid.generateUUID rnd k).1)); [discriminate|].
    apply matches_length in Hv. rewrite Hv. reflexivity.
  - unfold Uuid.generateUUID. rewrite replaceXY_pos. reflexivity.
Qed.

Lemma generateUUID_always_valid_witness :
  Uuid.isValidUUID (Uuid.generateUUID (fun n => Z.of_nat n mod 16) 0).1 = true /\
  length (Uuid.generateUUID (fun n => Z.of_nat n mod 16) 0).1 = 36%nat /\
  (Uuid.generateUUID (fun n => Z.of_nat n mod 16) 0).2 = (0 + 31)%nat.
Proof.
  apply (generateUUID_always_valid (fun n => Z.of_nat n mod 16) 0).
  intros i. apply Z.mod_pos_bound. lia.
Defined.

(** X4: every string the strict validation of [utils/uuid.ts] accepts has 36
    code units and is accepted by the format checks of the edge function and
    of the submission hook; the converse fails, the default user id being
    accepted by the format checks only. *)
Theorem strict_validation_within_format_checks :
  (forall u, Uuid.isValidUUID u = true ->
     length u = 36%nat /\ Handler.isValidUUID u = true /\ Polling.isValidUUID u = true) /\
  exists u, Handler.isValidUUID u = true /\ Polling.isValidUUID u = true /\
            Uuid.isValidUUID u = false.
Proof.
  split.
  - intros u Hu. pose proof (strict_valid_format u Hu) as Hf.
    split; [|split; exact Hf].
    apply matches_length in Hf. rewrite Hf. reflexivity.
  - exists Handler.DEFAULT_USER_ID. repeat split; reflexivity.
Qed.

Lemma strict_validation_within_format_checks_witness :
  length firstId = 36%nat /\ Handler.isValidUUID firstId = true /\
  Polling.isValidUUID firstId = true.
Proof.
  destruct strict_validation_within_format_checks as [H _].
  apply (H firstId). reflexivity.
Defined.

(** * lib/security.ts: more on the rate limiter *)

(** The answer to a call, and the entry it leaves, depend on the entry of
    the identifier only. *)
Lemma checkRateLimit_local (config : RateLimit.SecurityConfig) (now : Z)
    (identifier : jsstring) (c1 c2 : gmap (list Z) RateLimit.bucket) :
  c1 !! identifier = c2 !! identifier ->
  (RateLimit.checkRateLimit config now identifier c1).1 =
    (RateLimit.checkRateLimit config now identifier c2).1 /\
  (RateLimit.checkRateLimit config now identifier c1).2 !! identifier =
    (RateLimit.checkRateLimit config now identifier c2).2 !! identifier.
Proof.
  intros H. unfold RateLimit.checkRateLimit. rewrite <- H.
  destruct (c1 !! identifier) as [b|] eqn:E.
  - destruct (now >? RateLimit.resetTime b);
      [cbn [fst snd]; rewrite !lookup_insert_eq; auto|].
    destruct (RateLimit.count b >=? RateLimit.maxRequestsPerMinute config);
      cbn [fst snd]; [rewrite E, <- H; auto | rewrite !lookup_insert_eq; auto].
  - cbn [fst snd]. rewrite !lookup_insert_eq. auto.
Qed.

(** X5: the limiter keeps one window per identifier.  In a sequence of calls
    for several identifiers, the answers given to one identifier, and the
    entry left for it, are those of its own calls alone. *)
Theorem rate_limit_per_identifier (config : RateLimit.SecurityConfig)
    (identifier : jsstring) (l : list (jsstring * Z))
    (cache : gmap (list Z) RateLimit.bucket) :
  answersTo identifier l (callsMixed config l cache).1 =
    (RateLimit.calls config identifier (timesOf identifier l) cache).1 /\
  (callsMixed config l cache).2 !! identifier =
    (RateLimit.calls config identifier (timesOf identifier l) cache).2 !! identifier.
Proof.
  assert (H : forall c1 c2 : gmap (list Z) RateLimit.bucket,
    c1 !! identifier = c2 !! identifier ->
    answersTo identifier l (callsMixed config l c1).1 =
      (RateLimit.calls config identifier (timesOf identifier l) c2).1 /\
    (callsMixed config l c1).2 !! identifier =
      (RateLimit.calls config identifier (timesOf identifier l) c2).2 !! identifier).
  { induction l as [|[k t] l IH]; intros c1 c2 Hc; [split; [reflexivity | exact Hc]|].
    cbn [callsMixed timesOf].
    destruct (RateLimit.checkRateLimit config t k c1) as [r c1'] eqn:E1.
    destruct (callsMixed config l c1') as [rs c1''] eqn:E2.
    cbn [fst snd answersTo].
    case_bool_decide as Hk.
    - subst k. cbn [RateLimit.calls].
      destruct (RateLimit.checkRateLimit config t identifier c2) as [r2 c2'] eqn:E3.
      destruct (checkRateLimit_local config t identifier c1 c2 Hc) as [Hr Hl].
      rewrite E1, E3 in Hr, Hl. cbn [fst snd] in Hr, Hl. subst r2.
      destruct (IH c1' c2' Hl) as [Ha Hb]. rewrite E2 in Ha, Hb. cbn [fst snd] in Ha, Hb.
      destruct (RateLimit.calls config identifier (timesOf identifier l) c2').
      cbn [fst snd] in *. split; [now f_equal | exact Hb].
    - assert (Hl : c1' !! identifier = c2 !! identifier).
      { rewrite <- Hc.
        pose proof (checkRateLimit_other config identifier t k c1 Hk) as Ho.
        now rewrite E1 in Ho. }
      destruct (IH c1' c2 Hl) as [Ha Hb]. rewrite E2 in Ha, Hb. exact (conj Ha Hb). }
  apply H. reflexivity.
Qed.

Lemma calls_window_counts (config : RateLimit.SecurityConfig) (identifier : jsstring)
    (times : list Z) : forall (cache : gmap (list Z) RateLimit.bucket) n reset,
  cache !! identifier = Some {| RateLimit.count := n; RateLimit.resetTime := reset |} ->
  Forall (fun t => t <= reset) times ->
  (RateLimit.calls config identifier times cache).1 =
    replicate (length times `min` Z.to_nat (RateLimit.maxRequestsPerMinute config - n)) true ++
    replicate (length times - Z.to_nat (RateLimit.maxRequestsPerMinute config - n)) false.
Proof.
  induction times as [|t times IH]; intros cache n reset Hc Ht; [reflexivity|].
  inversion Ht as [|? ? Ht1 Ht2]; subst. cbn [RateLimit.calls].
  destruct (Z.lt_ge_cases n (RateLimit.maxRequestsPerMinute config)) as [Hlt|Hge].
  - rewrite (checkRateLimit_counts config identifier t cache _ Hc) by (simpl; lia).
    cbn [RateLimit.count RateLimit.resetTime].
    specialize (IH (<[identifier := {| RateLimit.count := n + 1;
                                       RateLimit.resetTime := reset |}]> cache)
                  (n + 1) reset (lookup_insert_eq _ _ _) Ht2).
    destruct (RateLimit.calls config identifier times _) as [rs c'].
    cbn [fst] in *. rewrite IH.
    replace (Z.to_nat (RateLimit.maxRequestsPerMinute config - n))
      with (S (Z.to_nat (RateLimit.maxRequestsPerMinute config - (n + 1)))) by lia.
    reflexivity.
  - rewrite (checkRateLimit_denies config identifier t cache _ Hc) by (simpl; lia).
    specialize (IH cache n reset Hc Ht2).
    destruct (RateLimit.calls config identifier times cache) as [rs c'].
    cbn [fst] in *. rewrite IH.
    replace (Z.to_nat (RateLimit.maxRequestsPerMinute config - n)) with 0%nat by lia.
    rewrite Nat.min_0_r, !Nat.sub_0_r. reflexivity.
Qed.

(** X6: of the calls made for an identifier inside one window, counted from
    the call that opens it, the first [limit] are allowed and all the others
    are denied, whatever the limit configured; the call that opens the window
    is allowed even when the limit is 0 or less.  A denied call leaves the
    cache as it is. *)
Theorem rate_limit_window_counts (config : RateLimit.SecurityConfig)
    (identifier : jsstring) (cache : gmap (list Z) RateLimit.bucket)
    (t1 : Z) (ts : list Z) :
  (cache !! identifier = None \/
   exists b, cache !! identifier = Some b /\ t1 > RateLimit.resetTime b) ->
  Forall (fun t => t <= t1 + 60 * 1000) ts ->
  (RateLimit.calls config identifier (t1 :: ts) cache).1 =
    true ::
    replicate (length ts `min` Z.to_nat (RateLimit.maxRequestsPerMinute config - 1)) true ++
    replicate (length ts - Z.to_nat (RateLimit.maxRequestsPerMinute config - 1)) false /\
  (forall now c, (RateLimit.checkRateLimit config now identifier c).1 = false ->
                 (RateLimit.checkRateLimit config now identifier c).2 = c).
Proof.
  intros Hopen Hts. split.
  - cbn [RateLimit.calls].
    rewrite (checkRateLimit_opens config identifier t1 cache Hopen).
    pose proof (calls_window_counts config identifier ts
                  (<[identifier := {| RateLimit.count := 1;
                                      RateLimit.resetTime := t1 + 60 * 1000 |}]> cache)
                  1 (t1 + 60 * 1000) (lookup_insert_eq _ _ _) Hts) as H.
    destruct (RateLimit.calls config identifier ts _) as [rs c'].
    cbn [fst] in *. now rewrite H.
  - intros now c. unfold RateLimit.checkRateLimit.
    destruct (c !! identifier) as [b|]; [|discriminate].
    destruct (now >? RateLimit.resetTime b); [discriminate|].
    destruct (RateLimit.count b >=? RateLimit.maxRequestsPerMinute config);
      [reflexivity | discriminate].
Qed.

Lemma rate_limit_window_counts_witness :
  (RateLimit.calls RateLimit.defaultSecurityConfig (js "test_1")
     (0 :: replicate 34 0) ∅).1 = replicate 30 true ++ replicate 5 false.
Proof.
  destruct (rate_limit_window_counts RateLimit.defaultSecurityConfig (js "test_1") ∅ 0
              (replicate 34 0)) as [H _].
  - left. reflexivity.
  - repeat constructor; lia.
  - rewrite H. reflexivity.
Defined.

(** X7: the counts stay within bounds.  If every entry of the cache counts
    between 1 and the limit (1 when the limit is below 1), so does every
    entry after any sequence of calls, for any identifiers at any times. *)
Theorem rate_limit_counts_bounded (config : RateLimit.SecurityConfig)
    (l : list (jsstring * Z)) (cache : gmap (list Z) RateLimit.bucket) :
  countsBounded config cache -> countsBounded config (callsMixed config l cache).2.
Proof.
  revert cache. induction l as [|[k t] l IH]; intros cache Hb; [exact Hb|].
  cbn [callsMixed].
  destruct (RateLimit.checkRateLimit config t k cache) as [r c'] eqn:E.
  assert (Hb' : countsBounded config c').
  { revert E. unfold RateLimit.checkRateLimit.
    assert (Hnew : forall reset,
      countsBounded config
        (<[k := {| RateLimit.count := 1; RateLimit.resetTime := reset |}]> cache)).
    { intros reset k' b' Hk'. destruct (decide (k = k')) as [->|Hne].
      - rewrite lookup_insert_eq in Hk'. injection Hk' as <-. simpl. lia.
      - rewrite lookup_insert_ne in Hk' by exact Hne. eapply Hb, Hk'. }
    destruct (cache !! k) as [b|] eqn:Ek; [|intros [= _ <-]; apply Hnew].
    destruct (t >? RateLimit.resetTime b); [intros [= _ <-]; apply Hnew|].
    destruct (Z.geb_spec (RateLimit.count b) (RateLimit.maxRequestsPerMinute config));
      intros [= _ <-]; [exact Hb|].
    intros k' b' Hk'. destruct (decide (k = k')) as [->|Hne].
    - rewrite lookup_insert_eq in Hk'. injection Hk' as <-. simpl.
      pose proof (Hb _ _ Ek). lia.
    - rewrite lookup_insert_ne in Hk' by exact Hne. eapply Hb, Hk'. }
  specialize (IH c' Hb'). destruct (callsMixed config l c'). exact IH.
Qed.

Lemma rate_limit_counts_bounded_witness :
  countsBounded RateLimit.defaultSecurityConfig
    (callsMixed RateLimit.defaultSecurityConfig
       [(js "a", 0); (js "b", 5); (js "a", 70000)] ∅).2.
Proof.
  apply (rate_limit_counts_bounded RateLimit.defaultSecurityConfig
           [(js "a", 0); (js "b", 5); (js "a", 70000)] ∅).
  intros k b H. rewrite lookup_empty in H. discriminate H.
Defined.

(** * The edge function: answers and records *)

(** The two ways a run of the body goes: it throws before a record exists, or
    it creates the record and goes on with [solve]. *)
Lemma body_inv (e : Handler.env) (s s' : state) (o : outcome Handler.response) :
  Handler.body e s = (o, s') ->
  (exists msg, o = Throw msg /\ frame s s') \/
  (exists req userId sr s1 problemId ins s2 row,
     configured e /\ Handler.requestBody e = Return req /\ ~ rejected req /\
     Handler.resolveUserId e (Handler.user_id req) s = (Return userId, sr) /\
     Handler.prepare e s = (Return (req, userId), s1) /\ frame s s1 /\
     Handler.persist e req userId s1 = (Return (problemId, ins), s2) /\
     problemId = (Uuid.generateUUID (Handler.rnd e) (rndPos s1)).1 /\
     Db.data ins = Some row /\ Handler.insertFault e = None /\
     sub_id row = problemId /\ sub_user_id row = userId /\ sub_status row = processing /\
     problem_submissions s !! problemId = None /\
     problem_submissions s2 = <[problemId := row]> (problem_submissions s) /\
     Handler.solve e problemId ins s2 = (o, s')).
Proof.
  unfold Handler.body. rewrite bind_run.
  destruct (prepare_cases e s)
    as [[msg Hp] | (req & userId & sr & s1 & Hp & Hconf & Hreq & Hok & Hres & Hf1)];
    rewrite Hp.
  { intros [= <- <-]. left. eexists. split; [reflexivity | apply frame_refl]. }
  rewrite bind_run.
  destruct (persist_cases e req userId s1) as (problemId & ins & s2 & Hper & Hpid & Hins).
  rewrite Hper.
  destruct Hins as [(msg & Herr & Hf2 & _) |
                    (row & Herr & Hdata & Hfault & Hid & Hu & Hst & Hnew & Hs2 & Hw2)];
    rewrite Herr.
  { intros [= <- <-]. left. eexists. split; [reflexivity|].
    eapply frame_trans; eassumption. }
  intros Hsolve. right. exists req, userId, sr, s1, problemId, ins, s2, row.
  destruct Hf1 as [Hs1 Hw1]. destruct Hconf as [Hc1 Hc2].
  repeat split; try assumption; congruence.
Qed.

(** A success answer comes from the last branch of [solve] only. *)
Lemma solve_success_inv (e : Handler.env) (problemId : jsstring)
    (ins : Db.reply submission) (s s' : state) (row : submission)
    (p solution subject : jsstring) (diff : difficulty) (tags : list jsstring) :
  problem_submissions s !! problemId = Some row ->
  Handler.solve e problemId ins s =
    (Return (Handler.Success p solution subject diff tags), s') ->
  p = problemId /\
  (exists r candidate,
     Handler.gemini e = Handler.FetchResolves r /\ Handler.ok r = true /\
     Handler.json r = Return candidate /\
     solution = or_else candidate (js "No solution generated")) /\
  Handler.parseSolution (Handler.toLowerCase e) solution = (subject, diff, tags) /\
  exists elapsed t,
    problem_submissions s' =
      <[problemId := Handler.markCompleted solution subject diff tags elapsed t row]>
        (problem_submissions s).
Proof.
  intros Hrow. unfold Handler.solve.
  destruct (negb (truthy_opt (Handler.GOOGLE_API_KEY e))).
  { rewrite bind_run, now_run, bind_run.
    rewrite (updateSubmission_run _ problemId _ _ row) by exact Hrow.
    destruct (Handler.errorUpdateFault e); discriminate. }
  destruct (Handler.gemini e) as [msg|r]; [discriminate|].
  destruct (Handler.ok r) eqn:Hok; cbn [negb].
  2:{ rewrite bind_run, now_run, bind_run.
      rewrite (updateSubmission_run _ problemId _ _ row) by exact Hrow.
      destruct (Handler.errorUpdateFault e); discriminate. }
  destruct (Handler.json r) as [candidate|msg] eqn:Hjson; [|discriminate].
  destruct (Handler.parseSolution _ _) as [[subject' diff'] tags'] eqn:Hparse.
  rewrite bind_run, now_run.
  destruct (Db.data ins) as [problemData|]; [|discriminate].
  rewrite bind_run, now_run, bind_run.
  rewrite (updateSubmission_run _ problemId _ _ row) by exact Hrow.
  destruct (Handler.finalUpdateFault e); [discriminate|].
  intros [= <- <- <- <- <- <-].
  split; [reflexivity|].
  split; [exists r, candidate; repeat split; assumption || reflexivity|].
  split; [exact Hparse|].
  eexists _, _. reflexivity.
Qed.

(** A failure answer that names the record comes from the two branches that
    mark it. *)
Lemma solve_failure_inv (e : Handler.env) (problemId : jsstring)
    (ins : Db.reply submission) (s s' : state) (row : submission)
    (message p : jsstring) :
  problem_submissions s !! problemId = Some row ->
  Handler.solve e problemId ins s = (Return (Handler.Failure message (Some p)), s') ->
  p = problemId /\ handlerMessage message /\
  (Handler.errorUpdateFault e = None ->
   exists t, problem_submissions s' =
               <[problemId := Handler.markError message t row]> (problem_submissions s)).
Proof.
  intros Hrow. unfold Handler.solve.
  destruct (negb (truthy_opt (Handler.GOOGLE_API_KEY e))).
  { rewrite bind_run, now_run, bind_run.
    rewrite (updateSubmission_run _ problemId _ _ row) by exact Hrow.
    destruct (Handler.errorUpdateFault e); intros [= <- <- <-];
      (split; [reflexivity|]); (split; [now left|]); [discriminate|].
    intros _. eexists. reflexivity. }
  destruct (Handler.gemini e) as [msg|r]; [discriminate|].
  destruct (Handler.ok r) eqn:Hok; cbn [negb].
  2:{ rewrite bind_run, now_run, bind_run.
      rewrite (updateSubmission_run _ problemId _ _ row) by exact Hrow.
      destruct (Handler.errorUpdateFault e); intros [= <- <- <-];
        (split; [reflexivity|]); (split; [right; eexists; reflexivity|]); [discriminate|].
      intros _. eexists. reflexivity. }
  destruct (Handler.json r) as [candidate|msg]; [|discriminate].
  destruct (Handler.parseSolution _ _) as [[subject' diff'] tags'].
  rewrite bind_run, now_run.
  destruct (Db.data ins) as [problemData|]; [|discriminate].
  rewrite bind_run, now_run, bind_run.
  rewrite (updateSubmission_run _ problemId _ _ row) by exact Hrow.
  destruct (Handler.finalUpdateFault e); discriminate.
Qed.

Lemma serve_inv (method : jsstring) (e : Handler.env) (s s' : state)
    (r : Handler.response) :
  Handler.serve method e s = (Return r, s') ->
  (r = Handler.Preflight /\ s' = s) \/
  (Handler.body e s = (Return r, s')) \/
  (exists msg, r = Handler.Failure msg None /\ Handler.body e s = (Throw msg, s')).
Proof.
  unfold Handler.serve, tryCatch. case_bool_decide.
  - intros [= <- <-]. now left.
  - destruct (Handler.body e s) as [[r0|msg] s0].
    + intros [= <- <-]. right. now left.
    + intros [= <- <-]. right. right. eauto.
Qed.

(** * The edge function: parsing of the provider's answer *)

Lemma startsWith_app (p q : jsstring) : forall s,
  Handler.startsWith (p ++ q) s = true -> Handler.startsWith p s = true.
Proof.
  induction p as [|c p IH]; intros s H; [reflexivity|].
  destruct s as [|d s]; [discriminate|]. simpl in *.
  apply andb_true_iff in H as [-> H]. simpl. now apply IH.
Qed.

Lemma includes_app (p q : jsstring) (s : jsstring) :
  Handler.includes s (p ++ q) = true -> Handler.includes s p = true.
Proof.
  induction s as [|d s IH]; simpl; intros H.
  - apply orb_true_iff in H as [H|H]; [|discriminate].
    apply startsWith_app in H. now rewrite H.
  - apply orb_true_iff in H as [H|H].
    + apply startsWith_app in H. now rewrite H.
    + rewrite (IH H). apply orb_true_r.
Qed.

Lemma includes_tags_tag (s : jsstring) :
  Handler.includes s (js "tags") = true -> Handler.includes s (js "tag") = true.
Proof. apply (includes_app (js "tag") (js "s")). Qed.

Lemma drop_last3_length (m : list jsstring) : (length (drop (length m - 3) m) <= 3)%nat.
Proof. rewrite length_drop. lia. Qed.

Ltac canonical :=
  unfold canonicalSubjects;
  repeat first [apply list_elem_of_here | apply list_elem_of_further].

(** What one line does to the three results. *)
Lemma parseLine_facts (lower : jsstring -> jsstring)
    (subject : jsstring) (diff : difficulty) (tags : list jsstring) (line : jsstring) :
  exists subject' diff' tags',
    Handler.parseLine lower (subject, diff, tags) line = (subject', diff', tags') /\
    (subject ∈ canonicalSubjects -> subject' ∈ canonicalSubjects) /\
    (Handler.includes (lower line) (js "subject") = false ->
     Handler.includes (lower line) (js "area") = false -> subject' = subject) /\
    (Handler.includes (lower line) (js "difficulty") = false -> diff' = diff) /\
    (Handler.includes (lower line) (js "tag") = false -> tags' = tags) /\
    (length tags' <= length tags + 3)%nat.
Proof.
  unfold Handler.parseLine. eexists _, _, _. split; [reflexivity|].
  split; [|split; [|split; [|split]]].
  - intros Hs.
    destruct (_ || _); [|exact Hs].
    destruct (Handler.includes (lower line) (js "math"));
      [canonical|].
    destruct (_ || _); [canonical|].
    destruct (Handler.includes (lower line) (js "history"));
      [canonical|].
    destruct (_ || _); [canonical | exact Hs].
  - intros -> ->. reflexivity.
  - intros ->. reflexivity.
  - intros Ht.
    destruct (Handler.includes (lower line) (js "tags")) eqn:E.
    + apply includes_tags_tag in E. congruence.
    + rewrite Ht. reflexivity.
  - destruct (_ || _); [|lia].
    rewrite length_app. pose proof (drop_last3_length (Handler.wordRuns line [])). lia.
Qed.

Lemma parseLoop_facts (lower : jsstring -> jsstring) (lines : list jsstring) :
  forall subject diff tags,
  exists subject' diff' tags',
    fold_left (Handler.parseLine lower) lines (subject, diff, tags) =
      (subject', diff', tags') /\
    (subject ∈ canonicalSubjects -> subject' ∈ canonicalSubjects) /\
    ((forall line, line ∈ lines ->
        Handler.includes (lower line) (js "subject") = false /\
        Handler.includes (lower line) (js "area") = false) -> subject' = subject) /\
    ((forall line, line ∈ lines ->
        Handler.includes (lower line) (js "difficulty") = false) -> diff' = diff) /\
    ((forall line, line ∈ lines ->
        Handler.includes (lower line) (js "tag") = false) -> tags' = tags) /\
    (length tags' <= length tags + 3 * length lines)%nat.
Proof.
  induction lines as [|line lines IH]; intros subject diff tags.
  - exists subject, diff, tags. split; [reflexivity|]. repeat split; auto. simpl. lia.
  - destruct (parseLine_facts lower subject diff tags line)
      as (s1 & d1 & t1 & E1 & Hs1 & Hs1' & Hd1 & Ht1 & Hl1).
    destruct (IH s1 d1 t1) as (s2 & d2 & t2 & E2 & Hs2 & Hs2' & Hd2 & Ht2 & Hl2).
    exists s2, d2, t2. cbn [fold_left]. rewrite E1. split; [exact E2|].
    split; [auto|]. split; [|split; [|split]].
    + intros H. rewrite Hs2', Hs1'; auto.
      * apply (H line), list_elem_of_here.
      * apply (H line), list_elem_of_here.
      * intros l Hl. apply H. now apply list_elem_of_further.
    + intros H. rewrite Hd2, Hd1; auto.
      * apply H, list_elem_of_here.
      * intros l Hl. apply H. now apply list_elem_of_further.
    + intros H. rewrite Ht2, Ht1; auto.
      * apply H, list_elem_of_here.
      * intros l Hl. apply H. now apply list_elem_of_further.
    + simpl length. lia.
Qed.

Lemma parseSolution_tags_nonempty (lower : jsstring -> jsstring) (solution : jsstring) :
  (Handler.parseSolution lower solution).2 <> [].
Proof.
  unfold Handler.parseSolution.
  destruct (parseLoop_facts lower (Handler.splitLines solution []) (js "General") medium [])
    as (subject & diff & tags & -> & _).
  destruct tags; discriminate.
Qed.

(** X8: whatever answer the provider gives, the subject parsed from it is
    one of General, Mathematics, Science, History and English, and the list
    of tags is never empty and holds at most three tags per line of the
    answer.  Without a line that mentions "tag" the tags are general and
    learning; without a line that mentions "subject" or "area" the subject is
    General; without a line that mentions "difficulty" the difficulty is
    medium. *)
Theorem parseSolution_results (lower : jsstring -> jsstring) (solution : jsstring) :
  exists subject diff tags,
    Handler.parseSolution lower solution = (subject, diff, tags) /\
    subject ∈ canonicalSubjects /\
    tags <> [] /\
    (length tags <= 2 `max` (3 * length (Handler.splitLines solution [])))%nat /\
    ((forall line, line ∈ Handler.splitLines solution [] ->
        Handler.includes (lower line) (js "tag") = false) -> tags = defaultTags) /\
    ((forall line, line ∈ Handler.splitLines solution [] ->
        Handler.includes (lower line) (js "subject") = false /\
        Handler.includes (lower line) (js "area") = false) -> subject = js "General") /\
    ((forall line, line ∈ Handler.splitLines solution [] ->
        Handler.includes (lower line) (js "difficulty") = false) -> diff = medium).
Proof.
  unfold Handler.parseSolution.
  destruct (parseLoop_facts lower (Handler.splitLines solution []) (js "General") medium [])
    as (subject & diff & tags & -> & Hs & Hs' & Hd & Ht & Hl).
  eexists _, _, _. split; [reflexivity|].
  split; [apply Hs; canonical|].
  split; [destruct tags; discriminate|].
  split; [destruct tags; simpl in *; lia|].
  split; [intros H; rewrite (Ht H); reflexivity|].
  split; [exact Hs' | exact Hd].
Qed.

Lemma parseSolution_results_witness :
  exists subject diff tags,
    Handler.parseSolution (fun s => s) (js "4") = (subject, diff, tags) /\
    tags = defaultTags /\ subject = js "General" /\ diff = medium.
Proof.
  destruct (parseSolution_results (fun s => s) (js "4"))
    as (subject & diff & tags & E & _ & _ & _ & Ht & Hs & Hd).
  exists subject, diff, tags. split; [exact E|].
  assert (Hline : forall line, line ∈ Handler.splitLines (js "4") [] -> line = js "4").
  { intros line Hl. change (Handler.splitLines (js "4") []) with [js "4"] in Hl.
    now apply list_elem_of_singleton in Hl. }
  split; [|split].
  - apply Ht. intros line Hl. rewrite (Hline line Hl). reflexivity.
  - apply Hs. intros line Hl. rewrite (Hline line Hl). split; reflexivity.
  - apply Hd. intros line Hl. rewrite (Hline line Hl). reflexivity.
Defined.

(** X9: a success answer tells the truth about the store.  When the handler
    answers success, the record it names was created by this request, has a
    valid UUIDv4 as its id, and is stored at [completed] with the solution,
    subject, difficulty and tags of the answer and no error message; the
    solution and the tags are not empty. *)
Theorem success_answer_matches_record (method : jsstring) (e : Handler.env)
    (s s' : state) (problemId solution subject : jsstring) (diff : difficulty)
    (tags : list jsstring) :
  nibbles (Handler.rnd e) ->
  Handler.serve method e s =
    (Return (Handler.Success problemId solution subject diff tags), s') ->
  Uuid.isValidUUID problemId = true /\ solution <> [] /\ tags <> [] /\
  problem_submissions s !! problemId = None /\
  exists row,
    problem_submissions s' !! problemId = Some row /\
    sub_id row = problemId /\
    sub_status row = completed /\
    sub_solution row = Some solution /\
    sub_topic row = Some subject /\
    sub_difficulty row = Some diff /\
    sub_tags row = Some tags.
Proof.
  intros Hr Hrun.
  destruct (serve_inv method e s s' _ Hrun) as [[H _] | [Hbody | (msg & H & _)]];
    [discriminate | | discriminate].
  destruct (body_inv e s s' _ Hbody)
    as [(msg & H & _) |
        (req & userId & sr & s1 & pid & ins & s2 & row & _ & _ & _ & _ & _ & _ & _ &
         Hpid & _ & _ & Hid & _ & _ & Hnew & Hs2 & Hsolve)]; [discriminate|].
  assert (Hrow : problem_submissions s2 !! pid = Some row)
    by (rewrite Hs2; apply lookup_insert_eq).
  destruct (solve_success_inv e pid ins s2 s' row _ _ _ _ _ Hrow Hsolve)
    as (-> & (r & candidate & _ & _ & _ & Hsol) & Hparse & elapsed & t & Hs').
  split; [rewrite Hpid; now apply generateUUID_valid|].
  split; [rewrite Hsol; destruct candidate as [[|c l]|]; discriminate|].
  split.
  { pose proof (parseSolution_tags_nonempty (Handler.toLowerCase e) solution) as H.
    now rewrite Hparse in H. }
  split; [exact Hnew|].
  eexists. split; [rewrite Hs'; apply lookup_insert_eq|].
  cbn. repeat split. exact Hid.
Qed.

Lemma success_answer_matches_record_witness :
  Uuid.isValidUUID firstId = true /\ js "4" <> [] /\ defaultTags <> [] /\
  problem_submissions emptyState !! firstId = None /\
  exists row,
    problem_submissions
      (Handler.serve (js "POST") (sampleEnv (textRequest None) providerAnswer)
         emptyState).2 !! firstId = Some row /\
    sub_id row = firstId /\
    sub_status row = completed /\
    sub_solution row = Some (js "4") /\
    sub_topic row = Some (js "General") /\
    sub_difficulty row = Some medium /\
    sub_tags row = Some defaultTags.
Proof.
  apply (success_answer_matches_record (js "POST")
           (sampleEnv (textRequest None) providerAnswer) emptyState
           (Handler.serve (js "POST") (sampleEnv (textRequest None) providerAnswer)
              emptyState).2 firstId (js "4") (js "General") medium defaultTags).
  - apply nibbles_sample.
  - vm_compute. reflexivity.
Defined.

(** X10: a failure answer that names a record tells the truth as well.  Its
    error is "Google API key not configured" or "Gemini API error: " followed
    by the status of the provider's response, the record named was created by
    this request, and, when the store takes the update, the record is stored
    at [error] with that error as its message. *)
Theorem failure_answer_matches_record (method : jsstring) (e : Handler.env)
    (s s' : state) (message problemId : jsstring) :
  Handler.serve method e s =
    (Return (Handler.Failure message (Some problemId)), s') ->
  handlerMessage message /\
  problem_submissions s !! problemId = None /\
  (Handler.errorUpdateFault e = None ->
   exists row,
     problem_submissions s' !! problemId = Some row /\
     sub_id row = problemId /\
     sub_status row = error /\
     sub_error_message row = Some message).
Proof.
  intros Hrun.
  destruct (serve_inv method e s s' _ Hrun) as [[H _] | [Hbody | (msg & H & _)]];
    [discriminate | | discriminate].
  destruct (body_inv e s s' _ Hbody)
    as [(msg & H & _) |
        (req & userId & sr & s1 & pid & ins & s2 & row & _ & _ & _ & _ & _ & _ & _ &
         Hpid & _ & _ & Hid & _ & _ & Hnew & Hs2 & Hsolve)]; [discriminate|].
  assert (Hrow : problem_submissions s2 !! pid = Some row)
    by (rewrite Hs2; apply lookup_insert_eq).
  destruct (solve_failure_inv e pid ins s2 s' row _ _ Hrow Hsolve) as (-> & Hmsg & Hupd).
  split; [exact Hmsg|]. split; [exact Hnew|].
  intros Hf. destruct (Hupd Hf) as [t Hs'].
  eexists. split; [rewrite Hs'; apply lookup_insert_eq|].
  cbn. repeat split. exact Hid.
Qed.

Lemma failure_answer_matches_record_witness :
  handlerMessage (js "Gemini API error: 503") /\
  problem_submissions emptyState !! firstId = None /\
  (Handler.errorUpdateFault
     (sampleEnv (textRequest None)
        (Handler.FetchResolves
           {| Handler.ok := false; Handler.http_status := 503;
              Handler.text := js "overloaded"; Handler.json := Return None |})) = None ->
   exists row,
     problem_submissions
       (Handler.serve (js "POST")
          (sampleEnv (textRequest None)
             (Handler.FetchResolves
                {| Handler.ok := false; Handler.http_status := 503;
                   Handler.text := js "overloaded"; Handler.json := Return None |}))
          emptyState).2 !! firstId = Some row /\
     sub_id row = firstId /\
     sub_status row = error /\
     sub_error_message row = Some (js "Gemini API error: 503")).
Proof.
  apply (failure_answer_matches_record (js "POST")
           (sampleEnv (textRequest None)
              (Handler.FetchResolves
                 {| Handler.ok := false; Handler.http_status := 503;
                    Handler.text := js "overloaded"; Handler.json := Return None |}))
           emptyState).
  vm_compute. reflexivity.
Defined.

Lemma persist_fault (e : Handler.env) (req : Handler.ProblemSubmissionRequest)
    (userId : jsstring) (s : state) (m : jsstring) :
  Handler.insertFault e = Some m ->
  exists problemId s',
    Handler.persist e req userId s =
      (Return (problemId, {| Db.data := None; Db.err := Some m |}), s') /\
    frame s s'.
Proof.
  intros Hf. unfold Handler.persist. rewrite bind_run. unfold Handler.generateUUID at 1.
  destruct (Uuid.generateUUID (Handler.rnd e) (rndPos s)) as [problemId k].
  rewrite !bind_run, now_run, !bind_run, now_run, bind_run.
  unfold Db.insertSubmission. rewrite Hf.
  eexists _, _. split; [reflexivity | split; reflexivity].
Qed.

(** When the provider answers, [solve] completes the record. *)
Lemma solve_completes (e : Handler.env) (problemId : jsstring)
    (ins : Db.reply submission) (s : state) (row problemData : submission)
    (r : Handler.geminiResponse) (candidate : option jsstring) :
  problem_submissions s !! problemId = Some row ->
  Db.data ins = Some problemData ->
  truthy_opt (Handler.GOOGLE_API_KEY e) = true ->
  Handler.gemini e = Handler.FetchResolves r -> Handler.ok r = true ->
  Handler.json r = Return candidate ->
  Handler.finalUpdateFault e = None ->
  exists subject diff tags elapsed t s',
    Handler.parseSolution (Handler.toLowerCase e)
      (or_else candidate (js "No solution generated")) = (subject, diff, tags) /\
    Handler.solve e problemId ins s =
      (Return (Handler.Success problemId
                 (or_else candidate (js "No solution generated")) subject diff tags), s') /\
    problem_submissions s' =
      <[problemId := Handler.markCompleted
                       (or_else candidate (js "No solution generated"))
                       subject diff tags elapsed t row]> (problem_submissions s).
Proof.
  intros Hrow Hdata Hk Hg Hok Hjson Hf. unfold Handler.solve.
  rewrite Hk, Hg, Hok, Hjson. cbn [negb].
  destruct (Handler.parseSolution _ _) as [[subject diff] tags].
  rewrite bind_run, now_run, Hdata, bind_run, now_run, bind_run.
  rewrite (updateSubmission_run _ problemId _ _ row) by exact Hrow.
  rewrite Hf. eexists _, _, _, _, _, _. split; [reflexivity|].
  split; reflexivity.
Qed.

(** X11: the way to [completed].  For a configured handler and a request that
    passes the validation, when the store takes the insert and the final
    update, the id drawn is not yet in use and the provider answers with a
    readable body, the handler answers success with the provider's text (or
    "No solution generated" when it has none) and leaves the new record at
    [completed] with that solution. *)
Theorem provider_answer_completes_record (method : jsstring) (e : Handler.env)
    (req : Handler.ProblemSubmissionRequest) (r : Handler.geminiResponse)
    (candidate : option jsstring) (s : state) :
  method <> js "OPTIONS" ->
  configured e -> Handler.requestBody e = Return req -> ~ rejected req ->
  Handler.insertFault e = None -> idsUnused e s ->
  truthy_opt (Handler.GOOGLE_API_KEY e) = true ->
  Handler.gemini e = Handler.FetchResolves r -> Handler.ok r = true ->
  Handler.json r = Return candidate ->
  Handler.finalUpdateFault e = None ->
  exists problemId subject diff tags s' row,
    Handler.serve method e s =
      (Return (Handler.Success problemId
                 (or_else candidate (js "No solution generated")) subject diff tags), s') /\
    problem_submissions s !! problemId = None /\
    problem_submissions s' !! problemId = Some row /\
    sub_status row = completed /\
    sub_solution row = Some (or_else candidate (js "No solution generated")) /\
    sub_input_type row = default [] (Handler.input_type req) /\
    sub_title row = default [] (Handler.title req).
Proof.
  intros Hm Hconf Hreq Hok Hins Hfresh Hk Hg Hok' Hjson Hf.
  rewrite (serve_body method e s Hm). unfold Handler.body. rewrite bind_run.
  destruct (prepare_accepts e req s Hconf Hreq Hok) as (userId & sr & s1 & -> & _ & Hs1 & _).
  rewrite bind_run.
  assert (Hper : exists problemId row s2,
    Handler.persist e req userId s1 =
      (Return (problemId, {| Db.data := Some row; Db.err := None |}), s2) /\
    problem_submissions s1 !! problemId = None /\
    sub_input_type row = default [] (Handler.input_type req) /\
    sub_title row = default [] (Handler.title req) /\
    problem_submissions s2 = <[problemId := row]> (problem_submissions s1)).
  { unfold Handler.persist. rewrite bind_run. unfold Handler.generateUUID at 1.
    pose proof (Hfresh (rndPos s1)) as Hnew. rewrite <- Hs1 in Hnew.
    destruct (Uuid.generateUUID (Handler.rnd e) (rndPos s1)) as [problemId k].
    cbn [fst] in Hnew.
    rewrite !bind_run, now_run, !bind_run, now_run, bind_run.
    unfold Db.insertSubmission. rewrite Hins.
    cbn [sub_id problem_submissions with_clockPos with_rndPos]. rewrite Hnew.
    eexists _, _, _. split; [reflexivity|]. repeat split. exact Hnew. }
  destruct Hper as (problemId & row & s2 & -> & Hnew & Hty & Hti & Hs2).
  cbn [Db.err].
  assert (Hrow : problem_submissions s2 !! problemId = Some row)
    by (rewrite Hs2; apply lookup_insert_eq).
  destruct (solve_completes e problemId {| Db.data := Some row; Db.err := None |}
              s2 row row r candidate Hrow eq_refl Hk Hg Hok' Hjson Hf)
    as (subject & diff & tags & elapsed & t & s' & _ & -> & Hs').
  eexists problemId, subject, diff, tags, s', _.
  split; [reflexivity|]. split; [now rewrite <- Hs1|].
  split; [rewrite Hs'; apply lookup_insert_eq|].
  cbn. repeat split; assumption.
Qed.

Lemma provider_answer_completes_record_witness :
  exists problemId subject diff tags s' row,
    Handler.serve (js "POST") (sampleEnv (textRequest None) providerAnswer) emptyState =
      (Return (Handler.Success problemId
                 (or_else (Some (js "4")) (js "No solution generated"))
                 subject diff tags), s') /\
    problem_submissions emptyState !! problemId = None /\
    problem_submissions s' !! problemId = Some row /\
    sub_status row = completed /\
    sub_solution row = Some (or_else (Some (js "4")) (js "No solution generated")) /\
    sub_input_type row = default [] (Handler.input_type (textRequest None)) /\
    sub_title row = default [] (Handler.title (textRequest None)).
Proof.
  apply (provider_answer_completes_record (js "POST")
           (sampleEnv (textRequest None) providerAnswer) (textRequest None)
           {| Handler.ok := true; Handler.http_status := 200; Handler.text := [];
              Handler.json := Return (Some (js "4")) |} (Some (js "4")) emptyState).
  - discriminate.
  - split; reflexivity.
  - reflexivity.
  - unfold rejected. cbn. intuition discriminate.
  - reflexivity.
  - intros k. apply lookup_empty.
  - reflexivity.
  - reflexivity.
  - reflexivity.
  - reflexivity.
  - reflexivity.
Defined.

(** X12: failures before the record exists.  A store variable that is
    missing or empty makes the creation of the client fail, ahead of the
    handler's own checks of the variables: the answer is a failure that names
    no record and carries the message of the client, "supabaseUrl is
    required." or "supabaseKey is required.".  An unreadable body and a
    refused insert give a failure that names no record and carries the
    message of the cause.  In none of these cases is a submission written;
    in all but the last the state is not touched at all. *)
Theorem setup_failures_create_no_record (method : jsstring) (e : Handler.env) (s : state) :
  method <> js "OPTIONS" ->
  (truthy_opt (Handler.SUPABASE_URL e) = false ->
   Handler.serve method e s =
     (Return (Handler.Failure (js "supabaseUrl is required.") None), s)) /\
  (truthy_opt (Handler.SUPABASE_URL e) = true ->
   truthy_opt (Handler.SUPABASE_SERVICE_ROLE_KEY e) = false ->
   Handler.serve method e s =
     (Return (Handler.Failure (js "supabaseKey is required.") None), s)) /\
  (forall msg, configured e -> Handler.requestBody e = Throw msg ->
   Handler.serve method e s = (Return (Handler.Failure msg None), s)) /\
  (forall req m, configured e -> Handler.requestBody e = Return req -> ~ rejected req ->
   Handler.insertFault e = Some m ->
   exists s',
     Handler.serve method e s =
       (Return (Handler.Failure (js "Failed to create problem submission: " ++ m) None),
        s') /\
     frame s s').
Proof.
  intros Hm. rewrite (serve_body method e s Hm).
  split; [|split; [|split]].
  - intros H. unfold Handler.body, Handler.prepare, Handler.createClient.
    rewrite !bind_run, throwIf_run, truthy_default, H. reflexivity.
  - intros H1 H2. unfold Handler.body, Handler.prepare, Handler.createClient.
    rewrite !bind_run, throwIf_run, truthy_default, H1. cbn [negb].
    rewrite throwIf_run, truthy_default, H2. reflexivity.
  - intros msg Hconf Hb. unfold Handler.body, Handler.prepare.
    rewrite !bind_run, (createClient_configured e s Hconf).
    destruct Hconf as [H1 H2].
    rewrite !bind_run, throwIf_run, H1. cbn [negb].
    rewrite !bind_run, throwIf_run, H2. cbn [negb].
    rewrite !bind_run, Hb. reflexivity.
  - intros req m Hconf Hreq Hok Hf. unfold Handler.body. rewrite bind_run.
    destruct (prepare_accepts e req s Hconf Hreq Hok) as (userId & sr & s1 & -> & _ & Hf1).
    rewrite bind_run.
    destruct (persist_fault e req userId s1 m Hf) as (problemId & s2 & -> & Hf2).
    cbn [Db.err]. eexists. split; [reflexivity|].
    eapply frame_trans; eassumption.
Qed.

Lemma setup_failures_create_no_record_witness :
  Handler.serve (js "POST") unconfiguredEnv emptyState =
    (Return (Handler.Failure (js "supabaseUrl is required.") None), emptyState).
Proof.
  destruct (setup_failures_create_no_record (js "POST") unconfiguredEnv emptyState)
    as [H _]; [discriminate|].
  apply H. reflexivity.
Defined.

(** * The edge function and the table of users *)

Lemma keepsUsers_ret {A} (a : A) : keepsUsers (mret a).
Proof. intros s. reflexivity. Qed.

Lemma keepsUsers_throw {A} (msg : jsstring) : keepsUsers (@throw A msg).
Proof. intros s. reflexivity. Qed.

Lemma keepsUsers_bind {A B} (m : M A) (f : A -> M B) :
  keepsUsers m -> (forall a, keepsUsers (f a)) -> keepsUsers (m ≫= f).
Proof.
  intros Hm Hf s. rewrite bind_run. specialize (Hm s).
  destruct (m s) as [[a|msg] s1]; simpl in Hm; [|exact Hm].
  rewrite <- Hm. apply Hf.
Qed.

Lemma keepsUsers_now (clock : nat -> Z) : keepsUsers (now clock).
Proof. intros s. reflexivity. Qed.

Lemma keepsUsers_generateUUID (e : Handler.env) : keepsUsers (Handler.generateUUID e).
Proof.
  intros s. unfold Handler.generateUUID. destruct (Uuid.generateUUID _ _). reflexivity.
Qed.

Lemma keepsUsers_insertSubmission (fault : option jsstring) (row : submission) :
  keepsUsers (Db.insertSubmission fault row).
Proof.
  intros s. unfold Db.insertSubmission.
  destruct fault; [|destruct (problem_submissions s !! sub_id row)]; reflexivity.
Qed.

Lemma keepsUsers_updateSubmission (fault : option jsstring) (id : jsstring)
    (patch : submission -> submission) : keepsUsers (Db.updateSubmission fault id patch).
Proof.
  intros s. unfold Db.updateSubmission.
  destruct fault; [|destruct (problem_submissions s !! id)]; reflexivity.
Qed.

Create HintDb users discriminated.

#[local] Hint Resolve keepsUsers_ret keepsUsers_throw keepsUsers_now
  keepsUsers_generateUUID keepsUsers_insertSubmission keepsUsers_updateSubmission : users.

Ltac users_step := apply keepsUsers_bind; [solve [auto with users]|]; intros ?.

Lemma keepsUsers_resolveUserId (e : Handler.env) (supplied : option jsstring) :
  keepsUsers (Handler.resolveUserId e supplied).
Proof.
  unfold Handler.resolveUserId.
  destruct (negb (truthy_opt supplied)); [auto with users|].
  destruct (negb _); auto with users.
Qed.

Lemma keepsUsers_persist (e : Handler.env) (req : Handler.ProblemSubmissionRequest)
    (userId : jsstring) : keepsUsers (Handler.persist e req userId).
Proof. unfold Handler.persist. repeat users_step. auto with users. Qed.

Lemma keepsUsers_solve (e : Handler.env) (problemId : jsstring)
    (ins : Db.reply submission) : keepsUsers (Handler.solve e problemId ins).
Proof.
  unfold Handler.solve.
  destruct (negb _); [repeat users_step; auto with users|].
  destruct (Handler.gemini e) as [msg|r]; [auto with users|].
  destruct (negb _); [repeat users_step; auto with users|].
  destruct (Handler.json r); [|auto with users].
  destruct (Handler.parseSolution _ _) as [[subject diff] tags].
  users_step. destruct (Db.data ins); [|auto with users].
  users_step.
  apply keepsUsers_bind; [auto with users|]. intros updateError.
  destruct updateError; auto with users.
Qed.

(** [ensureUser] adds the owner as a guest when the look-up finds no row,
    and changes nothing else. *)
Lemma ensureUser_users (e : Handler.env) (userId : jsstring) (s s' : state) :
  Handler.ensureUser e userId s = (Return tt, s') ->
  (users s' = users s \/
   users s !! userId = None /\ users s' = <[userId := guestRow userId]> (users s)) /\
  (Handler.userCheckFault e = None -> Handler.createUserFault e = None ->
   is_Some (users s' !! userId)).
Proof.
  unfold Handler.ensureUser. rewrite bind_run. unfold Db.selectUser.
  destruct (Handler.userCheckFault e) as [code|] eqn:Hc.
  - cbn [Db.err]. case_bool_decide.
    + rewrite !bind_run, now_run, !bind_run, now_run, bind_run. unfold Db.insertUser.
      destruct (Handler.createUserFault e) as [m|].
      * intros [= <-]. split; [now left | discriminate].
      * cbn [users with_clockPos].
        destruct (users s !! userId) eqn:El; intros [= <-];
          (split; [|discriminate]); [now left|].
        right. split; [reflexivity|]. reflexivity.
    + intros [= <-]. split; [now left | discriminate].
  - destruct (users s !! userId) as [u|] eqn:El; cbn [Db.err].
    + intros [= <-]. split; [now left|]. intros _ _. rewrite El. eauto.
    + rewrite bool_decide_eq_true_2 by reflexivity.
      rewrite !bind_run, now_run, !bind_run, now_run, bind_run. unfold Db.insertUser.
      destruct (Handler.createUserFault e) as [m|].
      * intros [= <-]. split; [now left | discriminate].
      * cbn [users with_clockPos]. rewrite El. intros [= <-].
        split; [right; split; reflexivity|].
        intros _ _. cbn [users with_users]. rewrite lookup_insert_eq. eauto.
Qed.

Lemma prepare_steps (e : Handler.env) (req : Handler.ProblemSubmissionRequest)
    (userId : jsstring) (s s1 : state) :
  Handler.prepare e s = (Return (req, userId), s1) ->
  exists sr,
    Handler.requestBody e = Return req /\
    Handler.resolveUserId e (Handler.user_id req) s = (Return userId, sr) /\
    Handler.ensureUser e userId sr = (Return tt, s1).
Proof.
  unfold Handler.prepare. rewrite bind_run.
  destruct (createClient_cases e s) as [[msg ->] | Hc]; [discriminate|].
  rewrite (createClient_configured e s Hc). clear Hc.
  rewrite !bind_run, !throwIf_run.
  destruct (negb (truthy_opt (Handler.SUPABASE_URL e))); [discriminate|].
  rewrite !bind_run, !throwIf_run.
  destruct (negb (truthy_opt (Handler.SUPABASE_SERVICE_ROLE_KEY e))); [discriminate|].
  rewrite !bind_run.
  destruct (Handler.requestBody e) as [req'|msg] eqn:Hreq; [|discriminate].
  rewrite !bind_run.
  destruct (validateRequest_cases req' s) as [[_ [msg ->]] | [_ ->]]; [discriminate|].
  rewrite !bind_run.
  destruct (Handler.resolveUserId e (Handler.user_id req') s) as [[u|msg] sr] eqn:Hres;
    [|discriminate].
  rewrite bind_run.
  destruct (Handler.ensureUser e u sr) as [[[]|msg] s1'] eqn:He; [|discriminate].
  intros [= <- <- <-]. exists sr. repeat split; assumption.
Qed.

(** What a run of the body does to [users]. *)
Lemma body_users (e : Handler.env) (s s' : state) (o : outcome Handler.response) :
  Handler.body e s = (o, s') ->
  users s' = users s \/
  exists req userId sr,
    Handler.requestBody e = Return req /\
    Handler.resolveUserId e (Handler.user_id req) s = (Return userId, sr) /\
    users s !! userId = None /\
    users s' = <[userId := guestRow userId]> (users s).
Proof.
  unfold Handler.body. rewrite bind_run.
  destruct (Handler.prepare e s) as [[[req userId]|msg] s1] eqn:Hp.
  2:{ destruct (prepare_cases e s) as [[msg' H] | (? & ? & ? & ? & H & _)];
        rewrite Hp in H; [|discriminate].
      injection H as _ ->. intros [= _ <-]. now left. }
  destruct (prepare_steps e req userId s s1 Hp) as (sr & Hreq & Hres & Hens).
  assert (Hrest : users s' = users s1 -> 
    users s' = users s \/
    exists req userId sr,
      Handler.requestBody e = Return req /\
      Handler.resolveUserId e (Handler.user_id req) s = (Return userId, sr) /\
      users s !! userId = None /\
      users s' = <[userId := guestRow userId]> (users s)).
  { intros Hs'.
    pose proof (keepsUsers_resolveUserId e (Handler.user_id req) s) as Hk.
    rewrite Hres in Hk. cbn [snd] in Hk.
    destruct (ensureUser_users e userId sr s1 Hens) as [[Hu | [Hn Hu]] _].
    - left. congruence.
    - right. exists req, userId, sr.
      split; [exact Hreq|]. split; [exact Hres|].
      split; [rewrite <- Hk; exact Hn | rewrite Hs', Hu, Hk; reflexivity]. }
  intros Hrun. apply Hrest.
  pose proof (keepsUsers_bind (Handler.persist e req userId)
    (fun '(problemId, ins) =>
       match Db.err ins with
       | Some message => throw (js "Failed to create problem submission: " ++ message)
       | None => Handler.solve e problemId ins
       end) (keepsUsers_persist e req userId)) as Hk.
  assert (Hk' : forall a : jsstring * Db.reply submission,
    keepsUsers (let '(problemId, ins) := a in
                match Db.err ins with
                | Some message =>
                    throw (js "Failed to create problem submission: " ++ message)
                | None => Handler.solve e problemId ins
                end)).
  { intros [problemId ins]. destruct (Db.err ins);
      [apply keepsUsers_throw | apply keepsUsers_solve]. }
  specialize (Hk Hk' s1). rewrite Hrun in Hk. exact Hk.
Qed.

(** X13: the handler and the table of users.  A request never changes or
    removes a user row; the only row it can add is a guest row for the owner
    it resolved from the request; and, when the store serves the look-up and
    the creation of the owner, the owner of every record the request persists
    has a row in [users] afterwards. *)
Theorem handler_users_only_grow (method : jsstring) (e : Handler.env)
    (s s' : state) (r : Handler.response) :
  Handler.serve method e s = (Return r, s') ->
  (forall id u, users s !! id = Some u -> users s' !! id = Some u) /\
  (forall id u, users s !! id = None -> users s' !! id = Some u ->
     u = guestRow id /\
     exists req sr,
       Handler.requestBody e = Return req /\
       Handler.resolveUserId e (Handler.user_id req) s = (Return id, sr)) /\
  (Handler.userCheckFault e = None -> Handler.createUserFault e = None ->
   forall p row,
     problem_submissions s !! p = None -> problem_submissions s' !! p = Some row ->
     is_Some (users s' !! sub_user_id row)).
Proof.
  intros Hrun.
  assert (Hbody : (r = Handler.Preflight /\ s' = s) \/
                  exists o, Handler.body e s = (o, s')).
  { destruct (serve_inv method e s s' r Hrun) as [H | [H | (msg & _ & H)]]; eauto. }
  destruct Hbody as [[_ ->] | [o Hbody]].
  { split; [auto|]. split; [congruence|]. intros _ _ p row H1 H2. congruence. }
  split; [|split].
  - intros id u Hu.
    destruct (body_users e s s' o Hbody) as [-> | (req & userId & sr & _ & _ & Hn & ->)];
      [exact Hu|].
    rewrite lookup_insert_ne; [exact Hu | congruence].
  - intros id u Hn Hu.
    destruct (body_users e s s' o Hbody) as [H | (req & userId & sr & Hreq & Hres & _ & H)];
      rewrite H in Hu; [congruence|].
    destruct (decide (userId = id)) as [->|Hne].
    + rewrite lookup_insert_eq in Hu. injection Hu as <-. eauto.
    + rewrite lookup_insert_ne in Hu by exact Hne. congruence.
  - intros Hc Hcr p row Hold Hnew.
    destruct (body_inv e s s' o Hbody)
      as [(msg & _ & [Hs _]) |
          (req & userId & sr & s1 & pid & ins & s2 & row0 & _ & _ & _ & _ & Hp & _ & Hper &
           _ & _ & _ & _ & Hown & Hst & _ & Hs2 & Hsolve)].
    { rewrite Hs in Hnew. congruence. }
    destruct (prepare_steps e req userId s s1 Hp) as (sr' & _ & _ & Hens).
    destruct (ensureUser_users e userId sr' s1 Hens) as [_ Hin].
    specialize (Hin Hc Hcr).
    pose proof (keepsUsers_persist e req userId s1) as Hk1. rewrite Hper in Hk1.
    pose proof (keepsUsers_solve e pid ins s2) as Hk2. rewrite Hsolve in Hk2.
    cbn [snd] in Hk1, Hk2.
    assert (Hrow : problem_submissions s2 !! pid = Some row0)
      by (rewrite Hs2; apply lookup_insert_eq).
    assert (Howner : sub_user_id row = userId).
    { destruct (solve_cases e pid ins s2 row0 Hrow Hst)
        as (o' & s3 & Hsolve' & Hcases).
      rewrite Hsolve in Hsolve'. injection Hsolve' as <- <-.
      destruct (decide (pid = p)) as [<-|Hne].
      - destruct Hcases as [[Hs3 _] | (_ & row' & _ & _ & Hu' & Hs3 & _)];
          rewrite Hs3 in Hnew.
        + rewrite Hrow in Hnew. congruence.
        + rewrite lookup_insert_eq in Hnew. congruence.
      - destruct Hcases as [[Hs3 _] | (_ & row' & _ & _ & Hu' & Hs3 & _)];
          rewrite Hs3 in Hnew.
        + rewrite Hs2, lookup_insert_ne in Hnew by exact Hne. congruence.
        + rewrite lookup_insert_ne, Hs2, lookup_insert_ne in Hnew by exact Hne.
          congruence. }
    rewrite Howner, Hk2, Hk1. exact Hin.
Qed.

Lemma handler_users_only_grow_witness :
  is_Some
    (users (Handler.serve (js "POST") (sampleEnv (textRequest None) providerAnswer)
              emptyState).2
       !! sub_user_id (completedRow Handler.DEFAULT_USER_ID)).
Proof.
  destruct (handler_users_only_grow (js "POST")
              (sampleEnv (textRequest None) providerAnswer) emptyState
              (Handler.serve (js "POST") (sampleEnv (textRequest None) providerAnswer)
                 emptyState).2
              (Handler.Success firstId (js "4") (js "General") medium defaultTags))
    as (_ & _ & H).
  - vm_compute. reflexivity.
  - apply (H eq_refl eq_refl firstId (completedRow Handler.DEFAULT_USER_ID)).
    + reflexivity.
    + vm_compute. reflexivity.
Defined.

(** * Polling: every run comes to rest *)

(** The status query reads the store and never writes it. *)
Lemma query_reads (a : Polling.auth) (problemId : jsstring)
    (fate : option (outcome (Db.reply submission))) (s : state) :
  exists o, Polling.query a problemId fate s = (o, s).
Proof.
  unfold Polling.query. destruct fate as [[r|msg]|]; [eexists; reflexivity..|].
  unfold Db.selectSubmission.
  destruct (problem_submissions s !! problemId) as [row|]; [|eexists; reflexivity].
  destruct (match _ with Some _ => _ | None => _ end); eexists; reflexivity.
Qed.

(** One tick: it returns in the state it started from, and either sets the
    next timer, with one more attempt counted and fewer than 60 made, or sets
    none and has reported an error or shown a completed record. *)
Lemma poll_cases (a : Polling.auth) (problemId : jsstring)
    (fate : option (outcome (Db.reply submission))) (v : Polling.vars) (s : state) :
  exists v',
    Polling.poll a problemId fate v s = (Return v', s) /\
    ((Polling.pending v' = Some 2000 /\
      Polling.timers v' = Polling.timers v ++ [2000] /\
      Polling.attempts v' = Polling.attempts v + 1 /\
      Polling.attempts v' < Polling.maxAttempts /\
      Polling.hookError v' = Polling.hookError v) \/
     (Polling.pending v' = Polling.pending v /\
      Polling.timers v' = Polling.timers v /\
      ((exists m, Polling.hookError v' = Some m) \/
       (Polling.hookError v' = Polling.hookError v /\
        exists r, Polling.result v' = Some r /\ Polling.res_status r = completed)))).
Proof.
  unfold Polling.poll, tryCatch. rewrite bind_run, throwIf_run.
  destruct (Polling.isValidUUID problemId); cbn [negb].
  2:{ eexists. split; [reflexivity|]. right. cbn. eauto. }
  rewrite bind_run.
  destruct (query_reads a problemId fate s) as [[r|msg] ->].
  2:{ eexists. split; [reflexivity|]. right. cbn. eauto. }
  destruct (Db.err r) as [code|].
  { eexists. split; [reflexivity|]. right. cbn. eauto. }
  destruct (Db.data r) as [data|].
  2:{ eexists. split; [reflexivity|]. right. cbn. eauto. }
  destruct (sub_status data) eqn:Hst; cbn [terminal].
  3:{ eexists. split; [reflexivity|]. right. split; [reflexivity|]. split; [reflexivity|]. right. split; [reflexivity|]. eexists. split; [reflexivity|]. exact Hst. }
  3:{ eexists. split; [reflexivity|]. right. cbn. eauto. }
  - cbn [Polling.setAttempts Polling.setResult Polling.attempts].
    destruct (Z.ltb_spec (Polling.attempts v + 1) Polling.maxAttempts);
      (eexists; split; [reflexivity|]); [left | right]; cbn; eauto 10.
  - cbn [Polling.setAttempts Polling.setResult Polling.attempts].
    destruct (Z.ltb_spec (Polling.attempts v + 1) Polling.maxAttempts);
      (eexists; split; [reflexivity|]); [left | right]; cbn; eauto 10.
Qed.

(** While fewer than 60 attempts are counted and a timer is pending, the loop
    comes to rest within the attempts that are left. *)
Lemma ticks_rest (a : Polling.auth) (problemId : jsstring) (n : Polling.net) (s : state) :
  forall (fuel k : nat) (v : Polling.vars),
    Polling.attempts v < Polling.maxAttempts ->
    Polling.maxAttempts - Polling.attempts v <= Z.of_nat fuel ->
    is_Some (Polling.pending v) ->
    exists v' (j : nat),
      Polling.ticks fuel a problemId n k v s = (Return (Some (v', (k + j)%nat)), s) /\
      (1 <= j)%nat /\ Z.of_nat j <= Polling.maxAttempts - Polling.attempts v /\
      Polling.pending v' = None /\
      Polling.timers v' = Polling.timers v ++ replicate (j - 1) 2000 /\
      ((exists m, Polling.hookError v' = Some m) \/
       (Polling.hookError v' = Polling.hookError v /\
        exists r, Polling.result v' = Some r /\ Polling.res_status r = completed)).
Proof.
  induction fuel as [|fuel IH]; intros k v Hlt Hfuel [d Hd]; [lia|].
  cbn [Polling.ticks]. rewrite Hd, bind_run.
  destruct (poll_cases a problemId (n k) (Polling.fired v) s)
    as (v1 & -> & [(Hp & Ht & Ha & Hlt1 & He) | (Hp & Ht & Hend)]);
    cbn [Polling.fired Polling.pending Polling.timers Polling.attempts Polling.hookError]
      in *.
  - destruct (IH (S k) v1) as (v' & j & Hrun & Hj1 & Hj & Hp' & Ht' & Hend');
      [exact Hlt1 | lia | rewrite Hp; eauto |].
    exists v', (S j). rewrite Hrun. split; [do 4 f_equal; lia|].
    split; [lia|]. split; [lia|]. split; [exact Hp'|]. split.
    + rewrite Ht', Ht, <- app_assoc. f_equal.
      replace (S j - 1)%nat with (S (j - 1)) by lia. reflexivity.
    + destruct Hend' as [Hm | [He' Hr]]; [left; exact Hm | right].
      split; [congruence | exact Hr].
  - rewrite ticks_at_rest by exact Hp.
    exists v1, 1%nat. split; [do 4 f_equal; lia|].
    split; [lia|]. split; [lia|]. split; [exact Hp|].
    split; [now rewrite Ht, app_nil_r | exact Hend].
Qed.

(** X14: whatever the store holds and whatever happens to the status
    queries, [pollForCompletion] comes to rest after at least one and at most
    60 ticks, the first 1 second after the call and the others 2 seconds
    apart; it leaves the state of the store as it found it; and when it rests
    it has either reported an error or shown a completed record with the
    error left as it was. *)
Theorem polling_always_comes_to_rest (fuel : nat) (a : Polling.auth)
    (problemId : jsstring) (n : Polling.net) (res : option Polling.ProblemResult)
    (err : option jsstring) (s : state) :
  (60 <= fuel)%nat ->
  exists v (k : nat),
    Polling.pollForCompletion fuel a problemId n res err s = (Return (Some (v, k)), s) /\
    (1 <= k <= 60)%nat /\
    Polling.pending v = None /\
    Polling.timers v = 1000 :: replicate (k - 1) 2000 /\
    ((exists m, Polling.hookError v = Some m) \/
     (Polling.hookError v = err /\
      exists r, Polling.result v = Some r /\ Polling.res_status r = completed)).
Proof.
  intros Hfuel. unfold Polling.pollForCompletion.
  destruct (ticks_rest a problemId n s fuel 0
              (Polling.setTimeout 1000
                 {| Polling.result := res; Polling.hookError := err;
                    Polling.attempts := 0; Polling.timers := [];
                    Polling.pending := None |}))
    as (v & j & Hrun & Hj1 & Hj & Hp & Ht & Hend).
  - cbn. unfold Polling.maxAttempts. lia.
  - cbn. unfold Polling.maxAttempts. lia.
  - cbn. eauto.
  - exists v, j. split; [exact Hrun|].
    cbn [Polling.attempts Polling.setTimeout] in Hj. unfold Polling.maxAttempts in Hj.
    split; [lia|]. split; [exact Hp|]. split; [exact Ht | exact Hend].
Qed.

Lemma polling_always_comes_to_rest_witness :
  exists v (k : nat),
    Polling.pollForCompletion 60 guest firstId (fun _ => None) None None stuckState =
      (Return (Some (v, k)), stuckState) /\
    (1 <= k <= 60)%nat /\
    Polling.pending v = None /\
    Polling.timers v = 1000 :: replicate (k - 1) 2000 /\
    ((exists m, Polling.hookError v = Some m) \/
     (Polling.hookError v = None /\
      exists r, Polling.result v = Some r /\ Polling.res_status r = completed)).
Proof.
  apply (polling_always_comes_to_rest 60 guest firstId (fun _ => None) None None stuckState).
  lia.
Defined.

(** * Polling: the owner filter *)

(** X15: the status query is filtered by owner exactly for a signed-in caller
    whose id has the format of a UUID.  Such a caller polling for the record
    of another owner is told that the status check failed after one tick,
    and the record is never shown; a caller who is not signed in is shown a
    completed record of any owner after one tick. *)
Theorem polling_owner_filter (fuel : nat) (a : Polling.auth) (problemId : jsstring)
    (n : Polling.net) (res : option Polling.ProblemResult) (err : option jsstring)
    (s : state) (row : submission) :
  (1 <= fuel)%nat -> n 0%nat = None ->
  Polling.isValidUUID problemId = true ->
  problem_submissions s !! problemId = Some row ->
  (forall uid, filtersBy a uid -> sub_user_id row <> uid ->
     exists v,
       Polling.pollForCompletion fuel a problemId n res err s =
         (Return (Some (v, 1%nat)), s) /\
       Polling.result v = res /\
       Polling.hookError v = Some (js "Failed to check problem status")) /\
  (Polling.isAuthenticated a = false -> sub_status row = completed ->
     exists v,
       Polling.pollForCompletion fuel a problemId n res err s =
         (Return (Some (v, 1%nat)), s) /\
       Polling.result v = Some (Polling.newResult row) /\
       Polling.hookError v = err).
Proof.
  intros Hfuel Hn Hid Hrow.
  destruct fuel as [|fuel]; [lia|].
  unfold Polling.pollForCompletion. cbn [Polling.ticks Polling.setTimeout Polling.pending].
  rewrite bind_run, Hn. split.
  - intros uid (Ha & Hu & Hv) Hne.
    unfold Polling.poll, tryCatch. rewrite bind_run, throwIf_run, Hid. cbn [negb].
    rewrite bind_run. unfold Polling.query. rewrite Ha, Hu.
    cbn [truthy_opt default from_option id andb]. rewrite Hv.
    assert (Ht : truthy uid = true).
    { destruct uid; [discriminate Hv | reflexivity]. }
    rewrite Ht. cbn [andb]. unfold Db.selectSubmission. rewrite Hrow.
    rewrite bool_decide_eq_false_2 by exact Hne. cbn [Db.err].
    unfold mret, M_ret. rewrite ticks_at_rest by reflexivity.
    eexists. split; [reflexivity|]. split; reflexivity.
  - intros Ha Hst.
    unfold Polling.poll, tryCatch. rewrite bind_run, throwIf_run, Hid. cbn [negb].
    rewrite bind_run. unfold Polling.query. rewrite Ha. cbn [andb].
    unfold Db.selectSubmission. rewrite Hrow. cbn [Db.err Db.data]. rewrite Hst.
    cbn [terminal]. unfold mret, M_ret. rewrite ticks_at_rest by reflexivity.
    eexists. split; [reflexivity|]. split; reflexivity.
Qed.

Lemma polling_owner_filter_witness :
  exists v,
    Polling.pollForCompletion 1 stranger firstId (fun _ => None) None None stuckState =
      (Return (Some (v, 1%nat)), stuckState) /\
    Polling.result v = None /\
    Polling.hookError v = Some (js "Failed to check problem status").
Proof.
  edestruct (polling_owner_filter 1 stranger firstId (fun _ => None) None None stuckState)
    as [H _].
  - lia.
  - reflexivity.
  - vm_compute. reflexivity.
  - vm_compute. reflexivity.
  - apply (H strangerId).
    + repeat split.
    + vm_compute. discriminate.
Defined.

(** * Sessions: what ending and checking a session can change *)

Lemma sessionsOf_refl (owner : option jsstring) (s s' : state) :
  learning_sessions s' = learning_sessions s -> sessionsOf owner s s'.
Proof.
  intros H k. rewrite H. destruct (learning_sessions s !! k); auto.
Qed.

Lemma logSecurityEvent_effect (e : Session.env) (userId : option jsstring)
    (action resourceType : jsstring) (resourceId : option jsstring) (s : state) :
  exists s',
    Session.logSecurityEvent e userId action resourceType resourceId s = (Return tt, s') /\
    sameOutsideSessions s s' /\
    learning_sessions s' = learning_sessions s /\
    (Session.auditFault e = None ->
     audit_logs s' = audit_logs s ++
       [{| aud_user_id := userId; aud_action := action;
           aud_resource_type := resourceType; aud_resource_id := resourceId;
           aud_created_at := Session.clock e (clockPos s) |}]).
Proof.
  unfold Session.logSecurityEvent, tryCatch. rewrite bind_run, now_run.
  unfold Db.insertAudit.
  destruct (Session.auditFault e); eexists; (split; [reflexivity|]);
    repeat split; try reflexivity; intros; congruence.
Qed.

(** [endSession]: it never throws; it changes no table but the sessions and
    the audit log, and no session of another user; when it answers [false]
    the sessions and the session of the hook are as before; when it answers
    [true] the hook has no session and no error. *)
Lemma endSession_shape (e : Session.env) (sessionId : option jsstring)
    (h : Session.hook) (s : state) :
  exists b h' s',
    Session.endSession e sessionId h s = (Return (b, h'), s') /\
    sameOutsideSessions s s' /\
    sessionsOf (Session.user h) s s' /\
    Session.user h' = Session.user h /\
    (b = false ->
     learning_sessions s' = learning_sessions s /\ audit_logs s' = audit_logs s /\
     Session.session h' = Session.session h) /\
    (b = true -> Session.session h' = None /\ Session.hookError h' = None).
Proof.
  unfold Session.endSession.
  destruct (or_null (match or_null sessionId with
                     | Some i => Some i
                     | None => Session.id <$> Session.session h
                     end)) as [target|].
  2:{ eexists _, _, _. split; [reflexivity|]. repeat split; try discriminate.
      now apply sessionsOf_refl. }
  destruct (or_null (Session.user h)) as [uid|] eqn:Hu.
  2:{ eexists _, _, _. split; [reflexivity|]. repeat split; try discriminate.
      now apply sessionsOf_refl. }
  assert (Huser : Session.user h = Some uid).
  { destruct (Session.user h) as [[|c u]|]; cbn in Hu; congruence. }
  unfold tryCatch. rewrite bind_run, now_run, bind_run. unfold Db.updateSession.
  destruct (Session.updateFault e) as [msg|].
  { eexists _, _, _. split; [reflexivity|]. repeat split; try discriminate.
    now apply sessionsOf_refl. }
  cbn [learning_sessions with_clockPos].
  destruct (learning_sessions s !! target) as [row|] eqn:Hrow.
  - case_bool_decide as Hown.
    + rewrite bind_run.
      match goal with
      | |- context [Session.logSecurityEvent ?e ?u ?a ?t ?r ?st] =>
          destruct (logSecurityEvent_effect e u a t r st)
            as (s' & -> & (Hus & Hps & Hws) & Hls & _)
      end.
      eexists _, _, _. split; [reflexivity|].
      split; [repeat split; [rewrite Hus | rewrite Hps | rewrite Hws]; reflexivity|].
      split.
      * intros k. rewrite Hls. cbn [learning_sessions with_sessions].
        destruct (decide (target = k)) as [<-|Hne].
        -- rewrite lookup_insert_eq, Hrow. cbn. split; [reflexivity|].
           split; [reflexivity|]. intros Hneq. congruence.
        -- rewrite lookup_insert_ne by exact Hne.
           destruct (learning_sessions s !! k); auto.
      * split; [reflexivity|]. split; [discriminate|]. intros _. split; reflexivity.
    + rewrite bind_run.
      match goal with
      | |- context [Session.logSecurityEvent ?e ?u ?a ?t ?r ?st] =>
          destruct (logSecurityEvent_effect e u a t r st)
            as (s' & -> & (Hus & Hps & Hws) & Hls & _)
      end.
      eexists _, _, _. split; [reflexivity|].
      split; [repeat split; [rewrite Hus | rewrite Hps | rewrite Hws]; reflexivity|].
      split; [apply sessionsOf_refl; rewrite Hls; reflexivity|].
      split; [reflexivity|]. split; [discriminate|]. intros _. split; reflexivity.
  - rewrite bind_run.
    match goal with
    | |- context [Session.logSecurityEvent ?e ?u ?a ?t ?r ?st] =>
        destruct (logSecurityEvent_effect e u a t r st)
          as (s' & -> & (Hus & Hps & Hws) & Hls & _)
    end.
    eexists _, _, _. split; [reflexivity|].
    split; [repeat split; [rewrite Hus | rewrite Hps | rewrite Hws]; reflexivity|].
    split; [apply sessionsOf_refl; rewrite Hls; reflexivity|].
    split; [reflexivity|]. split; [discriminate|]. intros _. split; reflexivity.
Qed.

(** X16: [endSession] never throws.  It changes no table but the sessions
    and the audit log; it adds and removes no session, changes no session of
    another user, and leaves owner and start of every session as they are.
    When it answers [false], sessions, audit log and the session of the hook
    are as before; when it answers [true], the store did not refuse the
    update and the hook has no session and no error. *)
Theorem endSession_changes_only_own_sessions (e : Session.env)
    (sessionId : option jsstring) (h : Session.hook) (s s' : state)
    (o : outcome (bool * Session.hook)) :
  Session.endSession e sessionId h s = (o, s') ->
  exists b h',
    o = Return (b, h') /\
    sameOutsideSessions s s' /\
    sessionsOf (Session.user h) s s' /\
    (b = false ->
     learning_sessions s' = learning_sessions s /\ audit_logs s' = audit_logs s /\
     Session.session h' = Session.session h) /\
    (b = true ->
     Session.updateFault e = None /\
     Session.session h' = None /\ Session.hookError h' = None).
Proof.
  intros Hrun.
  destruct (endSession_shape e sessionId h s)
    as (b & h' & s1 & Hrun1 & Hout & Hses & _ & Hfalse & Htrue).
  rewrite Hrun in Hrun1. injection Hrun1 as -> ->.
  exists b, h'. split; [reflexivity|]. split; [exact Hout|]. split; [exact Hses|].
  split; [exact Hfalse|]. intros ->. split; [|exact (Htrue eq_refl)].
  destruct (Session.updateFault e) as [msg|] eqn:Hf; [exfalso | reflexivity].
  unfold Session.endSession in Hrun.
  destruct (or_null (match or_null sessionId with
                     | Some i => Some i
                     | None => Session.id <$> Session.session h
                     end)) as [target|]; [|discriminate Hrun].
  destruct (or_null (Session.user h)) as [uid|]; [|discriminate Hrun].
  unfold tryCatch in Hrun. rewrite bind_run, now_run, bind_run in Hrun.
  unfold Db.updateSession in Hrun. rewrite Hf in Hrun. discriminate Hrun.
Qed.

Lemma endSession_changes_only_own_sessions_witness :
  exists b h',
    (Session.endSession sessionEnv None sampleHook (sessionState 0)).1 = Return (b, h') /\
    sameOutsideSessions (sessionState 0)
      (Session.endSession sessionEnv None sampleHook (sessionState 0)).2 /\
    (b = true -> Session.session h' = None).
Proof.
  destruct (endSession_changes_only_own_sessions sessionEnv None sampleHook
              (sessionState 0)
              (Session.endSession sessionEnv None sampleHook (sessionState 0)).2
              (Session.endSession sessionEnv None sampleHook (sessionState 0)).1)
    as (b & h' & Ho & Hout & _ & _ & Ht).
  - vm_compute. reflexivity.
  - exists b, h'. split; [exact Ho|]. split; [exact Hout|].
    intros Hb. apply (Ht Hb).
Defined.



(** X18: [validateSessionSecurity] never throws, and whatever it answers it
    changes no table but the sessions and the audit log, and no session of
    another user.  It answers [true] only for a session that the store holds
    for the user of the hook and that started at most an hour before the
    clock was read; then hook, sessions and audit log are as before. *)
Theorem validateSessionSecurity_sound (e : Session.env) (h : Session.hook)
    (s s' : state) (o : outcome (bool * Session.hook)) :
  Session.validateSessionSecurity e h s = (o, s') ->
  exists b h',
    o = Return (b, h') /\
    sameOutsideSessions s s' /\
    sessionsOf (Session.user h) s s' /\
    (b = true ->
     h' = h /\ learning_sessions s' = learning_sessions s /\
     audit_logs s' = audit_logs s /\
     exists ss row,
       Session.session h = Some ss /\
       learning_sessions s !! Session.id ss = Some row /\
       Session.user h = Some (ses_user_id row) /\
       Session.clock e (clockPos s) - ses_session_start row <= 60 * 60 * 1000).
Proof.
  unfold Session.validateSessionSecurity. intros Hrun.
  assert (Hrefl : forall h0, (o, s') = (Return (false, h0), s) ->
            exists b h',
              o = Return (b, h') /\ sameOutsideSessions s s' /\
              sessionsOf (Session.user h) s s' /\
              (b = true ->
               h' = h /\ learning_sessions s' = learning_sessions s /\
               audit_logs s' = audit_logs s /\
               exists ss row,
                 Session.session h = Some ss /\
                 learning_sessions s !! Session.id ss = Some row /\
                 Session.user h = Some (ses_user_id row) /\
                 Session.clock e (clockPos s) - ses_session_start row <= 60 * 60 * 1000)).
  { intros h0 E. injection E as -> ->. exists false, h0.
    split; [reflexivity|]. split; [repeat split|].
    split; [now apply sessionsOf_refl | discriminate]. }
  destruct (or_null (Session.id <$> Session.session h)) as [sid|] eqn:Hsid;
    [|exact (Hrefl h (eq_sym Hrun))].
  destruct (or_null (Session.user h)) as [uid|] eqn:Hu;
    [|exact (Hrefl h (eq_sym Hrun))].
  assert (Huser : Session.user h = Some uid).
  { destruct (Session.user h) as [[|c u]|]; cbn in Hu; congruence. }
  assert (Hss : exists ss, Session.session h = Some ss /\ Session.id ss = sid).
  { destruct (Session.session h) as [ss|]; [|discriminate Hsid].
    exists ss. split; [reflexivity|]. cbn in Hsid.
    destruct (Session.id ss); cbn in Hsid; congruence. }
  destruct Hss as (ss & Hss & Hid).
  unfold tryCatch in Hrun. rewrite bind_run in Hrun. unfold Db.selectSession in Hrun.
  destruct (Session.selectFault e) as [code|];
    [exact (Hrefl _ (eq_sym Hrun))|].
  destruct (learning_sessions s !! sid) as [row|] eqn:Hrow;
    [|exact (Hrefl _ (eq_sym Hrun))].
  case_bool_decide as Hown; [|exact (Hrefl _ (eq_sym Hrun))].
  cbn [Db.err Db.data] in Hrun. rewrite bind_run, now_run in Hrun.
  destruct (Z.gtb_spec (Session.clock e (clockPos s) - ses_session_start row)
              (1000 * 60 * 60)) as [Hlate|Hearly].
  - rewrite bind_run in Hrun.
    destruct (endSession_shape e (Some sid) h (with_clockPos (S (clockPos s)) s))
      as (b & h' & s1 & Hend & (Hus & Hps & Hws) & Hses & _).
    rewrite Hend in Hrun. injection Hrun as <- <-.
    exists false, h'. split; [reflexivity|].
    split; [repeat split; assumption|]. split; [exact Hses | discriminate].
  - injection Hrun as <- <-. exists true, h. split; [reflexivity|].
    split; [repeat split|]. split; [now apply sessionsOf_refl|].
    intros _. split; [reflexivity|]. split; [reflexivity|]. split; [reflexivity|].
    exists ss, row. rewrite Hid. split; [exact Hss|]. split; [exact Hrow|].
    split; [congruence | lia].
Qed.

Lemma validateSessionSecurity_sound_witness :
  exists ss row,
    Session.session sampleHook = Some ss /\
    learning_sessions (sessionState 60) !! Session.id ss = Some row /\
    Session.user sampleHook = Some (ses_user_id row) /\
    Session.clock sessionEnv 60 - ses_session_start row <= 60 * 60 * 1000.
Proof.
  destruct (validateSessionSecurity_sound sessionEnv sampleHook (sessionState 60)
              (Session.validateSessionSecurity sessionEnv sampleHook (sessionState 60)).2
              (Return (true, sampleHook)))
    as (b & h' & Ho & _ & _ & Ht).
  - vm_compute. reflexivity.
  - injection Ho as <- <-. destruct (Ht eq_refl) as (_ & _ & _ & H). exact H.
Defined.

(** * lib/security.ts: permissions *)

(** X19: [validateUserPermission] never throws and never writes.  It grants
    an action only to a user whose id passes the strict UUIDv4 validation and
    who has a row in [users], and to a guest only the actions [read_public]
    and [submit_problem]; the default guest id, which is not of version 4, is
    granted nothing. *)
Theorem validateUserPermission_grants (e : Security.env) (userId action : jsstring)
    (s : state) :
  exists b,
    Security.validateUserPermission e userId action s = (Return b, s) /\
    (b = true ->
     Uuid.isValidUUID userId = true /\
     exists row,
       users s !! userId = Some row /\
       (usr_is_guest row = true ->
        action = js "read_public" \/ action = js "submit_problem")) /\
    (userId = Handler.DEFAULT_USER_ID -> b = false).
Proof.
  unfold Security.validateUserPermission.
  destruct (Uuid.isValidUUID userId) eqn:Hv; cbn [negb].
  2:{ exists false. split; [reflexivity|]. split; [discriminate | reflexivity]. }
  assert (Hd : userId = Handler.DEFAULT_USER_ID -> forall b : bool, b = false).
  { intros ->. rewrite DEFAULT_USER_ID_not_v4 in Hv. discriminate. }
  unfold tryCatch. rewrite bind_run. unfold Security.selectUser, Security.orServe.
  destruct (Security.userFault e) as [[code|msg]|].
  - exists false. split; [reflexivity|]. split; [discriminate | reflexivity].
  - exists false. split; [reflexivity|]. split; [discriminate | reflexivity].
  - destruct (users s !! userId) as [row|] eqn:Hrow.
    2:{ exists false. split; [reflexivity|]. split; [discriminate | reflexivity]. }
    cbn [Db.err Db.data]. destruct (usr_is_guest row) eqn:Hg.
    + eexists. split; [reflexivity|]. split; [|intros H; apply (Hd H)].
      intros Hb. split; [reflexivity|]. exists row. split; [reflexivity|]. intros _.
      apply bool_decide_eq_true_1 in Hb. unfold Security.allowedGuestActions in Hb.
      apply elem_of_cons in Hb as [-> | Hb]; [now left|].
      apply list_elem_of_singleton in Hb as ->. now right.
    + exists true. split; [reflexivity|]. split; [|intros H; apply (Hd H)].
      intros _. split; [reflexivity|]. exists row. split; [reflexivity|]. congruence.
Qed.

(** The rows the edge function adds to [users] are guest rows. *)
Lemma serve_new_user (method : jsstring) (e : Handler.env) (s s' : state)
    (r : Handler.response) (id : jsstring) (u : user_row) :
  Handler.serve method e s = (Return r, s') ->
  users s !! id = None -> users s' !! id = Some u -> u = guestRow id.
Proof.
  intros Hrun Hn Hu.
  assert (Hbody : s' = s \/ exists o, Handler.body e s = (o, s')).
  { destruct (serve_inv method e s s' r Hrun) as [[_ H] | [H | (msg & _ & H)]]; eauto. }
  destruct Hbody as [-> | [o Hbody]]; [congruence|].
  destruct (body_users e s s' o Hbody) as [H | (req & userId & sr & _ & _ & _ & H)];
    rewrite H in Hu; [congruence|].
  destruct (decide (userId = id)) as [->|Hne].
  - rewrite lookup_insert_eq in Hu. congruence.
  - rewrite lookup_insert_ne in Hu by exact Hne. congruence.
Qed.

(** X20: an owner whose row the edge function creates is a guest for the
    security manager: afterwards [validateUserPermission] refuses this owner
    every action other than [read_public] and [submit_problem], such as
    [upload_media]. *)
Theorem created_owner_has_guest_permissions (method : jsstring) (e : Handler.env)
    (s s' : state) (r : Handler.response) (se : Security.env) (id action : jsstring) :
  Handler.serve method e s = (Return r, s') ->
  users s !! id = None -> is_Some (users s' !! id) ->
  action <> js "read_public" -> action <> js "submit_problem" ->
  Security.validateUserPermission se id action s' = (Return false, s').
Proof.
  intros Hrun Hn [u Hu] Ha1 Ha2.
  pose proof (serve_new_user method e s s' r id u Hrun Hn Hu) as ->.
  unfold Security.validateUserPermission.
  destruct (Uuid.isValidUUID id); cbn [negb]; [|reflexivity].
  unfold tryCatch. rewrite bind_run. unfold Security.selectUser, Security.orServe.
  destruct (Security.userFault se) as [[code|msg]|]; [reflexivity..|].
  rewrite Hu. cbn [Db.err Db.data guestRow usr_is_guest].
  rewrite bool_decide_eq_false_2; [reflexivity|].
  unfold Security.allowedGuestActions. intros H.
  apply elem_of_cons in H as [-> | H]; [congruence|].
  apply list_elem_of_singleton in H as ->. congruence.
Qed.

Lemma created_owner_has_guest_permissions_witness :
  Security.validateUserPermission securityEnv strangerId (js "upload_media")
    (Handler.serve (js "POST") (sampleEnv (textRequest (Some strangerId)) providerAnswer)
       emptyState).2 =
  (Return false,
   (Handler.serve (js "POST") (sampleEnv (textRequest (Some strangerId)) providerAnswer)
      emptyState).2).
Proof.
  apply (created_owner_has_guest_permissions (js "POST")
           (sampleEnv (textRequest (Some strangerId)) providerAnswer) emptyState _
           (Handler.Success firstId (js "4") (js "General") medium defaultTags)).
  - vm_compute. reflexivity.
  - reflexivity.
  - vm_compute. eauto.
  - discriminate.
  - discriminate.
Defined.

(** * lib/security.ts and the session hook: the creation of sessions *)

Lemma createSecureSession_cases (e : Security.env) (userId : jsstring) (s : state) :
  exists r s',
    Security.createSecureSession e userId s = (Return r, s') /\
    sameOutsideSessions s s' /\ audit_logs s' = audit_logs s /\
    match r with
    | None =>
        learning_sessions s' = learning_sessions s /\
        (Uuid.isValidUUID userId = false -> s' = s)
    | Some sid =>
        Uuid.isValidUUID userId = true /\
        sid = (Uuid.generateUUID (Security.rnd e) (rndPos s)).1 /\
        learning_sessions s !! sid = None /\
        learning_sessions s' =
          <[sid := newSession userId (Session.clock (Security.base e) (clockPos s))]>
            (learning_sessions s) /\
        clockPos s' = S (clockPos s)
    end.
Proof.
  unfold Security.createSecureSession.
  destruct (Uuid.isValidUUID userId) eqn:Hv; cbn [negb].
  2:{ exists None, s. split; [reflexivity|]. repeat split; reflexivity. }
  unfold tryCatch. rewrite bind_run, now_run, bind_run.
  unfold Security.insertSession, Security.orServe.
  destruct (Security.insertFault e) as [[code|msg]|].
  - eexists None, _. split; [reflexivity|]. repeat split; try reflexivity. discriminate.
  - eexists None, _. split; [reflexivity|]. repeat split; try reflexivity. discriminate.
  - cbn [rndPos with_clockPos].
    destruct (Uuid.generateUUID (Security.rnd e) (rndPos s)) as [newId k] eqn:Hg.
    cbn [learning_sessions with_rndPos with_clockPos].
    destruct (learning_sessions s !! newId) eqn:Hnew.
    + eexists None, _. split; [reflexivity|]. repeat split; try reflexivity. discriminate.
    + eexists (Some newId), _. split; [reflexivity|]. repeat split; try reflexivity.
      exact Hnew.
Qed.

(** X21: [createSecureSession] never throws, and it changes nothing but the
    sessions and the positions of clock and random source.  When it returns
    an id, the user id passes the strict UUIDv4 validation, the id was not in
    use, and the one change to the sessions is a new row under this id: owned
    by the user, started at the reading of the clock, not ended, with the
    standard metadata.  When it returns nothing the sessions are as before;
    for a user id that fails the validation, such as the default guest id,
    the whole state is. *)
Theorem createSecureSession_effects (e : Security.env) (userId : jsstring) (s : state) :
  exists r s',
    Security.createSecureSession e userId s = (Return r, s') /\
    sameOutsideSessions s s' /\ audit_logs s' = audit_logs s /\
    match r with
    | None => learning_sessions s' = learning_sessions s
    | Some sid =>
        Uuid.isValidUUID userId = true /\
        learning_sessions s !! sid = None /\
        learning_sessions s' =
          <[sid := newSession userId (Session.clock (Security.base e) (clockPos s))]>
            (learning_sessions s)
    end /\
    (Uuid.isValidUUID userId = false -> r = None /\ s' = s) /\
    Uuid.isValidUUID Handler.DEFAULT_USER_ID = false.
Proof.
  destruct (createSecureSession_cases e userId s) as (r & s' & Hrun & Hout & Haud & Hr).
  exists r, s'. split; [exact Hrun|]. split; [exact Hout|]. split; [exact Haud|].
  split; [|split; [|reflexivity]].
  - destruct r as [sid|].
    + destruct Hr as (Hv & _ & Hnew & Hs & _). auto.
    + apply Hr.
  - intros Hv. destruct r as [sid|].
    + destruct Hr as (Hv' & _). congruence.
    + split; [reflexivity | now apply Hr].
Qed.

(** * The session hook: createSession *)



(** X22: without a user [createSession] reports that the user is not
    authenticated and does nothing else, not even to [isLoading].  For a user
    whose id fails the strict UUIDv4 validation, such as the default guest
    id, it reports that the session could not be created and leaves the
    store and the session of the hook as they were. *)
Theorem createSession_refusals (e : SessionStart.env) (h : SessionStart.hook) (s : state) :
  (or_null (Session.user (SessionStart.core h)) = None ->
   SessionStart.createSession e h s =
     (Return (None, SessionStart.setError (Some (js "User not authenticated")) h), s)) /\
  (forall uid,
     Session.user (SessionStart.core h) = Some uid -> uid <> [] ->
     Uuid.isValidUUID uid = false ->
     SessionStart.createSession e h s =
       (Return (None,
                SessionStart.setIsLoading false
                  (SessionStart.setError (Some (js "Failed to create secure session")) h)),
        s)) /\
  SessionStart.createSession e (hookOf (Some Handler.DEFAULT_USER_ID)) s =
    (Return (None,
             SessionStart.setIsLoading false
               (SessionStart.setError (Some (js "Failed to create secure session"))
                  (hookOf (Some Handler.DEFAULT_USER_ID)))),
     s).
Proof.
  assert (Hinv : forall h0 uid,
     Session.user (SessionStart.core h0) = Some uid -> uid <> [] ->
     Uuid.isValidUUID uid = false ->
     SessionStart.createSession e h0 s =
       (Return (None,
                SessionStart.setIsLoading false
                  (SessionStart.setError (Some (js "Failed to create secure session")) h0)),
        s)).
  { intros h0 uid Hu Huid Hv. unfold SessionStart.createSession.
    rewrite Hu. destruct uid as [|c uid]; [congruence|]. cbn [or_null truthy].
    rewrite bind_run. unfold tryCatch. rewrite bind_run.
    unfold Security.createSecureSession. rewrite Hv. reflexivity. }
  split; [|split].
  - intros Hu. unfold SessionStart.createSession. rewrite Hu. reflexivity.
  - apply Hinv.
  - apply (Hinv _ Handler.DEFAULT_USER_ID); [reflexivity | discriminate | reflexivity].
Qed.





(** * hooks/useProblemSubmission.ts: the submission *)

(** ** trim *)

Lemma trimStart_fixed (c : Z) (s : jsstring) :
  Submit.isWhiteSpace c = false -> Submit.trimStart (c :: s) = c :: s.
Proof. intros H. cbn [Submit.trimStart]. now rewrite H. Qed.

(** What [trimStart] returns is a suffix of its argument that does not start
    with white space. *)
Lemma trimStart_spec (s : jsstring) :
  exists w,
    s = w ++ Submit.trimStart s /\
    match Submit.trimStart s with
    | [] => True
    | c :: _ => Submit.isWhiteSpace c = false
    end.
Proof.
  induction s as [|c s (w & Hs & Hc)].
  - exists []. split; [reflexivity | exact I].
  - cbn [Submit.trimStart]. destruct (Submit.isWhiteSpace c) eqn:E.
    + exists (c :: w). split; [cbn; congruence | exact Hc].
    + exists []. split; [reflexivity | exact E].
Qed.

Lemma trimStart_idem (s : jsstring) :
  Submit.trimStart (Submit.trimStart s) = Submit.trimStart s.
Proof.
  destruct (trimStart_spec s) as (w & _ & Hc).
  destruct (Submit.trimStart s) as [|c t]; [reflexivity|].
  now apply trimStart_fixed.
Qed.

(** [trim] leaves no white space at either end: trimming again changes
    nothing. *)
Lemma trim_idem (s : jsstring) : Submit.trim (Submit.trim s) = Submit.trim s.
Proof.
  unfold Submit.trim.
  destruct (trimStart_spec s) as (_ & _ & Ht).
  destruct (trimStart_spec (rev (Submit.trimStart s))) as (w & Hw & Hu).
  set (t := Submit.trimStart s) in *.
  set (u := Submit.trimStart (rev t)) in *.
  assert (Hfix : Submit.trimStart (rev u) = rev u).
  { assert (Et : t = rev u ++ rev w).
    { rewrite <- rev_app_distr, <- Hw. symmetry. apply rev_involutive. }
    destruct (rev u) as [|c r] eqn:Er; [reflexivity|].
    rewrite Et in Ht. cbn in Ht. now apply trimStart_fixed. }
  rewrite Hfix, rev_involutive. unfold u. now rewrite trimStart_idem.
Qed.

Lemma truthy_opt_Some (o : option jsstring) :
  truthy_opt o = true -> exists t, o = Some t /\ t <> [].
Proof.
  destruct o as [[|c t]|]; cbn; intros H; try discriminate.
  eexists. split; [reflexivity | discriminate].
Qed.

(** ** The runs of submitProblem *)

Ltac submit_cases H :=
  unfold Submit.submitProblem in H;
  repeat match goal with
         | E : (_, _) = (_, _) |- _ => injection E as ? ?; subst
         | E : context [if ?c then _ else _] |- _ => destruct c eqn:?
         | E : context [match ?x with _ => _ end] |- _ => destruct x eqn:?
         end.

(** X24: [submitProblem] always ends with [isSubmitting] off.  When it
    returns an id, the id has the format of a UUID, exactly one invocation
    was made, no error is shown, and the result shown carries this id;
    [pollForCompletion] was called, once and with this id, exactly when the
    status shown is [processing] or [pending].  When it returns nothing, an
    error is shown, no result is, polling was not started, and at most one
    invocation was made. *)
Theorem submitProblem_outcomes (e : Submit.env) (data : Submit.ProblemSubmissionData)
    (h h' : Submit.hook) (r : option jsstring) :
  Submit.submitProblem e data h = (r, h') ->
  Submit.isSubmitting h' = false /\
  (forall problemId, r = Some problemId ->
     Polling.isValidUUID problemId = true /\
     Submit.hookError h' = None /\
     (exists o, Submit.sent h' = Submit.sent h ++ [o]) /\
     exists res,
       Submit.result h' = Some res /\ Polling.res_id res = problemId /\
       Polling.res_errorMessage res = None /\
       (Polling.res_status res = processing \/ Polling.res_status res = pending ->
        Submit.polled h' = Submit.polled h ++ [problemId]) /\
       (Polling.res_status res = completed \/ Polling.res_status res = error ->
        Submit.polled h' = Submit.polled h)) /\
  (r = None ->
     Submit.result h' = None /\ is_Some (Submit.hookError h') /\
     Submit.polled h' = Submit.polled h /\
     (Submit.sent h' = Submit.sent h \/ exists o, Submit.sent h' = Submit.sent h ++ [o])).
Proof.
  intros H. submit_cases H; cbn;
    (split; [reflexivity|]); (split; [intros pid Hp | intros Hn]);
    try discriminate;
    try (repeat split; eauto; fail).
  all: injection Hp as <-.
  all: match goal with
       | Hc : _ || _ = false |- _ =>
           apply orb_false_elim in Hc as [Hc1 Hc2];
           apply negb_false_iff in Hc1; apply negb_false_iff in Hc2
       end.
  all: destruct (Submit.rsp_status _) as [[]|] eqn:Hst; cbn.
  all: split; [assumption|]; split; [reflexivity|]; split; [eauto|].
  all: eexists; split; [reflexivity|]; cbn; split; [reflexivity|]; split; [reflexivity|].
  all: rewrite ?Hst; cbn.
  all: split; intros [Hs | Hs]; try discriminate Hs; reflexivity.
Qed.

Lemma submitProblem_outcomes_witness :
  Submit.isSubmitting (Submit.submitProblem (submitEnv processingResponse) sampleData idleHook).2
    = false /\
  Submit.polled (Submit.submitProblem (submitEnv processingResponse) sampleData idleHook).2
    = [firstId].
Proof.
  destruct (submitProblem_outcomes (submitEnv processingResponse) sampleData idleHook
              (Submit.submitProblem (submitEnv processingResponse) sampleData idleHook).2
              (Some firstId))
    as (Hs & Hsome & _).
  - vm_compute. reflexivity.
  - split; [exact Hs|].
    destruct (Hsome firstId eq_refl) as (_ & _ & _ & res & Hres & _ & _ & Hpoll & _).
    apply Hpoll. left. vm_compute in Hres. injection Hres as <-. reflexivity.
Defined.

Lemma not_extended {A} (l : list A) (x : A) : l <> l ++ [x].
Proof.
  intros H. apply (f_equal length) in H. rewrite length_app in H. cbn in H. lia.
Qed.

Lemma trim_fmap_idem (o : option jsstring) (x : jsstring) :
  Submit.trim <$> o = Some x -> Submit.trim x = x.
Proof.
  destruct o as [t|]; cbn; intros H; [|discriminate].
  injection H as <-. apply trim_idem.
Qed.

Lemma content_present (a b c : option jsstring) :
  negb (truthy_opt a) && negb (truthy_opt b) && negb (truthy_opt c) = false ->
  truthy_opt a = true \/ truthy_opt b = true \/ truthy_opt c = true.
Proof. destruct (truthy_opt a), (truthy_opt b), (truthy_opt c); cbn; auto. Qed.

(** X25: what [submitProblem] sends.  A title that is blank once trimmed,
    or a submission with no text left after trimming, no image and no voice
    recording, is refused with a message and nothing is sent.  Every request
    sent carries the title trimmed and not empty, text and description
    trimmed, some content, the input type as given and no user id; and a
    header [Authorization], when there is one, is [Bearer] followed by the
    non-empty token of the session or of the mock authentication. *)
Theorem submitProblem_requests (e : Submit.env) (data : Submit.ProblemSubmissionData)
    (h h' : Submit.hook) (r : option jsstring) :
  Submit.submitProblem e data h = (r, h') ->
  (Submit.trim (Submit.title data) = [] ->
   r = None /\ Submit.sent h' = Submit.sent h /\
   Submit.hookError h' = Some (js "Problem title is required")) /\
  (Submit.trim (Submit.title data) <> [] ->
   truthy_opt (Submit.trim <$> Submit.textContent data) = false ->
   truthy_opt (Submit.imageData data) = false ->
   truthy_opt (Submit.voiceUrl data) = false ->
   r = None /\ Submit.sent h' = Submit.sent h /\
   Submit.hookError h' = Some (js "Problem content is required")) /\
  (forall o, Submit.sent h' = Submit.sent h ++ [o] ->
     (exists t,
        Handler.title (Submit.body o) = Some t /\ t <> [] /\ Submit.trim t = t) /\
     Handler.input_type (Submit.body o) = Some (Submit.inputType data) /\
     Handler.user_id (Submit.body o) = None /\
     hasContent (Submit.body o) /\
     (forall x, Handler.text_content (Submit.body o) = Some x -> Submit.trim x = x) /\
     (forall x, Handler.description (Submit.body o) = Some x -> Submit.trim x = x) /\
     (forall a, Submit.headers o = Some a ->
        exists tok,
          tok <> [] /\ a = js "Bearer " ++ tok /\
          (Submit.getSession e = Return (Some tok) \/ Submit.token e = Some tok))).
Proof.
  intros H. split; [|split].
  - intros Ht. unfold Submit.submitProblem in H. rewrite Ht in H. cbn in H.
    injection H as <- <-. repeat split.
  - intros Ht Ha Hb Hc. unfold Submit.submitProblem in H.
    destruct (Submit.trim (Submit.title data)) as [|c t] eqn:E; [congruence|].
    rewrite Ha, Hb, Hc in H. cbn in H. injection H as <- <-. repeat split.
  - intros o Ho. submit_cases H; cbn in Ho;
      try (exfalso; exact (not_extended _ _ Ho));
      apply app_inj_tail in Ho as [_ <-]; cbn.
    all: match goal with
         | Hc : negb (truthy (Submit.trim _)) = false |- _ =>
             apply negb_false_iff in Hc
         end.
    all: match goal with
         | Hc : _ && _ && _ = false |- _ => apply content_present in Hc
         end.
    all: split;
      [eexists; split; [reflexivity|];
       split; [destruct (Submit.trim _); [discriminate | discriminate]
              | apply trim_idem]|].
    all: split; [reflexivity|]; split; [reflexivity|]; split; [assumption|].
    all: split; [apply trim_fmap_idem|]; split; [apply trim_fmap_idem|].
    all: intros hd Hhd; try discriminate Hhd; injection Hhd as <-.
    all: match goal with
         | Hs : truthy_opt ?x = true |- context [default [] ?x] =>
             apply truthy_opt_Some in Hs as (tok & Hs & Hne);
             exists tok; rewrite Hs; cbn; split; [exact Hne|]; split; [reflexivity|]
         end.
    all: first [left; congruence | right; congruence].
Qed.

Lemma submitProblem_requests_witness :
  Submit.sent (Submit.submitProblem (submitEnv processingResponse) blankData idleHook).2 = [] /\
  Submit.hookError (Submit.submitProblem (submitEnv processingResponse) blankData idleHook).2
    = Some (js "Problem title is required").
Proof.
  destruct (submitProblem_requests (submitEnv processingResponse) blankData idleHook
              (Submit.submitProblem (submitEnv processingResponse) blankData idleHook).2
              None)
    as (Hblank & _).
  - vm_compute. reflexivity.
  - destruct Hblank as (_ & Hsent & Herr); [reflexivity|].
    split; [exact Hsent | exact Herr].
Defined.
